(** * protomigrate: deprecation facts and deprecated-usage analysis

    A shallow embedding of the two analysis passes of the repository:

    - [facts.deprecated] (facts/deprecated.go), which mines doc comments for
      the [Deprecated: ] marker and exports one fact per declared name;
    - [checkDeprecated] and [run] (protomigrate.go), which walk the files of a
      package and report uses of deprecated objects and imports of deprecated
      packages.

    The syntax tree, the type information and the analysis driver belong to
    the Go tool chain; they appear here as plain data (records, a rose tree
    of nodes, finite maps). *)

From Stdlib Require Import ZArith Lia Ascii String List DecimalString.
From stdpp Require Import base option list gmap strings.

Local Open Scope string_scope.
Local Open Scope Z_scope.

(** ** Go's [strings] package, on byte strings *)

Module strings.

Definition nl : ascii := ascii_of_nat 10.
Definition sp : ascii := ascii_of_nat 32.

(** [strings.HasPrefix(s, prefix)]. *)
Fixpoint HasPrefix (s pre : string) : bool :=
  match pre, s with
  | EmptyString, _ => true
  | String _ _, EmptyString => false
  | String p pre', String c s' => if Ascii.eqb c p then HasPrefix s' pre' else false
  end.

(** The slice expression [s[n:]] for [n <= len(s)]. *)
Fixpoint drop (n : nat) (s : string) : string :=
  match n, s with
  | O, _ => s
  | S _, EmptyString => EmptyString
  | S n', String _ s' => drop n' s'
  end.

(** [strings.Split(s, sep)] scans [s] from the left and cuts at every
    occurrence of [sep] that does not overlap the previous one.  [skip]
    counts the bytes of a separator that are still to be passed over and
    [cur] holds, reversed, the bytes of the piece being read. *)
Fixpoint split_from (sep : string) (skip : nat) (cur : list ascii) (s : string)
  : list string :=
  match s with
  | EmptyString => [string_of_list_ascii (rev cur)]
  | String c s' =>
      match skip with
      | S k => split_from sep k cur s'
      | O =>
          if HasPrefix s sep
          then string_of_list_ascii (rev cur)
                 :: split_from sep (Nat.pred (String.length sep)) [] s'
          else split_from sep O (c :: cur) s'
      end
  end.

(** With an empty separator Go explodes the string into its UTF-8
    sequences; on byte strings that is one piece per byte. *)
Definition Split (s sep : string) : list string :=
  match sep with
  | EmptyString => (fun c => String c EmptyString) <$> list_ascii_of_string s
  | _ => split_from sep O [] s
  end.

(** [strings.Replace(s, old, new, -1)]: every non-overlapping occurrence of
    [old], found from the left, is replaced by [new]. *)
Fixpoint replace_from (old new : string) (skip : nat) (s : string) : string :=
  match s with
  | EmptyString => EmptyString
  | String c s' =>
      match skip with
      | S k => replace_from old new k s'
      | O =>
          if HasPrefix s old
          then new +:+ replace_from old new (Nat.pred (String.length old)) s'
          else String c (replace_from old new O s')
      end
  end.

(** With an empty [old] Go inserts [new] before every UTF-8 sequence and
    at the end; on byte strings that is before every byte. *)
Fixpoint intersperse (new s : string) : string :=
  match s with
  | EmptyString => new
  | String c s' => new +:+ String c (intersperse new s')
  end.

Definition ReplaceAll (s old new : string) : string :=
  match old with
  | EmptyString => intersperse new s
  | _ => replace_from old new O s
  end.

End strings.

(** ** The syntax tree ([go/token], [go/ast]) *)

Module token.
(** The keywords a general declaration can carry. *)
Inductive Token := IMPORT | CONST | TYPE | VAR.
End token.

Module ast.

(** A comment group is read through [Text()] only.  A [*ast.CommentGroup]
    may be nil, hence [option CommentGroup] wherever one is stored. *)
Record CommentGroup := { Text : string }.

Record Ident := { NamePos : Z; Name : string }.

Record BasicLit := { ValuePos : Z; Value : string }.

(** A field of a struct or a method of an interface. *)
Record Field := { Doc : option CommentGroup; Names : list Ident }.

Record ImportSpec := { ImportName : option Ident; Path : BasicLit }.

(** The concrete type of a node with the fields the passes read.  In a
    selector expression [X] is [Some x] when [expr.X] is the identifier
    [x]; the operand itself is the first child of the node. *)
Inductive Kind :=
| File (doc : option CommentGroup) (imports : list ImportSpec)
| GenDecl (doc : option CommentGroup) (tok : token.Token)
| FuncDecl (doc : option CommentGroup) (name : Ident)
| TypeSpec (doc : option CommentGroup) (name : Ident)
| ValueSpec (doc : option CommentGroup) (names : list Ident)
| StructType (fields : list Field)
| InterfaceType (methods : list Field)
| SelectorExpr (X : option Ident) (Sel : Ident)
| ImportSpecNode (spec : ImportSpec)
| IdentNode (id : Ident)
| OtherNode.

#[local] Unset Elimination Schemes.
(** A node and the nodes [ast.Walk] visits below it, in order. *)
Inductive Node := mkNode (k : Kind) (ch : list Node).
#[local] Set Elimination Schemes.

Definition kind (n : Node) : Kind := let 'mkNode k _ := n in k.
Definition children (n : Node) : list Node := let 'mkNode _ ch := n in ch.

(** [f.Doc] and [f.Imports] of a file node. *)
Definition FileDoc (f : Node) : option CommentGroup :=
  match kind f with File doc _ => doc | _ => None end.
Definition FileImports (f : Node) : list ImportSpec :=
  match kind f with File _ imports => imports | _ => [] end.

End ast.

(** ** Resolved symbols ([go/types]) *)

Module types.

(** Packages and objects are compared by address; [pkg_ptr] and [obj_ptr]
    stand for the address. *)
Record Package := { pkg_ptr : positive; Path : string }.

(** [Pkg] is [None] for objects of the universe.  [Imported] is [Some p]
    exactly when the object is a [*types.PkgName] that imports [p]. *)
Record Object := {
  obj_ptr : positive;
  Name : string;
  Pkg : option Package;
  Imported : option Package
}.

(** [Recv] is the receiver type as [%s] prints it. *)
Record Selection := { Recv : string; Obj : Object }.

(** [Selections] is keyed by the selector expression, which its operand
    and its selector identify. *)
Record Info := {
  ObjectOf : ast.Ident -> option Object;
  Selections : option ast.Ident * ast.Ident -> option Selection;
  Implicits : ast.ImportSpec -> option Object
}.

End types.

(** ** Results, errors and panics *)

Definition error := string.

Inductive result (A : Type) : Type :=
| Ok (a : A)
| Err (e : error)
| Panic (msg : string).
Arguments Ok {A} a.
Arguments Err {A} e.
Arguments Panic {A} msg.

(** A computation over the mutable variables [S] of a pass; the state
    reached is kept when the computation fails. *)
Definition M (S A : Type) : Type := S -> S * result A.

Definition ret {S A} (a : A) : M S A := fun s => (s, Ok a).

Definition bind {S A B} (m : M S A) (f : A -> M S B) : M S B :=
  fun s =>
    match m s with
    | (s', Ok a) => f a s'
    | (s', Err e) => (s', Err e)
    | (s', Panic msg) => (s', Panic msg)
    end.

Definition get_state {S} : M S S := fun s => (s, Ok s).
Definition modify {S} (f : S -> S) : M S unit := fun s => (f s, Ok tt).
Definition lift {S A} (r : result A) : M S A := fun s => (s, r).
Definition panic {S A} (msg : string) : M S A := fun s => (s, Panic msg).

Notation "'let*' x ':=' m 'in' k" := (bind m (fun x => k))
  (at level 10, x name, m at level 100, k at level 200).

(** [for _, x := range l { g(x) }]. *)
Definition forM_ {S A} (g : A -> M S unit) : list A -> M S unit :=
  fix go (l : list A) : M S unit :=
    match l with
    | [] => ret tt
    | x :: l' => let* _ := g x in go l'
    end.

(** [ast.Inspect(n, f)]: [f] is called on the node; if it answers true the
    children are inspected and [f(nil)] is called at the end. *)
Fixpoint Inspect {S} (f : option ast.Node -> M S bool) (n : ast.Node) : M S unit :=
  let* proceed := f (Some n) in
  if proceed : bool
  then let* _ := forM_ (Inspect f) (ast.children n) in
       let* _ := f None in ret tt
  else ret tt.

(** ** Facts and the analysis pass *)

Module facts.

Record IsDeprecated := { Msg : string }.

(** Both maps are keyed by address: of the object, of the package. *)
Record DeprecatedResult := {
  Objects : gmap positive IsDeprecated;
  Packages : gmap positive IsDeprecated
}.

(** Modelled from the spec: the type [Generator] and its value
    [ProtocGenGo], which facts/generated.go declares.  The spec describes
    the generator classification as a per-file tag naming the code
    generator that produced the file, with one value of interest, the
    output of the protocol-buffer compiler. *)
Inductive Generator := ProtocGenGo | OtherGenerator (tag : nat).

Definition Generator_eqb (g h : Generator) : bool :=
  match g, h with
  | ProtocGenGo, ProtocGenGo => true
  | OtherGenerator a, OtherGenerator b => Nat.eqb a b
  | _, _ => false
  end.

(** The method [String] of [IsDeprecated]. *)
Definition String (d : IsDeprecated) : string := "Deprecated: " +:+ Msg d.

End facts.

Module analysis.

(** [report.Report(pass, node, msg)] and [pass.Reportf(node.Pos(), msg)]:
    a diagnostic is anchored at a node. *)
Record Diagnostic := { Anchor : ast.Node; Message : string }.

(** What a pass is handed by the driver.
    - [Filename pos] is [pass.Fset.PositionFor(pos, false).Filename];
    - [GoFlag] is the integer held by the analyzer's flag ["go"], if the
      flag exists and holds one;
    - [ImportedObjectFacts] and [ImportedPackageFacts] are the facts the
      driver carries over from the dependencies of the package;
    - [ResultOfDeprecated] and [ResultOfGenerated] are
      [pass.ResultOf[facts.Deprecated]] and [pass.ResultOf[facts.Generated]]. *)
Record Pass := {
  Files : list ast.Node;
  Pkg : types.Package;
  TypesInfo : types.Info;
  Filename : Z -> string;
  GoFlag : option Z;
  ImportedObjectFacts : gmap positive facts.IsDeprecated;
  ImportedPackageFacts : gmap positive facts.IsDeprecated;
  ResultOfDeprecated : facts.DeprecatedResult;
  ResultOfGenerated : gmap string facts.Generator
}.

End analysis.

(** ** facts/deprecated.go *)

Module extractor.

Import strings.

(** The variables [names] and [docs] of [deprecated], and the calls made
    to [pass.ExportObjectFact] and [pass.ExportPackageFact], in order. *)
Record State := {
  names : list ast.Ident;
  docs : list (option ast.CommentGroup);
  objectFacts : list (types.Object * facts.IsDeprecated);
  packageFacts : list facts.IsDeprecated
}.

Definition set_names (v : list ast.Ident) (st : State) : State :=
  {| names := v; docs := docs st;
     objectFacts := objectFacts st; packageFacts := packageFacts st |}.
Definition set_docs (v : list (option ast.CommentGroup)) (st : State) : State :=
  {| names := names st; docs := v;
     objectFacts := objectFacts st; packageFacts := packageFacts st |}.
Definition append_doc (d : option ast.CommentGroup) (st : State) : State :=
  set_docs (docs st ++ [d]) st.

(** The driver refuses a nil object (it dereferences it). *)
Definition ExportObjectFact (obj : option types.Object) (fact : facts.IsDeprecated)
  : M State unit :=
  match obj with
  | None => panic "ExportObjectFact: nil object"
  | Some o =>
      modify (fun st =>
        {| names := names st; docs := docs st;
           objectFacts := objectFacts st ++ [(o, fact)];
           packageFacts := packageFacts st |})
  end.

Definition ExportPackageFact (fact : facts.IsDeprecated) : M State unit :=
  modify (fun st =>
    {| names := names st; docs := docs st;
       objectFacts := objectFacts st;
       packageFacts := packageFacts st ++ [fact] |}).

Definition marker : string := "Deprecated: ".
Definition blank_line : string := String nl (String nl EmptyString).

(** The inner loop of [extractDeprecatedMessage], over the parts of one
    comment group. *)
Fixpoint first_marked (parts : list string) : option string :=
  match parts with
  | [] => None
  | part :: rest =>
      if negb (HasPrefix part marker) then first_marked rest
      else
        let alt := drop (String.length marker) part in
        let alt := ReplaceAll alt (String nl EmptyString) (String sp EmptyString) in
        Some alt
  end.

Fixpoint extractDeprecatedMessage (docs : list (option ast.CommentGroup)) : string :=
  match docs with
  | [] => EmptyString
  | None :: rest => extractDeprecatedMessage rest
  | Some doc :: rest =>
      match first_marked (Split (ast.Text doc) blank_line) with
      | Some alt => alt
      | None => extractDeprecatedMessage rest
      end
  end.

Section pass.
Variable pass : analysis.Pass.

Definition doDocs (names : list ast.Ident) (docs : list (option ast.CommentGroup))
  : M State unit :=
  let alt := extractDeprecatedMessage docs in
  if String.eqb alt EmptyString then ret tt
  else
    forM_ (fun name =>
             let obj := types.ObjectOf (analysis.TypesInfo pass) name in
             ExportObjectFact obj {| facts.Msg := alt |})
          names.

(** The end of [fn], reached by the cases that assign [names]. *)
Definition finish (r : bool) : M State bool :=
  let* st := get_state in
  if orb (Nat.eqb (List.length (names st)) 0) (Nat.eqb (List.length (docs st)) 0)
  then ret r
  else
    let* _ := doDocs (names st) (docs st) in
    let* _ := modify (set_docs []) in
    let* _ := modify (set_names []) in
    ret r.

Definition fn (node : option ast.Node) : M State bool :=
  match node with
  | None => ret true
  | Some node =>
      match ast.kind node with
      | ast.GenDecl doc tok =>
          match tok with
          | token.TYPE | token.CONST | token.VAR =>
              let* _ := modify (append_doc doc) in ret true
          | _ => ret false
          end
      | ast.FuncDecl doc name =>
          let* _ := modify (append_doc doc) in
          let* _ := modify (set_names [name]) in
          finish false
      | ast.TypeSpec doc name =>
          let* _ := modify (append_doc doc) in
          let* _ := modify (set_names [name]) in
          finish true
      | ast.ValueSpec doc nms =>
          let* _ := modify (append_doc doc) in
          let* _ := modify (set_names nms) in
          finish false
      | ast.File _ _ => ret true
      | ast.StructType fields =>
          let* _ := forM_ (fun field => doDocs (ast.Names field) [ast.Doc field]) fields in
          ret false
      | ast.InterfaceType methods =>
          let* _ := forM_ (fun field => doDocs (ast.Names field) [ast.Doc field]) methods in
          ret false
      | _ => ret false
      end
  end.

(** The result maps are filled from [pass.AllObjectFacts()] and
    [pass.AllPackageFacts()]: the facts of the dependencies and, over
    them, the facts exported by this pass. *)
Definition AllObjectFacts (st : State) : gmap positive facts.IsDeprecated :=
  foldl (fun m '(o, fact) => <[types.obj_ptr o := fact]> m)
        (analysis.ImportedObjectFacts pass) (objectFacts st).

Definition AllPackageFacts (st : State) : gmap positive facts.IsDeprecated :=
  foldl (fun m fact => <[types.pkg_ptr (analysis.Pkg pass) := fact]> m)
        (analysis.ImportedPackageFacts pass) (packageFacts st).

Definition deprecated_body : M State facts.DeprecatedResult :=
  let* _ := forM_ (fun f => modify (append_doc (ast.FileDoc f))) (analysis.Files pass) in
  let* st := get_state in
  let alt := extractDeprecatedMessage (docs st) in
  let* _ := (if negb (String.eqb alt EmptyString)
             then ExportPackageFact {| facts.Msg := alt |} else ret tt) in
  let* _ := modify (set_docs []) in
  let* _ := forM_ (Inspect fn) (analysis.Files pass) in
  let* st := get_state in
  ret {| facts.Objects := AllObjectFacts st; facts.Packages := AllPackageFacts st |}.

Definition init : State :=
  {| names := []; docs := []; objectFacts := []; packageFacts := [] |}.

Definition deprecated : State * result facts.DeprecatedResult :=
  deprecated_body init.

End pass.

End extractor.

(** ** Packages outside the repository *)

Module knowledge.
(** An entry of the table of well-known deprecations. *)
Record Deprecation := { DeprecatedSince : Z; AlternativeAvailableSince : Z }.
End knowledge.

(** What protomigrate.go uses of the packages it imports and whose sources
    are not part of the repository: the two sentinel values and the table
    of package [knowledge], [report.Render], [strconv.Unquote]. *)
Record External := {
  DeprecatedNeverUse : Z;
  DeprecatedUseNoLonger : Z;
  StdlibDeprecations : gmap string knowledge.Deprecation;
  Render : ast.Node -> string;
  Unquote : string -> string + error
}.

(** [%d] of [fmt.Sprintf]. *)
Definition Z_to_string (z : Z) : string := NilZero.string_of_int (Z.to_int z).

(** The slice expression [s[lo:hi]], which panics out of range. *)
Definition slice (s : string) (lo hi : Z) : result string :=
  if (0 <=? lo) && (lo <=? hi) && (hi <=? Z.of_nat (String.length s))
  then Ok (String.substring (Z.to_nat lo) (Z.to_nat (hi - lo)) s)
  else Panic "slice bounds out of range".

(** ** The inspector ([golang.org/x/tools/go/ast/inspector]) *)

(** [Nodes(nil, f)]: every node of every file, depth first; [f(n, true)]
    before the children of [n] and, if it answered true, the children and
    then [f(n, false)]. *)
Fixpoint Nodes_node {S} (f : ast.Node -> bool -> M S bool) (n : ast.Node) : M S unit :=
  let* proceed := f n true in
  if proceed : bool
  then let* _ := forM_ (Nodes_node f) (ast.children n) in
       let* _ := f n false in ret tt
  else ret tt.

Definition Nodes {S} (files : list ast.Node) (f : ast.Node -> bool -> M S bool) : M S unit :=
  forM_ (Nodes_node f) files.

(** [Preorder(types, f)]: every node of every file in preorder; [f] is
    called on the nodes whose type is among [types]. *)
Fixpoint Preorder_node {S} (types : ast.Kind -> bool) (f : ast.Node -> M S unit)
  (n : ast.Node) : M S unit :=
  let* _ := (if types (ast.kind n) then f n else ret tt) in
  forM_ (Preorder_node types f) (ast.children n).

Definition Preorder {S} (files : list ast.Node) (types : ast.Kind -> bool)
  (f : ast.Node -> M S unit) : M S unit :=
  forM_ (Preorder_node types f) files.

(** ** protomigrate.go *)

Module protomigrate.

(** The variables [tfn] and [stack] of [checkDeprecated], and the
    diagnostics reported so far. *)
Record State := {
  tfn : option types.Object;
  stack : Z;
  diagnostics : list analysis.Diagnostic
}.

Definition set_tfn (v : option types.Object) (st : State) : State :=
  {| tfn := v; stack := stack st; diagnostics := diagnostics st |}.
Definition set_stack (v : Z) (st : State) : State :=
  {| tfn := tfn st; stack := v; diagnostics := diagnostics st |}.

Definition Report (node : ast.Node) (msg : string) : M State unit :=
  modify (fun st =>
    {| tfn := tfn st; stack := stack st;
       diagnostics := diagnostics st
                        ++ [{| analysis.Anchor := node; analysis.Message := msg |}] |}).

Definition init : State := {| tfn := None; stack := 0; diagnostics := [] |}.

Definition proto_path : string := "github.com/golang/protobuf/proto".

Section pass.
Variable ext : External.
Variable pass : analysis.Pass.

Let info := analysis.TypesInfo pass.
Let deprs := analysis.ResultOfDeprecated pass.

(** [Generator] answers [(g, ok)]: [Some g] when [ok], [None] otherwise. *)
Definition Generator (pos : Z) : option facts.Generator :=
  let file := analysis.Filename pass pos in
  analysis.ResultOfGenerated pass !! file.

Definition IsGoVersion (minor : Z) : result bool :=
  match analysis.GoFlag pass with
  | None => Panic "requested Go version, but analyzer has no version flag"
  | Some version => Ok (version >=? minor)
  end.

Definition SelectorName (X : option ast.Ident) (Sel : ast.Ident) : result string :=
  match types.Selections info (X, Sel) with
  | None =>
      match X with
      | Some x =>
          match types.ObjectOf info x ≫= types.Imported with
          | None => Ok (ast.Name x +:+ "." +:+ ast.Name Sel)
          | Some imported => Ok (types.Path imported +:+ "." +:+ ast.Name Sel)
          end
      | None => Panic "unsupported selector"
      end
  | Some sel =>
      Ok ("(" +:+ types.Recv sel +:+ ")." +:+ types.Name (types.Obj sel))
  end.

(** Lines 215-246 of [checkDeprecated]: [Ok false] stands for the early
    [return true] that leaves the selector unreported. *)
Definition versionGate (std : option knowledge.Deprecation) : result bool :=
  match std with
  | None => Ok true
  | Some std =>
      let since := knowledge.AlternativeAvailableSince std in
      let switch :=
        if since =? DeprecatedNeverUse ext then Ok true
        else if since =? DeprecatedUseNoLonger ext
        then IsGoVersion (knowledge.DeprecatedSince std)
        else if since <? 0
        then Panic ("unhandled case " +:+ Z_to_string since)
        else IsGoVersion since in
      match switch with
      | Ok true => IsGoVersion since
      | r => r
      end
  end.

(** Lines 256-266: the text of the diagnostic. *)
Definition message (node : ast.Node) (std : option knowledge.Deprecation)
  (depr : facts.IsDeprecated) : string :=
  match std with
  | Some std =>
      let since := knowledge.AlternativeAvailableSince std in
      let deprecated := knowledge.DeprecatedSince std in
      if since =? DeprecatedNeverUse ext
      then Render ext node +:+ " has been deprecated since Go 1."
             +:+ Z_to_string deprecated
             +:+ " because it shouldn't be used: " +:+ facts.Msg depr
      else if (since =? deprecated) || (since =? DeprecatedUseNoLonger ext)
      then Render ext node +:+ " has been deprecated since Go 1."
             +:+ Z_to_string deprecated +:+ ": " +:+ facts.Msg depr
      else Render ext node +:+ " has been deprecated since Go 1."
             +:+ Z_to_string deprecated
             +:+ " and an alternative has been available since Go 1."
             +:+ Z_to_string since +:+ ": " +:+ facts.Msg depr
  | None => Render ext node +:+ " is deprecated: " +:+ facts.Msg depr
  end.

(** [pass.Pkg == obj.Pkg() || obj.Pkg().Path()+"_test" == pass.Pkg.Path()] *)
Definition own_package (p : types.Package) : bool :=
  Pos.eqb (types.pkg_ptr (analysis.Pkg pass)) (types.pkg_ptr p)
  || String.eqb (types.Path p +:+ "_test") (types.Path (analysis.Pkg pass)).

(** [tfn != nil] and [deprs.Objects[tfn]] is present. *)
Definition tfn_deprecated (st : State) : bool :=
  match tfn st with
  | Some f => bool_decide (is_Some (facts.Objects deprs !! types.obj_ptr f))
  | None => false
  end.

(** Lines 205-269: what [fn] does on a selector expression. *)
Definition selector (node : ast.Node) (X : option ast.Ident) (Sel : ast.Ident)
  : M State bool :=
  match types.ObjectOf info Sel with
  | None => panic "invalid memory address or nil pointer dereference"
  | Some obj =>
      match types.Pkg obj with
      | None => ret true
      | Some pkg =>
          if own_package pkg then ret true
          else
            match facts.Objects deprs !! types.obj_ptr obj with
            | Some depr =>
                let* name := lift (SelectorName X Sel) in
                let std := StdlibDeprecations ext !! name in
                let* eligible := lift (versionGate std) in
                if negb eligible then ret true
                else
                  let* st := get_state in
                  if tfn_deprecated st then ret true
                  else
                    let* _ := Report node (message node std depr) in
                    ret true
            | None => ret true
            end
      end
  end.

Definition fn (node : ast.Node) (push : bool) : M State bool :=
  if negb push
  then let* _ := modify (fun st => set_stack (stack st - 1) st) in ret false
  else
    let* _ := modify (fun st => set_stack (stack st + 1) st) in
    let* st := get_state in
    let* _ := (if stack st =? 1 then modify (set_tfn None) else ret tt) in
    let* _ := (match ast.kind node with
               | ast.FuncDecl _ name => modify (set_tfn (types.ObjectOf info name))
               | _ => ret tt
               end) in
    match ast.kind node with
    | ast.SelectorExpr X Sel => selector node X Sel
    | _ => ret true
    end.

(** The type assertion to [PkgName] followed by [Imported()], on the
    object of an import. *)
Definition imported_package (o : option types.Object) : result types.Package :=
  match o ≫= types.Imported with
  | Some p => Ok p
  | None => Panic "interface conversion: not a *types.PkgName"
  end.

Definition fn2 (node : ast.Node) : M State unit :=
  match ast.kind node with
  | ast.ImportSpecNode spec =>
      let* imp := lift (match ast.ImportName spec with
                        | Some name => imported_package (types.ObjectOf info name)
                        | None => imported_package (types.Implicits info spec)
                        end) in
      let p := ast.Value (ast.Path spec) in
      let* path := lift (slice p 1 (Z.of_nat (String.length p) - 1)) in
      match facts.Packages deprs !! types.pkg_ptr imp with
      | Some depr =>
          let exempt :=
            if String.eqb path proto_path
            then match Generator (ast.ValuePos (ast.Path spec)) with
                 | Some gen => facts.Generator_eqb gen facts.ProtocGenGo
                 | None => false
                 end
            else false in
          if exempt then ret tt
          else Report node ("package " +:+ path +:+ " is deprecated: "
                              +:+ facts.Msg depr)
      | None => ret tt
      end
  | _ => panic "interface conversion: not an *ast.ImportSpec"
  end.

Definition isImportSpec (k : ast.Kind) : bool :=
  match k with ast.ImportSpecNode _ => true | _ => false end.

(** [checkDeprecated] always ends in [return nil, nil]. *)
Definition checkDeprecated_body : M State unit :=
  let* _ := Nodes (analysis.Files pass) fn in
  let* _ := Preorder (analysis.Files pass) isImportSpec fn2 in
  ret tt.

Definition checkDeprecated : State * result unit := checkDeprecated_body init.

(** The node types listed in [nodeFilter] of [run].  On nodes that are
    not identifiers the callback only prints, so the nodes gathered
    under [OtherNode] are passed to it without loss. *)
Definition nodeFilter (k : ast.Kind) : bool :=
  match k with
  | ast.FuncDecl _ _ | ast.GenDecl _ _ | ast.IdentNode _
  | ast.ImportSpecNode _ | ast.SelectorExpr _ _ | ast.ValueSpec _ _
  | ast.OtherNode => true
  | _ => false
  end.

(** [run]; what it writes to the standard output is left out. *)
Definition run_body : M State unit :=
  let* _ := forM_ (fun file =>
              forM_ (fun imp =>
                       match Unquote ext (ast.Value (ast.Path imp)) with
                       | inr err => lift (Err err)
                       | inl _ => ret tt
                       end)
                    (ast.FileImports file))
              (analysis.Files pass) in
  let* _ := Preorder (analysis.Files pass) nodeFilter
              (fun n =>
                 match ast.kind n with
                 | ast.IdentNode id =>
                     if String.eqb (ast.Name id) "gopher"
                     then Report n "identifier is gopher"
                     else ret tt
                 | _ => ret tt
                 end) in
  ret tt.

Definition run : State * result unit := run_body init.

End pass.

End protomigrate.

(** * Reference definitions

    The definitions below do not come from the sources.  They say, in the
    words of the design, what the theorems compare the code with. *)

(** Newlines turned into spaces, byte by byte. *)
Fixpoint newlines_to_spaces (s : string) : string :=
  match s with
  | EmptyString => EmptyString
  | String c s' =>
      String (if Ascii.eqb c strings.nl then strings.sp else c) (newlines_to_spaces s')
  end.

(** A paragraph that does not begin with the marker, and a comment group
    without a paragraph that does. *)
Definition unmarked (part : string) : Prop :=
  strings.HasPrefix part extractor.marker = false.

Definition no_marker (doc : option ast.CommentGroup) : Prop :=
  match doc with
  | None => True
  | Some doc => Forall unmarked (strings.Split (ast.Text doc) extractor.blank_line)
  end.

(** Every fact exported so far carries a message. *)
Definition nonempty_facts (st : extractor.State) : Prop :=
  Forall (fun '(_, fact) => facts.Msg fact <> EmptyString) (extractor.objectFacts st)
  /\ Forall (fun fact => facts.Msg fact <> EmptyString) (extractor.packageFacts st).

(** A computation keeps a property of the state, whether it ends well or
    not. *)
Definition preserves {S A} (I : S -> Prop) (m : M S A) : Prop :=
  forall st, I st -> I (fst (m st)).

(** The nodes of a tree, in the order of a depth-first walk. *)
Fixpoint walk_order (n : ast.Node) : list ast.Node :=
  n :: flat_map walk_order (ast.children n).

(** Function declarations and files occur at the top of a Go syntax tree
    only: never below a declaration. *)
Definition below_declaration (n : ast.Node) : Prop :=
  Forall (fun m => match ast.kind m with
                   | ast.FuncDecl _ _ | ast.File _ _ => False
                   | _ => True
                   end) (walk_order n).

(** The three-way policy of an entry of the table of known deprecations. *)
Inductive Policy := NeverUse | UseNoLonger | SinceVersion (v : Z).

Record KnownDeprecation := { deprecatedSinceVersion : Z; policy : Policy }.

Definition known (ext : External) (std : knowledge.Deprecation) : KnownDeprecation :=
  let since := knowledge.AlternativeAvailableSince std in
  {| deprecatedSinceVersion := knowledge.DeprecatedSince std;
     policy := if since =? DeprecatedNeverUse ext then NeverUse
               else if since =? DeprecatedUseNoLonger ext then UseNoLonger
               else SinceVersion since |}.

(** Eligibility to report under a target version; no entry, no gating. *)
Definition eligible (entry : option KnownDeprecation) (target : Z) : bool :=
  match entry with
  | None => true
  | Some e =>
      match policy e with
      | NeverUse => true
      | UseNoLonger => deprecatedSinceVersion e <=? target
      | SinceVersion v => v <=? target
      end
  end.

(** The sentinels of package [knowledge] are negative, and an entry of the
    table holds a sentinel or a version. *)
Definition sentinels (ext : External) : Prop :=
  DeprecatedNeverUse ext < 0 /\ DeprecatedUseNoLonger ext < 0.

Definition well_formed_entry (ext : External) (entry : option knowledge.Deprecation) : Prop :=
  match entry with
  | None => True
  | Some std =>
      match policy (known ext std) with
      | SinceVersion v => 0 <= v
      | _ => True
      end
  end.

(** What a selector expression would be reported with, were it not for the
    function it stands in: [Ok None] when it is not to be reported,
    [Ok (Some msg)] when it is eligible. *)
Definition reportable (ext : External) (pass : analysis.Pass) (node : ast.Node)
  : result (option string) :=
  match ast.kind node with
  | ast.SelectorExpr X Sel =>
      match types.ObjectOf (analysis.TypesInfo pass) Sel with
      | None => Panic "invalid memory address or nil pointer dereference"
      | Some obj =>
          match types.Pkg obj with
          | None => Ok None
          | Some pkg =>
              if protomigrate.own_package pass pkg then Ok None
              else
                match facts.Objects (analysis.ResultOfDeprecated pass) !! types.obj_ptr obj with
                | None => Ok None
                | Some depr =>
                    match protomigrate.SelectorName pass X Sel with
                    | Ok name =>
                        let std := StdlibDeprecations ext !! name in
                        match protomigrate.versionGate ext pass std with
                        | Ok true => Ok (Some (protomigrate.message ext node std depr))
                        | Ok false => Ok None
                        | Err e => Err e
                        | Panic msg => Panic msg
                        end
                    | Err e => Err e
                    | Panic msg => Panic msg
                    end
                end
          end
      end
  | _ => Ok None
  end.

Definition is_Ok {A} (r : result A) : Prop :=
  match r with Ok _ => True | _ => False end.

(** The diagnostics a walk reports below a function that is not itself
    deprecated: one for each eligible selector expression, in order. *)
Definition expected (ext : External) (pass : analysis.Pass) (nodes : list ast.Node)
  : list analysis.Diagnostic :=
  flat_map (fun n => match reportable ext pass n with
                     | Ok (Some msg) => [{| analysis.Anchor := n; analysis.Message := msg |}]
                     | _ => []
                     end) nodes.

(** The facts [doDocs] is to export for the names of a declaration whose
    comment groups are [docs]. *)
Definition facts_of (pass : analysis.Pass) (names : list ast.Ident)
  (docs : list (option ast.CommentGroup)) : list (types.Object * facts.IsDeprecated) :=
  let alt := extractor.extractDeprecatedMessage docs in
  if String.eqb alt EmptyString then []
  else (fun o => (o, {| facts.Msg := alt |}))
         <$> omap (types.ObjectOf (analysis.TypesInfo pass)) names.

Definition resolved (pass : analysis.Pass) (names : list ast.Ident) : Prop :=
  Forall (fun name => is_Some (types.ObjectOf (analysis.TypesInfo pass) name)) names.

Definition add_facts (l : list (types.Object * facts.IsDeprecated))
  (st : extractor.State) : extractor.State :=
  {| extractor.names := extractor.names st; extractor.docs := extractor.docs st;
     extractor.objectFacts := extractor.objectFacts st ++ l;
     extractor.packageFacts := extractor.packageFacts st |}.

(** Nodes on which [fn] of the extractor answers false without touching
    [docs] and [names]. *)
Definition closed_for_extractor (n : ast.Node) : Prop :=
  match ast.kind n with
  | ast.File _ _ | ast.GenDecl _ _ | ast.FuncDecl _ _
  | ast.TypeSpec _ _ | ast.ValueSpec _ _ => False
  | _ => True
  end.

(** Nodes the extractor passes over: neither a declaration nor a struct or
    interface type. *)
Definition inert (n : ast.Node) : Prop :=
  match ast.kind n with
  | ast.SelectorExpr _ _ | ast.ImportSpecNode _ | ast.IdentNode _ | ast.OtherNode => True
  | _ => False
  end.

(** One spec of a grouped declaration, checked against the comment groups
    [buffer] followed by its own: the names are marked if the marker is
    found, the buffer is emptied, and the type of a type spec is visited. *)
Definition check_spec (pass : analysis.Pass) (buffer : list (option ast.CommentGroup))
  (spec : ast.Node) : M extractor.State unit :=
  match ast.kind spec with
  | ast.ValueSpec doc names =>
      let* _ := modify (extractor.set_docs (buffer ++ [doc])) in
      let* _ := modify (extractor.set_names names) in
      let* _ := extractor.doDocs pass names (buffer ++ [doc]) in
      let* _ := modify (extractor.set_docs []) in
      modify (extractor.set_names [])
  | ast.TypeSpec doc name =>
      let* _ := modify (extractor.set_docs (buffer ++ [doc])) in
      let* _ := modify (extractor.set_names [name]) in
      let* _ := extractor.doDocs pass [name] (buffer ++ [doc]) in
      let* _ := modify (extractor.set_docs []) in
      let* _ := modify (extractor.set_names []) in
      forM_ (Inspect (extractor.fn pass)) (ast.children spec)
  | _ => ret tt
  end.

(** A grouped declaration, spec by spec: the comment of the group counts
    for the first spec only. *)
Definition group_by_spec (pass : analysis.Pass) (gdoc : option ast.CommentGroup)
  (first : ast.Node) (others : list ast.Node) : M extractor.State unit :=
  fun st =>
    (let* _ := check_spec pass (extractor.docs st ++ [gdoc]) first in
     forM_ (check_spec pass []) others) st.

(** A spec as the parser builds it: a value spec binds at least one name,
    and nothing below a type spec is itself a declaration. *)
Definition is_spec (n : ast.Node) : Prop :=
  match ast.kind n with
  | ast.ValueSpec _ names => names <> []
  | ast.TypeSpec _ _ => Forall closed_for_extractor (ast.children n)
  | _ => False
  end.

(** A value spec whose names are resolved, and the facts it is given when
    it is read with the comment groups [buffer] followed by its own. *)
Definition value_spec (pass : analysis.Pass) (n : ast.Node) : Prop :=
  match ast.kind n with
  | ast.ValueSpec _ names => names <> [] /\ resolved pass names
  | _ => False
  end.

Definition spec_facts (pass : analysis.Pass) (buffer : list (option ast.CommentGroup))
  (n : ast.Node) : list (types.Object * facts.IsDeprecated) :=
  match ast.kind n with
  | ast.ValueSpec doc names => facts_of pass names (buffer ++ [doc])
  | _ => []
  end.

(** The state in which [fn] looks at a node it enters. *)
Definition entered (pass : analysis.Pass) (node : ast.Node) (st : protomigrate.State)
  : protomigrate.State :=
  {| protomigrate.tfn :=
       match ast.kind node with
       | ast.FuncDecl _ name => types.ObjectOf (analysis.TypesInfo pass) name
       | _ => if protomigrate.stack st + 1 =? 1 then None else protomigrate.tfn st
       end;
     protomigrate.stack := protomigrate.stack st + 1;
     protomigrate.diagnostics := protomigrate.diagnostics st |}.

(** A selector expression that resolves into the package under analysis
    or, from its test package, into the package under test. *)
Definition resolves_within (pass : analysis.Pass) (m : ast.Node) : Prop :=
  match ast.kind m with
  | ast.SelectorExpr _ Sel =>
      exists obj pkg,
        types.ObjectOf (analysis.TypesInfo pass) Sel = Some obj
        /\ types.Pkg obj = Some pkg
        /\ (types.pkg_ptr pkg = types.pkg_ptr (analysis.Pkg pass)
            \/ types.Path pkg +:+ "_test" = types.Path (analysis.Pkg pass))
  | _ => True
  end.

(** A check that reads no state: it passes, or fails with an error, the
    same from every state. *)
Definition stateless_check {S} (m : M S unit) : Prop :=
  (forall st, m st = (st, Ok tt)) \/ (exists e, forall st, m st = (st, Err e)).

(** A computation that never returns an error (it may panic). *)
Definition never_errs {S A} (m : M S A) : Prop :=
  forall st e, snd (m st) <> Err e.

(** * Further reference definitions *)

(** A string without a newline. *)
Definition single_line (s : string) : Prop :=
  Forall (fun c => c <> strings.nl) (list_ascii_of_string s).

(** Every fact exported so far carries a message that [P] holds of. *)
Definition facts_satisfy (P : string -> Prop) (st : extractor.State) : Prop :=
  Forall (fun '(_, fact) => P (facts.Msg fact)) (extractor.objectFacts st)
  /\ Forall (fun fact => P (facts.Msg fact)) (extractor.packageFacts st).

(** The kinds of node on which [fn] of the extractor answers false: all
    but files, type specs and the general declarations of types,
    constants and variables. *)
Definition opaque_for_extractor (k : ast.Kind) : Prop :=
  match k with
  | ast.File _ _ | ast.TypeSpec _ _ => False
  | ast.GenDecl _ tok => tok = token.IMPORT
  | _ => True
  end.

(** The comment groups the extractor reads at a node. *)
Definition docs_at (n : ast.Node) : list (option ast.CommentGroup) :=
  match ast.kind n with
  | ast.File doc _ | ast.GenDecl doc _ | ast.FuncDecl doc _
  | ast.TypeSpec doc _ | ast.ValueSpec doc _ => [doc]
  | ast.StructType fields | ast.InterfaceType fields => ast.Doc <$> fields
  | _ => []
  end.

(** A tree none of whose comment groups has a marked paragraph. *)
Definition unmarked_tree (n : ast.Node) : Prop :=
  Forall (fun m => Forall no_marker (docs_at m)) (walk_order n).

(** The state of the extractor is as it was at the start, but for the
    comment groups gathered, none of which is marked. *)
Definition nothing_exported (st : extractor.State) : Prop :=
  extractor.names st = [] /\ Forall no_marker (extractor.docs st)
  /\ extractor.objectFacts st = [] /\ extractor.packageFacts st = [].

(** The message of the package: the one found in the doc comments of the
    files, taken in order. *)
Definition package_message (pass : analysis.Pass) : string :=
  extractor.extractDeprecatedMessage (ast.FileDoc <$> analysis.Files pass).

(** The names the extractor may export a fact for at a node. *)
Definition declared_names (n : ast.Node) : list ast.Ident :=
  match ast.kind n with
  | ast.FuncDecl _ name | ast.TypeSpec _ name => [name]
  | ast.ValueSpec _ names => names
  | ast.StructType fields | ast.InterfaceType fields => flat_map ast.Names fields
  | _ => []
  end.

(** A tree all of whose declared names have an object. *)
Definition resolved_tree (pass : analysis.Pass) (n : ast.Node) : Prop :=
  Forall (fun m => resolved pass (declared_names m)) (walk_order n).

(** The state with the diagnostics [l] reported. *)
Definition reported (l : list analysis.Diagnostic) (st : protomigrate.State)
  : protomigrate.State :=
  {| protomigrate.tfn := protomigrate.tfn st;
     protomigrate.stack := protomigrate.stack st;
     protomigrate.diagnostics := (protomigrate.diagnostics st ++ l)%list |}.

(** A computation reports diagnostics that satisfy [R] and leaves those
    reported before as they are, whether it ends well or not. *)
Definition grows {A} (R : analysis.Diagnostic -> Prop) (m : M protomigrate.State A)
  : Prop :=
  forall st, exists extra,
    protomigrate.diagnostics (fst (m st)) = (protomigrate.diagnostics st ++ extra)%list
    /\ Forall R extra.

(** A diagnostic on the use of a deprecated object: it is anchored at a
    selector expression whose object belongs to another package and
    carries a fact, the version gate lets it pass, and its text is the one
    of lines 256-266. *)
Definition selector_report (ext : External) (pass : analysis.Pass)
  (d : analysis.Diagnostic) : Prop :=
  exists X Sel obj pkg depr name,
    ast.kind (analysis.Anchor d) = ast.SelectorExpr X Sel
    /\ types.ObjectOf (analysis.TypesInfo pass) Sel = Some obj
    /\ types.Pkg obj = Some pkg
    /\ protomigrate.own_package pass pkg = false
    /\ facts.Objects (analysis.ResultOfDeprecated pass) !! types.obj_ptr obj = Some depr
    /\ protomigrate.SelectorName pass X Sel = Ok name
    /\ protomigrate.versionGate ext pass (StdlibDeprecations ext !! name) = Ok true
    /\ analysis.Message d
       = protomigrate.message ext (analysis.Anchor d) (StdlibDeprecations ext !! name) depr.

(** The object of an import: of its name, or the implicit one. *)
Definition import_object (pass : analysis.Pass) (spec : ast.ImportSpec)
  : option types.Object :=
  match ast.ImportName spec with
  | Some name => types.ObjectOf (analysis.TypesInfo pass) name
  | None => types.Implicits (analysis.TypesInfo pass) spec
  end.

(** A diagnostic on the import of a deprecated package: it is anchored at
    an import whose package carries a fact, and its text names the path
    written between the delimiters of the literal. *)
Definition import_report (pass : analysis.Pass) (d : analysis.Diagnostic) : Prop :=
  exists spec imp depr path,
    ast.kind (analysis.Anchor d) = ast.ImportSpecNode spec
    /\ import_object pass spec ≫= types.Imported = Some imp
    /\ slice (ast.Value (ast.Path spec)) 1
         (Z.of_nat (String.length (ast.Value (ast.Path spec))) - 1) = Ok path
    /\ facts.Packages (analysis.ResultOfDeprecated pass) !! types.pkg_ptr imp = Some depr
    /\ analysis.Message d
       = "package " +:+ path +:+ " is deprecated: " +:+ facts.Msg depr.

(** What [run] reports on a list of nodes: one diagnostic for each
    identifier named [gopher]. *)
Definition gophers (nodes : list ast.Node) : list analysis.Diagnostic :=
  flat_map (fun n => match ast.kind n with
                     | ast.IdentNode id =>
                         if String.eqb (ast.Name id) "gopher"
                         then [{| analysis.Anchor := n;
                                  analysis.Message := "identifier is gopher" |}]
                         else []
                     | _ => []
                     end) nodes.

(** The literal of each of the imports [imps] is one that
    [strconv.Unquote] accepts. *)
Definition unquotes (ext : External) (imps : list ast.ImportSpec) : Prop :=
  Forall (fun imp => exists s, Unquote ext (ast.Value (ast.Path imp)) = inl s) imps.

(** * A sample package

    A small package [example.com/app] that imports [example.com/dep] and the
    legacy protocol-buffer runtime, used to run the passes on. *)

Module sample.

Definition dq : ascii := ascii_of_nat 34.
Definition quoted (s : string) : string := String dq (s +:+ String dq EmptyString).
Definition paragraphs (a b : string) : string :=
  a +:+ String strings.nl (String strings.nl b).

Definition app : types.Package := {| types.pkg_ptr := 1; types.Path := "example.com/app" |}.
Definition dep : types.Package := {| types.pkg_ptr := 2; types.Path := "example.com/dep" |}.
Definition proto : types.Package :=
  {| types.pkg_ptr := 3; types.Path := protomigrate.proto_path |}.

Definition id_Old : ast.Ident := {| ast.NamePos := 10; ast.Name := "Old" |}.
Definition id_New : ast.Ident := {| ast.NamePos := 11; ast.Name := "New" |}.
Definition id_T : ast.Ident := {| ast.NamePos := 12; ast.Name := "T" |}.
Definition id_F : ast.Ident := {| ast.NamePos := 13; ast.Name := "F" |}.
Definition id_A : ast.Ident := {| ast.NamePos := 14; ast.Name := "A" |}.
Definition id_B : ast.Ident := {| ast.NamePos := 15; ast.Name := "B" |}.
Definition id_blank : ast.Ident := {| ast.NamePos := 16; ast.Name := "_" |}.
Definition id_dep : ast.Ident := {| ast.NamePos := 20; ast.Name := "dep" |}.
Definition id_Sym : ast.Ident := {| ast.NamePos := 21; ast.Name := "Sym" |}.
Definition id_app : ast.Ident := {| ast.NamePos := 22; ast.Name := "app" |}.

Definition object (ptr : positive) (name : string) (pkg : types.Package) : types.Object :=
  {| types.obj_ptr := ptr; types.Name := name; types.Pkg := Some pkg;
     types.Imported := None |}.
Definition pkgname (ptr : positive) (name : string) (imported : types.Package)
  : types.Object :=
  {| types.obj_ptr := ptr; types.Name := name; types.Pkg := Some app;
     types.Imported := Some imported |}.

Definition obj_Old := object 100 "Old" app.
Definition obj_New := object 101 "New" app.
Definition obj_T := object 102 "T" app.
Definition obj_F := object 103 "F" app.
Definition obj_A := object 104 "A" app.
Definition obj_B := object 105 "B" app.
Definition obj_blank := object 106 "_" app.
Definition obj_Sym := object 200 "Sym" dep.
Definition obj_dep := pkgname 300 "dep" dep.
Definition obj_proto := pkgname 301 "proto" proto.

Definition import_dep : ast.ImportSpec :=
  {| ast.ImportName := None;
     ast.Path := {| ast.ValuePos := 30; ast.Value := quoted "example.com/dep" |} |}.
Definition import_proto : ast.ImportSpec :=
  {| ast.ImportName := None;
     ast.Path := {| ast.ValuePos := 31; ast.Value := quoted protomigrate.proto_path |} |}.
(** The same import in a file written by the protocol-buffer compiler. *)
Definition import_proto_generated : ast.ImportSpec :=
  {| ast.ImportName := None;
     ast.Path := {| ast.ValuePos := 1031; ast.Value := quoted protomigrate.proto_path |} |}.
(** An import whose literal lacks the closing quote. *)
Definition import_malformed : ast.ImportSpec :=
  {| ast.ImportName := None;
     ast.Path := {| ast.ValuePos := 32;
                    ast.Value := String dq "example.com/dep" |} |}.

Definition info : types.Info :=
  {| types.ObjectOf := fun id =>
       match ast.NamePos id with
       | 10 => Some obj_Old | 11 => Some obj_New | 12 => Some obj_T
       | 13 => Some obj_F | 14 => Some obj_A | 15 => Some obj_B
       | 16 => Some obj_blank
       | 20 => Some obj_dep | 21 => Some obj_Sym
       | _ => None
       end;
     types.Selections := fun _ => None;
     types.Implicits := fun spec =>
       match ast.ValuePos (ast.Path spec) with
       | 30 | 32 => Some obj_dep
       | 31 | 1031 => Some obj_proto
       | _ => None
       end |}.

Definition leaf (k : ast.Kind) : ast.Node := ast.mkNode k [].

(** [dep.Sym] *)
Definition dep_Sym : ast.Node :=
  ast.mkNode (ast.SelectorExpr (Some id_dep) id_Sym)
    [leaf (ast.IdentNode id_dep); leaf (ast.IdentNode id_Sym)].
(** [app.Old], written in the test package of [example.com/app]. *)
Definition app_Old : ast.Node :=
  ast.mkNode (ast.SelectorExpr (Some id_app) id_Old)
    [leaf (ast.IdentNode id_app); leaf (ast.IdentNode id_Old)].

Definition doc_Old : ast.CommentGroup :=
  {| ast.Text := paragraphs "Old does X." "Deprecated: use New." |}.
Definition doc_Foo : ast.CommentGroup :=
  {| ast.Text := paragraphs "Foo does X." "Deprecated: use Bar instead." |}.
Definition doc_plain : ast.CommentGroup := {| ast.Text := "T holds the settings." |}.
Definition doc_group : ast.CommentGroup := {| ast.Text := "Deprecated: use the flags." |}.
Definition doc_bare : ast.CommentGroup :=
  {| ast.Text := paragraphs "Deprecated: " "Deprecated: use New." |}.
(** The marker in lower case, and without its space. *)
Definition doc_lower : ast.CommentGroup :=
  {| ast.Text := paragraphs "Foo does X." "deprecated: use Bar instead." |}.
Definition doc_tight : ast.CommentGroup :=
  {| ast.Text := paragraphs "Foo does X." "Deprecated:use Bar instead." |}.

(** [func Old() { _ = dep.Sym }], with the doc comment [doc_Old]. *)
Definition func_Old : ast.Node :=
  ast.mkNode (ast.FuncDecl (Some doc_Old) id_Old)
    [leaf (ast.IdentNode id_Old); ast.mkNode ast.OtherNode [ast.mkNode ast.OtherNode [dep_Sym]]].
(** [func New() { _ = dep.Sym }], without doc comment. *)
Definition func_New : ast.Node :=
  ast.mkNode (ast.FuncDecl None id_New)
    [leaf (ast.IdentNode id_New); ast.mkNode ast.OtherNode [ast.mkNode ast.OtherNode [dep_Sym]]].
(** [var _ = dep.Sym] *)
Definition var_Sym : ast.Node :=
  ast.mkNode (ast.GenDecl None token.VAR)
    [ast.mkNode (ast.ValueSpec None [id_blank]) [leaf (ast.IdentNode id_blank); dep_Sym]].
(** [type T struct { F int }]: the type documented by [doc_plain], the
    field by [doc_Foo]. *)
Definition struct_fields : list ast.Field :=
  [{| ast.Doc := Some doc_Foo; ast.Names := [id_F] |}].
Definition type_T : ast.Node :=
  ast.mkNode (ast.GenDecl (Some doc_plain) token.TYPE)
    [ast.mkNode (ast.TypeSpec None id_T)
       [leaf (ast.IdentNode id_T); ast.mkNode (ast.StructType struct_fields) []]].
(** [var ( A = 1; B = 2 )] under the group comment [doc_group]. *)
Definition spec_A : ast.Node := ast.mkNode (ast.ValueSpec None [id_A]) [leaf (ast.IdentNode id_A)].
Definition spec_B : ast.Node := ast.mkNode (ast.ValueSpec None [id_B]) [leaf (ast.IdentNode id_B)].
Definition var_group : ast.Node :=
  ast.mkNode (ast.GenDecl (Some doc_group) token.VAR) [spec_A; spec_B].

Definition imports (l : list ast.ImportSpec) : ast.Node :=
  ast.mkNode (ast.GenDecl None token.IMPORT) (leaf ∘ ast.ImportSpecNode <$> l).
Definition file (l : list ast.ImportSpec) (decls : list ast.Node) : ast.Node :=
  ast.mkNode (ast.File None l) (imports l :: decls).

(** A deprecated function followed by a package-level variable. *)
Definition file_func_then_var : ast.Node := file [import_dep] [func_Old; var_Sym].
(** The same declarations, the variable first. *)
Definition file_var_then_func : ast.Node := file [import_dep] [var_Sym; func_Old].

Definition ext : External :=
  {| DeprecatedNeverUse := -1;
     DeprecatedUseNoLonger := -2;
     StdlibDeprecations :=
       {[ "example.com/std.Legacy" :=
            {| knowledge.DeprecatedSince := 6; knowledge.AlternativeAvailableSince := 3 |} ]};
     Render := fun n =>
       match ast.kind n with
       | ast.SelectorExpr (Some x) sel => ast.Name x +:+ "." +:+ ast.Name sel
       | _ => "expr"
       end;
     Unquote := fun s =>
       match slice s 1 (Z.of_nat (String.length s) - 1) with
       | Ok inner =>
           if String.eqb s (quoted inner) then inl inner else inr "invalid syntax"
       | _ => inr "invalid syntax"
       end |}.

(** The pass over [files] before the facts of the package are known, and
    with them: the result of [facts.Deprecated] is the one computed by
    [extractor.deprecated]. *)
Definition bare_pass (files : list ast.Node) : analysis.Pass :=
  {| analysis.Files := files;
     analysis.Pkg := app;
     analysis.TypesInfo := info;
     analysis.Filename := fun pos => if pos <? 1000 then "main.go" else "api.pb.go";
     analysis.GoFlag := Some 4;
     analysis.ImportedObjectFacts := {[ 200%positive := {| facts.Msg := "use Other." |} ]};
     analysis.ImportedPackageFacts :=
       {[ 3%positive := {| facts.Msg := "use google.golang.org/protobuf." |} ]};
     analysis.ResultOfDeprecated := {| facts.Objects := ∅; facts.Packages := ∅ |};
     analysis.ResultOfGenerated := {[ "api.pb.go" := facts.ProtocGenGo ]} |}.

Definition pass (files : list ast.Node) : analysis.Pass :=
  let p := bare_pass files in
  {| analysis.Files := files;
     analysis.Pkg := analysis.Pkg p;
     analysis.TypesInfo := analysis.TypesInfo p;
     analysis.Filename := analysis.Filename p;
     analysis.GoFlag := analysis.GoFlag p;
     analysis.ImportedObjectFacts := analysis.ImportedObjectFacts p;
     analysis.ImportedPackageFacts := analysis.ImportedPackageFacts p;
     analysis.ResultOfDeprecated :=
       match extractor.deprecated p with
       | (_, Ok out) => out
       | _ => analysis.ResultOfDeprecated p
       end;
     analysis.ResultOfGenerated := analysis.ResultOfGenerated p |}.

(** The same pass with a target version of 2. *)
Definition older_pass (files : list ast.Node) : analysis.Pass :=
  let p := pass files in
  {| analysis.Files := analysis.Files p;
     analysis.Pkg := analysis.Pkg p;
     analysis.TypesInfo := analysis.TypesInfo p;
     analysis.Filename := analysis.Filename p;
     analysis.GoFlag := Some 2;
     analysis.ImportedObjectFacts := analysis.ImportedObjectFacts p;
     analysis.ImportedPackageFacts := analysis.ImportedPackageFacts p;
     analysis.ResultOfDeprecated := analysis.ResultOfDeprecated p;
     analysis.ResultOfGenerated := analysis.ResultOfGenerated p |}.

(** The entry of the scenario: deprecated in version 6, an alternative
    available since version 3. *)
Definition entry_6_3 : knowledge.Deprecation :=
  {| knowledge.DeprecatedSince := 6; knowledge.AlternativeAvailableSince := 3 |}.

(** The test package of [example.com/app], where [Old] is known to be
    deprecated. *)
Definition test_pass : analysis.Pass :=
  {| analysis.Files := [];
     analysis.Pkg := {| types.pkg_ptr := 9; types.Path := "example.com/app_test" |};
     analysis.TypesInfo := info;
     analysis.Filename := fun _ => "main_test.go";
     analysis.GoFlag := None;
     analysis.ImportedObjectFacts := ∅;
     analysis.ImportedPackageFacts := ∅;
     analysis.ResultOfDeprecated :=
       {| facts.Objects := {[ 100%positive := {| facts.Msg := "use New." |} ]};
          facts.Packages := ∅ |};
     analysis.ResultOfGenerated := ∅ |}.

(** [func a() { var gopher int; print(gopher) }], as in the test data of
    package [a]. *)
Definition id_a : ast.Ident := {| ast.NamePos := 40; ast.Name := "a" |}.
Definition id_gopher : ast.Ident := {| ast.NamePos := 41; ast.Name := "gopher" |}.
Definition id_int : ast.Ident := {| ast.NamePos := 42; ast.Name := "int" |}.
Definition id_print : ast.Ident := {| ast.NamePos := 43; ast.Name := "print" |}.
Definition use_gopher : ast.Ident := {| ast.NamePos := 44; ast.Name := "gopher" |}.
Definition func_a : ast.Node :=
  ast.mkNode (ast.FuncDecl None id_a)
    [leaf (ast.IdentNode id_a);
     ast.mkNode ast.OtherNode
       [ast.mkNode ast.OtherNode
          [ast.mkNode (ast.GenDecl None token.VAR)
             [ast.mkNode (ast.ValueSpec None [id_gopher])
                [leaf (ast.IdentNode id_gopher); leaf (ast.IdentNode id_int)]]];
        ast.mkNode ast.OtherNode
          [ast.mkNode ast.OtherNode
             [leaf (ast.IdentNode id_print);
              leaf (ast.IdentNode use_gopher)]]]].

(** A raw string literal, resolved to the legacy runtime. *)
Definition import_raw : ast.ImportSpec :=
  {| ast.ImportName := None;
     ast.Path := {| ast.ValuePos := 31; ast.Value := "`example.com/legacy`" |} |}.

(** A table that lists [dep.Sym] as never to be used, and a pass whose
    analyzer has no flag for the version. *)
Definition ext_never : External :=
  {| DeprecatedNeverUse := -1;
     DeprecatedUseNoLonger := -2;
     StdlibDeprecations :=
       {[ "example.com/dep.Sym" :=
            {| knowledge.DeprecatedSince := 6; knowledge.AlternativeAvailableSince := -1 |} ]};
     Render := Render ext;
     Unquote := Unquote ext |}.

Definition flagless_pass : analysis.Pass :=
  {| analysis.Files := [];
     analysis.Pkg := app;
     analysis.TypesInfo := info;
     analysis.Filename := fun _ => "main.go";
     analysis.GoFlag := None;
     analysis.ImportedObjectFacts := ∅;
     analysis.ImportedPackageFacts := ∅;
     analysis.ResultOfDeprecated :=
       {| facts.Objects := {[ 200%positive := {| facts.Msg := "use Other." |} ]};
          facts.Packages := ∅ |};
     analysis.ResultOfGenerated := ∅ |}.

End sample.

(** * Properties *)

Local Open Scope list_scope.

(** ** Trees and computations *)

Lemma Node_tree_ind (P : ast.Node -> Prop) :
  (forall k ch, Forall P ch -> P (ast.mkNode k ch)) -> forall n, P n.
Proof.
  intros step. fix IH 1. intros [k ch]. apply step.
  induction ch as [|c ch IHch]; constructor; [apply IH | exact IHch].
Qed.

Lemma ReplaceAll_newline s :
  strings.ReplaceAll s (String strings.nl EmptyString) (String strings.sp EmptyString)
  = newlines_to_spaces s.
Proof.
  unfold strings.ReplaceAll.
  induction s as [|c s IH]; [reflexivity|].
  cbn [strings.replace_from newlines_to_spaces strings.HasPrefix].
  destruct (Ascii.eqb c strings.nl) eqn:E.
  - cbn. rewrite IH. destruct s; reflexivity.
  - rewrite IH. reflexivity.
Qed.


Lemma first_marked_none ps :
  Forall unmarked ps -> extractor.first_marked ps = None.
Proof.
  induction 1 as [|p ps Hp _ IH]; [reflexivity|].
  cbn [extractor.first_marked]. rewrite Hp. exact IH.
Qed.

Lemma first_marked_app ps1 p ps2 :
  Forall unmarked ps1 -> strings.HasPrefix p extractor.marker = true ->
  extractor.first_marked (ps1 ++ p :: ps2)
  = Some (newlines_to_spaces (strings.drop 12 p)).
Proof.
  intros H1 Hp. induction H1 as [|q ps1 Hq _ IH].
  - cbn [app extractor.first_marked]. rewrite Hp. cbn [negb].
    rewrite ReplaceAll_newline. reflexivity.
  - cbn [app extractor.first_marked]. rewrite Hq. exact IH.
Qed.

Lemma add_facts_nil st : add_facts [] st = st.
Proof. destruct st; unfold add_facts; cbn. rewrite app_nil_r. reflexivity. Qed.

Lemma add_facts_app l1 l2 st : add_facts l2 (add_facts l1 st) = add_facts (l1 ++ l2) st.
Proof. unfold add_facts; cbn. rewrite app_assoc. reflexivity. Qed.

Lemma export_all pass alt names st :
  resolved pass names ->
  forM_ (fun name =>
           extractor.ExportObjectFact (types.ObjectOf (analysis.TypesInfo pass) name)
             {| facts.Msg := alt |}) names st
  = (add_facts ((fun o => (o, {| facts.Msg := alt |}))
                  <$> omap (types.ObjectOf (analysis.TypesInfo pass)) names) st, Ok tt).
Proof.
  intros H. revert st. induction H as [|name names [o Ho] _ IH]; intros st.
  - cbn. rewrite add_facts_nil. reflexivity.
  - cbn [forM_ omap list_omap]. unfold bind at 1. rewrite Ho.
    cbn [extractor.ExportObjectFact modify fmap list_fmap].
    rewrite IH. unfold add_facts. cbn. rewrite <- app_assoc. reflexivity.
Qed.

Lemma doDocs_resolved pass names docs st :
  resolved pass names ->
  extractor.doDocs pass names docs st = (add_facts (facts_of pass names docs) st, Ok tt).
Proof.
  intros H. unfold extractor.doDocs, facts_of.
  destruct (String.eqb _ _).
  - rewrite add_facts_nil. reflexivity.
  - apply export_all, H.
Qed.

Lemma Inspect_unfold {S} (f : option ast.Node -> M S bool) n :
  Inspect f n
  = (let* proceed := f (Some n) in
     if proceed : bool
     then let* _ := forM_ (Inspect f) (ast.children n) in
          let* _ := f None in ret tt
     else ret tt).
Proof. destruct n; reflexivity. Qed.

Lemma bind_Ok {S A B} (m : M S A) (f : A -> M S B) st st' a :
  m st = (st', Ok a) -> bind m f st = f a st'.
Proof. intros H. unfold bind. rewrite H. reflexivity. Qed.

Lemma finish_resolved pass r st :
  extractor.names st <> [] -> extractor.docs st <> [] ->
  resolved pass (extractor.names st) ->
  extractor.finish pass r st
  = (extractor.set_names []
       (extractor.set_docs []
          (add_facts (facts_of pass (extractor.names st) (extractor.docs st)) st)),
     Ok r).
Proof.
  intros Hn Hd Hr. unfold extractor.finish.
  rewrite (bind_Ok _ _ st st st) by reflexivity.
  destruct (extractor.names st) as [|n ns] eqn:En; [congruence|].
  destruct (extractor.docs st) as [|d ds] eqn:Ed; [congruence|].
  cbn [List.length Nat.eqb orb].
  erewrite bind_Ok by (apply doDocs_resolved; exact Hr).
  reflexivity.
Qed.

Lemma Inspect_FuncDecl pass doc name ch st :
  resolved pass [name] ->
  Inspect (extractor.fn pass) (ast.mkNode (ast.FuncDecl doc name) ch) st
  = (extractor.set_names []
       (extractor.set_docs []
          (add_facts (facts_of pass [name] (extractor.docs st ++ [doc])) st)),
     Ok tt).
Proof.
  intros Hr. rewrite Inspect_unfold.
  cbn [extractor.fn ast.kind].
  unfold bind at 1. unfold bind at 1. unfold bind at 1.
  cbn [modify].
  rewrite finish_resolved; cbn; try done.
  intros E. by apply app_eq_nil in E as [_ ?].
Qed.

(** ** Invariants of a walk *)

Lemma preserves_ret {S A} (I : S -> Prop) (a : A) : preserves I (ret a).
Proof. intros st H. exact H. Qed.

Lemma preserves_bind {S A B} (I : S -> Prop) (m : M S A) (f : A -> M S B) :
  preserves I m -> (forall a, preserves I (f a)) -> preserves I (bind m f).
Proof.
  intros Hm Hf st H. unfold bind. specialize (Hm st H).
  destruct (m st) as [st' [a|e|msg]]; cbn in *; [apply Hf|..]; exact Hm.
Qed.

Lemma preserves_modify {S} (I : S -> Prop) (f : S -> S) :
  (forall st, I st -> I (f st)) -> preserves I (modify f).
Proof. intros Hf st H. apply Hf, H. Qed.

Lemma preserves_get {S} (I : S -> Prop) : preserves I (@get_state S).
Proof. intros st H. exact H. Qed.

Lemma preserves_lift {S A} (I : S -> Prop) (r : result A) : preserves I (@lift S A r).
Proof. intros st H. exact H. Qed.

Lemma preserves_forM {S A} (I : S -> Prop) (g : A -> M S unit) l :
  Forall (fun x => preserves I (g x)) l -> preserves I (forM_ g l).
Proof.
  induction 1 as [|x l Hx _ IH]; cbn [forM_].
  - apply preserves_ret.
  - apply preserves_bind; [exact Hx | intros _; exact IH].
Qed.

Lemma preserves_Inspect {S} (I : S -> Prop) (f : option ast.Node -> M S bool) :
  (forall n, preserves I (f n)) -> forall n, preserves I (Inspect f n).
Proof.
  intros Hf. induction n as [k ch IH] using Node_tree_ind.
  rewrite Inspect_unfold. apply preserves_bind; [apply Hf|].
  intros [|]; [|apply preserves_ret].
  apply preserves_bind; [apply preserves_forM; exact IH|].
  intros _. apply preserves_bind; [apply Hf | intros _; apply preserves_ret].
Qed.

Lemma extract_nonempty_eqb docs :
  String.eqb (extractor.extractDeprecatedMessage docs) EmptyString = false ->
  extractor.extractDeprecatedMessage docs <> EmptyString.
Proof. intros H E. rewrite E in H. discriminate. Qed.

Lemma preserves_doDocs pass names docs :
  preserves nonempty_facts (extractor.doDocs pass names docs).
Proof.
  unfold extractor.doDocs.
  destruct (String.eqb _ _) eqn:E; [apply preserves_ret|].
  apply extract_nonempty_eqb in E.
  apply preserves_forM, Forall_forall. intros name _.
  destruct (types.ObjectOf _ name) as [o|]; cbn [extractor.ExportObjectFact].
  - apply preserves_modify. intros st [Ho Hp]. split; cbn; [|exact Hp].
    apply Forall_app. split; [exact Ho|]. constructor; [exact E|constructor].
  - intros st H. exact H.
Qed.

Lemma preserves_finish pass r : preserves nonempty_facts (extractor.finish pass r).
Proof.
  unfold extractor.finish. apply preserves_bind; [apply preserves_get|].
  intros st. destruct (_ || _); [apply preserves_ret|].
  apply preserves_bind; [apply preserves_doDocs|]. intros _.
  apply preserves_bind; [apply preserves_modify; intros ? H; exact H|]. intros _.
  apply preserves_bind; [apply preserves_modify; intros ? H; exact H|]. intros _.
  apply preserves_ret.
Qed.

Lemma preserves_fn pass node : preserves nonempty_facts (extractor.fn pass node).
Proof.
  destruct node as [[k ch]|]; [|apply preserves_ret].
  unfold extractor.fn. cbn [ast.kind].
  destruct k; try apply preserves_ret.
  - destruct tok; try apply preserves_ret;
      (apply preserves_bind; [apply preserves_modify; intros ? H; exact H|];
       intros _; apply preserves_ret).
  - apply preserves_bind; [apply preserves_modify; intros ? H; exact H|]. intros _.
    apply preserves_bind; [apply preserves_modify; intros ? H; exact H|]. intros _.
    apply preserves_finish.
  - apply preserves_bind; [apply preserves_modify; intros ? H; exact H|]. intros _.
    apply preserves_bind; [apply preserves_modify; intros ? H; exact H|]. intros _.
    apply preserves_finish.
  - apply preserves_bind; [apply preserves_modify; intros ? H; exact H|]. intros _.
    apply preserves_bind; [apply preserves_modify; intros ? H; exact H|]. intros _.
    apply preserves_finish.
  - apply preserves_bind; [|intros _; apply preserves_ret].
    apply preserves_forM, Forall_forall. intros ? _. apply preserves_doDocs.
  - apply preserves_bind; [|intros _; apply preserves_ret].
    apply preserves_forM, Forall_forall. intros ? _. apply preserves_doDocs.
Qed.

Lemma preserves_deprecated_body pass :
  preserves nonempty_facts (extractor.deprecated_body pass).
Proof.
  unfold extractor.deprecated_body.
  apply preserves_bind.
  { apply preserves_forM, Forall_forall. intros ? _.
    apply preserves_modify. intros ? H; exact H. }
  intros _. apply preserves_bind; [apply preserves_get|]. intros st.
  apply preserves_bind.
  { destruct (String.eqb _ _) eqn:E; cbn [negb]; [apply preserves_ret|].
    apply extract_nonempty_eqb in E.
    apply preserves_modify. intros st' [Ho Hp]. split; cbn; [exact Ho|].
    apply Forall_app. split; [exact Hp|]. constructor; [exact E|constructor]. }
  intros _. apply preserves_bind; [apply preserves_modify; intros ? H; exact H|].
  intros _. apply preserves_bind.
  { apply preserves_forM, Forall_forall. intros ? _.
    apply preserves_Inspect. apply preserves_fn. }
  intros _. apply preserves_bind; [apply preserves_get|]. intros; apply preserves_ret.
Qed.

Lemma bind_Ok_inv {S A B} (m : M S A) (f : A -> M S B) st st' b :
  bind m f st = (st', Ok b) ->
  exists a st1, m st = (st1, Ok a) /\ f a st1 = (st', Ok b).
Proof.
  unfold bind. destruct (m st) as [st1 [a|e|msg]]; intros H; try discriminate.
  exists a, st1. split; [reflexivity | exact H].
Qed.

Lemma deprecated_result pass st out :
  extractor.deprecated pass = (st, Ok out) ->
  out = {| facts.Objects := extractor.AllObjectFacts pass st;
           facts.Packages := extractor.AllPackageFacts pass st |}.
Proof.
  unfold extractor.deprecated, extractor.deprecated_body. intros H.
  do 5 (apply bind_Ok_inv in H as (? & ? & _ & H)).
  apply bind_Ok_inv in H as (a & st1 & Hg & H).
  cbv [get_state ret] in Hg, H. congruence.
Qed.

Lemma AllObjectFacts_lookup pass st key fact :
  extractor.AllObjectFacts pass st !! key = Some fact ->
  (exists o, (o, fact) ∈ extractor.objectFacts st)
  \/ analysis.ImportedObjectFacts pass !! key = Some fact.
Proof.
  unfold extractor.AllObjectFacts.
  induction (extractor.objectFacts st) as [|[o f] l IH] using rev_ind; cbn.
  - right. assumption.
  - rewrite foldl_app. cbn [foldl]. rewrite lookup_insert.
    case_decide.
    + intros [= <-]. left. exists o.
      apply elem_of_app. right. apply list_elem_of_singleton. reflexivity.
    + intros H'. destruct (IH H') as [[o' Ho']|Hi]; [left|right; exact Hi].
      exists o'. apply elem_of_app. left. exact Ho'.
Qed.

Lemma AllPackageFacts_lookup pass st key fact :
  extractor.AllPackageFacts pass st !! key = Some fact ->
  fact ∈ extractor.packageFacts st
  \/ analysis.ImportedPackageFacts pass !! key = Some fact.
Proof.
  unfold extractor.AllPackageFacts.
  induction (extractor.packageFacts st) as [|f l IH] using rev_ind; cbn.
  - right. assumption.
  - rewrite foldl_app. cbn [foldl]. rewrite lookup_insert.
    case_decide.
    + intros [= <-]. left.
      apply elem_of_app. right. apply list_elem_of_singleton. reflexivity.
    + intros H'. destruct (IH H') as [Ho'|Hi]; [left|right; exact Hi].
      apply elem_of_app. left. exact Ho'.
Qed.

Lemma extract_blocked pre doc ps1 ps2 post :
  Forall no_marker pre ->
  strings.Split (ast.Text doc) extractor.blank_line = (ps1 ++ extractor.marker :: ps2)%list ->
  Forall unmarked ps1 ->
  extractor.extractDeprecatedMessage (pre ++ Some doc :: post) = EmptyString.
Proof.
  intros Hpre Hsplit Hps1.
  induction Hpre as [|d pre Hd _ IH]; cbn [app extractor.extractDeprecatedMessage].
  - rewrite Hsplit, first_marked_app by (exact Hps1 || reflexivity). reflexivity.
  - destruct d as [d|]; [|exact IH].
    unfold no_marker in Hd. rewrite (first_marked_none _ Hd). exact IH.
Qed.

(** C9: every fact the extractor exports carries a non-empty message, so
    does every fact of its result that was not carried over from a
    dependency; a paragraph that is the bare marker yields no fact and
    hides every later paragraph and comment group of the declaration. *)
Theorem C9_facts_carry_a_message :
  (forall pass, nonempty_facts (fst (extractor.deprecated pass)))
  /\ (forall pass out,
        snd (extractor.deprecated pass) = Ok out ->
        (forall key fact,
            facts.Objects out !! key = Some fact ->
            facts.Msg fact <> EmptyString
            \/ analysis.ImportedObjectFacts pass !! key = Some fact)
        /\ (forall key fact,
            facts.Packages out !! key = Some fact ->
            facts.Msg fact <> EmptyString
            \/ analysis.ImportedPackageFacts pass !! key = Some fact))
  /\ (forall pre doc ps1 ps2 post,
        Forall no_marker pre ->
        strings.Split (ast.Text doc) extractor.blank_line
        = (ps1 ++ extractor.marker :: ps2)%list ->
        Forall unmarked ps1 ->
        extractor.extractDeprecatedMessage (pre ++ Some doc :: post) = EmptyString
        /\ forall pass names st,
            extractor.doDocs pass names (pre ++ Some doc :: post) st = (st, Ok tt)).
Proof.
  assert (Hinv : forall pass, nonempty_facts (fst (extractor.deprecated pass))).
  { intros pass. apply preserves_deprecated_body. split; constructor. }
  split; [exact Hinv|]. split.
  - intros pass out Hout. specialize (Hinv pass).
    destruct (extractor.deprecated pass) as [st r] eqn:E. cbn in Hout, Hinv. subst r.
    apply deprecated_result in E. subst out. cbn [facts.Objects facts.Packages].
    destruct Hinv as [Ho Hp]. split; intros key fact Hl.
    + apply AllObjectFacts_lookup in Hl as [[o Hin]|Hi]; [left|right; exact Hi].
      rewrite Forall_forall in Ho. apply (Ho _ Hin).
    + apply AllPackageFacts_lookup in Hl as [Hin|Hi]; [left|right; exact Hi].
      rewrite Forall_forall in Hp. apply (Hp _ Hin).
  - intros pre doc ps1 ps2 post Hpre Hsplit Hps1.
    pose proof (extract_blocked pre doc ps1 ps2 post Hpre Hsplit Hps1) as E.
    split; [exact E|]. intros pass names st.
    unfold extractor.doDocs. rewrite E. reflexivity.
Qed.

Lemma C9_facts_carry_a_message_witness :
  extractor.extractDeprecatedMessage [None; Some sample.doc_bare; Some sample.doc_Old]
  = EmptyString.
Proof.
  apply (proj2 (proj2 C9_facts_carry_a_message)
           [None] sample.doc_bare [] ["Deprecated: use New."] [Some sample.doc_Old]).
  - repeat constructor.
  - reflexivity.
  - constructor.
Defined.

(** ** The extractor, declaration by declaration *)

Lemma forM_app {S A} (g : A -> M S unit) l1 l2 st :
  forM_ g (l1 ++ l2) st = (let* _ := forM_ g l1 in forM_ g l2) st.
Proof.
  revert st. induction l1 as [|x l1 IH]; intros st; [reflexivity|].
  cbn [app forM_]. unfold bind in *.
  destruct (g x st) as [st' [[]|e|msg]]; [apply IH|reflexivity..].
Qed.

Lemma forM_identity {S A} (g : A -> M S unit) l :
  Forall (fun x => forall st, g x st = (st, Ok tt)) l ->
  forall st, forM_ g l st = (st, Ok tt).
Proof.
  induction 1 as [|x l Hx _ IH]; intros st; [reflexivity|].
  cbn [forM_]. rewrite (bind_Ok _ _ _ _ _ (Hx st)). apply IH.
Qed.

Lemma Inspect_inert pass n st :
  inert n -> Inspect (extractor.fn pass) n st = (st, Ok tt).
Proof.
  destruct n as [k ch]. unfold inert. cbn [ast.kind]. intros H.
  rewrite Inspect_unfold. cbn [extractor.fn ast.kind].
  destruct k; try contradiction; reflexivity.
Qed.

Lemma Inspect_inert_list pass l st :
  Forall inert l -> forM_ (Inspect (extractor.fn pass)) l st = (st, Ok tt).
Proof.
  intros H. apply forM_identity. eapply Forall_impl; [exact H|].
  intros n Hn st'. apply Inspect_inert, Hn.
Qed.

Lemma fields_resolved pass fields st :
  Forall (fun field => resolved pass (ast.Names field)) fields ->
  forM_ (fun field => extractor.doDocs pass (ast.Names field) [ast.Doc field]) fields st
  = (add_facts (flat_map (fun field => facts_of pass (ast.Names field) [ast.Doc field])
                  fields) st, Ok tt).
Proof.
  intros H. revert st. induction H as [|field fields Hf _ IH]; intros st.
  - cbn. rewrite add_facts_nil. reflexivity.
  - cbn [forM_ flat_map]. rewrite (bind_Ok _ _ _ _ _ (doDocs_resolved _ _ _ _ Hf)).
    rewrite IH, add_facts_app. reflexivity.
Qed.

Lemma Inspect_StructType pass fields ch st :
  Forall (fun field => resolved pass (ast.Names field)) fields ->
  Inspect (extractor.fn pass) (ast.mkNode (ast.StructType fields) ch) st
  = (add_facts (flat_map (fun field => facts_of pass (ast.Names field) [ast.Doc field])
                  fields) st, Ok tt).
Proof.
  intros H. rewrite Inspect_unfold. cbn [extractor.fn ast.kind].
  unfold bind at 1. unfold bind at 1. rewrite (fields_resolved _ _ _ H). reflexivity.
Qed.

Lemma facts_of_unmarked pass names docs :
  extractor.extractDeprecatedMessage docs = EmptyString -> facts_of pass names docs = [].
Proof. intros E. unfold facts_of. rewrite E. reflexivity. Qed.

(** C5: a declaration documented by a comment whose second paragraph is
    [Deprecated: use Bar instead.] is given a fact with the message
    [use Bar instead.]; a comment without a paragraph that begins with the
    marker gives no fact; the newlines of the message are turned into
    spaces. *)
Theorem C5_doc_marker_extraction :
  ast.Text sample.doc_Foo
  = sample.paragraphs "Foo does X." "Deprecated: use Bar instead."
  /\ (forall pass name obj ch st,
        extractor.docs st = [] ->
        types.ObjectOf (analysis.TypesInfo pass) name = Some obj ->
        Inspect (extractor.fn pass)
          (ast.mkNode (ast.FuncDecl (Some sample.doc_Foo) name) ch) st
        = (extractor.set_names []
             (add_facts [(obj, {| facts.Msg := "use Bar instead." |})] st), Ok tt))
  /\ (forall pass doc name ch st,
        extractor.docs st = [] ->
        no_marker doc ->
        extractor.extractDeprecatedMessage [doc] = EmptyString
        /\ Inspect (extractor.fn pass) (ast.mkNode (ast.FuncDecl doc name) ch) st
           = (extractor.set_names [] st, Ok tt))
  /\ (forall pass names field_objs doc st,
        Forall2 (fun name obj => types.ObjectOf (analysis.TypesInfo pass) name = Some obj)
          names field_objs ->
        extractor.doDocs pass names [Some sample.doc_Foo] st
        = (add_facts ((fun o => (o, {| facts.Msg := "use Bar instead." |})) <$> field_objs) st,
           Ok tt)
        /\ (no_marker doc -> extractor.doDocs pass names [doc] st = (st, Ok tt)))
  /\ (forall doc ps1 part ps2,
        strings.Split (ast.Text doc) extractor.blank_line = (ps1 ++ part :: ps2)%list ->
        Forall unmarked ps1 ->
        strings.HasPrefix part extractor.marker = true ->
        extractor.extractDeprecatedMessage [Some doc]
        = newlines_to_spaces
            (strings.drop (String.length extractor.marker) part)).
Proof.
  assert (Hnone : forall doc, no_marker doc ->
                    extractor.extractDeprecatedMessage [doc] = EmptyString).
  { intros [doc|] H; [|reflexivity]. cbn [extractor.extractDeprecatedMessage].
    unfold no_marker in H. rewrite (first_marked_none _ H). reflexivity. }
  split; [reflexivity|]. split; [|split; [|split]].
  - intros pass name obj ch st Hd Hobj.
    rewrite Inspect_FuncDecl by (repeat constructor; rewrite Hobj; eexists; reflexivity).
    unfold facts_of. rewrite Hd. cbn [app omap list_omap]. rewrite Hobj.
    destruct st; cbn in *; subst. reflexivity.
  - intros pass doc name ch st Hd Hm. split; [apply Hnone, Hm|].
    rewrite Inspect_unfold. cbn [extractor.fn ast.kind].
    unfold bind at 1. unfold bind at 1. unfold bind at 1. cbn [modify].
    unfold extractor.finish. unfold bind at 1. cbn [get_state].
    cbn [extractor.names extractor.set_names extractor.append_doc extractor.set_docs
           extractor.docs List.length Nat.eqb orb].
    rewrite Hd. cbn [app List.length Nat.eqb orb].
    unfold extractor.doDocs. rewrite (Hnone _ Hm).
    destruct st; cbn in *; subst. reflexivity.
  - intros pass names objs doc st Hres. split.
    + assert (Hr : resolved pass names).
      { induction Hres; constructor; [eexists; eassumption|assumption]. }
      rewrite (doDocs_resolved _ _ _ _ Hr). unfold facts_of. clear Hr.
      replace (omap (types.ObjectOf (analysis.TypesInfo pass)) names) with objs;
        [reflexivity|].
      induction Hres as [|name obj names objs Ho _ IH]; [reflexivity|].
      cbn [omap list_omap]. rewrite Ho, <- IH. reflexivity.
    + intros Hm. unfold extractor.doDocs. rewrite (Hnone _ Hm). reflexivity.
  - intros doc ps1 part ps2 Hs H1 Hp. cbn [extractor.extractDeprecatedMessage].
    rewrite Hs, (first_marked_app _ _ _ H1 Hp). reflexivity.
Qed.

Lemma C5_doc_marker_extraction_witness :
  Inspect (extractor.fn (sample.bare_pass []))
    (ast.mkNode (ast.FuncDecl (Some sample.doc_Foo) sample.id_Old) []) extractor.init
  = (extractor.set_names []
       (add_facts [(sample.obj_Old, {| facts.Msg := "use Bar instead." |})] extractor.init),
     Ok tt)
  /\ extractor.extractDeprecatedMessage [Some sample.doc_lower] = EmptyString
  /\ extractor.extractDeprecatedMessage [Some sample.doc_tight] = EmptyString.
Proof.
  split; [|split].
  - apply (proj1 (proj2 C5_doc_marker_extraction)); reflexivity.
  - refine (proj1 (proj1 (proj2 (proj2 C5_doc_marker_extraction)) (sample.bare_pass [])
                     (Some sample.doc_lower) sample.id_Old [] extractor.init eq_refl _)).
    unfold no_marker, unmarked. vm_compute. repeat constructor.
  - refine (proj1 (proj1 (proj2 (proj2 C5_doc_marker_extraction)) (sample.bare_pass [])
                     (Some sample.doc_tight) sample.id_Old [] extractor.init eq_refl _)).
    unfold no_marker, unmarked. vm_compute. repeat constructor.
Defined.

Lemma forM_cons_Ok {S A} (g : A -> M S unit) x l st st1 :
  g x st = (st1, Ok tt) -> forM_ g (x :: l) st = forM_ g l st1.
Proof. intros H. cbn [forM_]. exact (bind_Ok _ (fun _ => forM_ g l) _ _ _ H). Qed.

Lemma forM_app_Ok {S A} (g : A -> M S unit) l1 l2 st st1 :
  forM_ g l1 st = (st1, Ok tt) -> forM_ g (l1 ++ l2) st = forM_ g l2 st1.
Proof. intros H. rewrite forM_app. exact (bind_Ok _ (fun _ => forM_ g l2) _ _ _ H). Qed.

Lemma Inspect_proceed {S} (f : option ast.Node -> M S bool) n st st1 st2 :
  f (Some n) st = (st1, Ok true) ->
  forM_ (Inspect f) (ast.children n) st1 = (st2, Ok tt) ->
  f None st2 = (st2, Ok true) ->
  Inspect f n st = (st2, Ok tt).
Proof.
  intros H1 H2 H3. rewrite Inspect_unfold.
  rewrite (bind_Ok _ _ _ _ _ H1). rewrite (bind_Ok _ _ _ _ _ H2).
  rewrite (bind_Ok _ _ _ _ _ H3). reflexivity.
Qed.

Lemma Inspect_stop {S} (f : option ast.Node -> M S bool) n st st1 :
  f (Some n) st = (st1, Ok false) -> Inspect f n st = (st1, Ok tt).
Proof. intros H. rewrite Inspect_unfold. rewrite (bind_Ok _ _ _ _ _ H). reflexivity. Qed.

Lemma fn_TypeSpec pass doc name ch st :
  resolved pass [name] ->
  extractor.fn pass (Some (ast.mkNode (ast.TypeSpec doc name) ch)) st
  = (extractor.set_names []
       (extractor.set_docs []
          (add_facts (facts_of pass [name] (extractor.docs st ++ [doc])) st)), Ok true).
Proof.
  intros Hr. cbn [extractor.fn ast.kind].
  unfold bind at 1. unfold bind at 1. cbn [modify].
  rewrite finish_resolved; cbn; try done.
  intros E. by apply app_eq_nil in E as [_ ?].
Qed.

(** C8: in a struct type declaration the type is checked against the
    comments of the declaration and every field against its own comment
    alone, wherever the type spec stands.  With no marker in the comments
    of the type, the facts exported are those of the fields; with no marker
    in the comments of the fields, the only fact is the one of the type,
    whatever its message. *)
Theorem C8_field_isolation pass tdoc T fields tpre tpost sch :
  let spec := ast.mkNode (ast.TypeSpec tdoc T)
                (tpre ++ ast.mkNode (ast.StructType fields) sch :: tpost) in
  let field_facts :=
    flat_map (fun field => facts_of pass (ast.Names field) [ast.Doc field]) fields in
  Forall inert (tpre ++ tpost) ->
  resolved pass [T] ->
  Forall (fun field => resolved pass (ast.Names field)) fields ->
  (forall st,
      Inspect (extractor.fn pass) spec st
      = (extractor.set_names []
           (extractor.set_docs []
              (add_facts (facts_of pass [T] (extractor.docs st ++ [tdoc]) ++ field_facts)
                 st)), Ok tt))
  /\ forall gdoc gpre gpost st,
      let decl := ast.mkNode (ast.GenDecl gdoc token.TYPE) (gpre ++ spec :: gpost) in
      let type_facts := facts_of pass [T] (extractor.docs st ++ [gdoc; tdoc]) in
      Forall inert (gpre ++ gpost) ->
      Inspect (extractor.fn pass) decl st
      = (extractor.set_names []
           (extractor.set_docs [] (add_facts (type_facts ++ field_facts) st)), Ok tt)
      /\ (extractor.extractDeprecatedMessage (extractor.docs st ++ [gdoc; tdoc])
          = EmptyString ->
          extractor.objectFacts (fst (Inspect (extractor.fn pass) decl st))
          = extractor.objectFacts st ++ field_facts)
      /\ (Forall (fun field => no_marker (ast.Doc field)) fields ->
          extractor.objectFacts (fst (Inspect (extractor.fn pass) decl st))
          = extractor.objectFacts st ++ type_facts).
Proof.
  intros spec field_facts Hinert HT Hfields.
  apply Forall_app in Hinert as [Htpre Htpost].
  assert (Hspec : forall st,
             Inspect (extractor.fn pass) spec st
             = (extractor.set_names []
                  (extractor.set_docs []
                     (add_facts
                        (facts_of pass [T] (extractor.docs st ++ [tdoc]) ++ field_facts)
                        st)), Ok tt)).
  { intros st. eapply eq_trans.
    - eapply Inspect_proceed.
      + apply fn_TypeSpec, HT.
      + unfold spec. cbn [ast.children].
        rewrite (forM_app_Ok _ _ _ _ _ (Inspect_inert_list _ _ _ Htpre)).
        rewrite (forM_cons_Ok _ _ _ _ _ (Inspect_StructType _ _ _ _ Hfields)).
        apply Inspect_inert_list, Htpost.
      + reflexivity.
    - f_equal. unfold add_facts, extractor.set_names, extractor.set_docs; cbn.
      rewrite <- app_assoc. reflexivity. }
  split; [exact Hspec|].
  intros gdoc gpre gpost st decl type_facts Hg.
  apply Forall_app in Hg as [Hgpre Hgpost].
  assert (Hdecl : Inspect (extractor.fn pass) decl st
                  = (extractor.set_names []
                       (extractor.set_docs [] (add_facts (type_facts ++ field_facts) st)),
                     Ok tt)).
  { eapply eq_trans.
    - eapply Inspect_proceed.
      + reflexivity.
      + unfold decl. cbn [ast.children].
        rewrite (forM_app_Ok _ _ _ _ _ (Inspect_inert_list _ _ _ Hgpre)).
        rewrite (forM_cons_Ok _ _ _ _ _ (Hspec _)).
        apply Inspect_inert_list, Hgpost.
      + reflexivity.
    - f_equal.
      unfold type_facts, add_facts, extractor.set_names, extractor.set_docs,
        extractor.append_doc; cbn.
      rewrite <- !app_assoc. reflexivity. }
  split; [exact Hdecl|]. rewrite Hdecl. cbn. split.
  - intros E. unfold type_facts. rewrite (facts_of_unmarked _ _ _ E). reflexivity.
  - intros Hnm. replace field_facts with (@nil (types.Object * facts.IsDeprecated)).
    + rewrite app_nil_r. reflexivity.
    + unfold field_facts. clear -Hnm. induction Hnm as [|field fields Hf _ IH]; [reflexivity|].
      cbn [flat_map]. rewrite <- IH, app_nil_r. symmetry. apply facts_of_unmarked.
      destruct (ast.Doc field) as [d|]; [|reflexivity].
      cbn [extractor.extractDeprecatedMessage]. unfold no_marker in Hf.
      rewrite (first_marked_none _ Hf). reflexivity.
Qed.

Lemma C8_field_isolation_witness :
  extractor.objectFacts
    (fst (Inspect (extractor.fn (sample.bare_pass [])) sample.type_T extractor.init))
  = [(sample.obj_F, {| facts.Msg := "use Bar instead." |})].
Proof.
  refine (proj1 (proj2 (proj2 (C8_field_isolation (sample.bare_pass []) None sample.id_T
                                 sample.struct_fields
                                 [sample.leaf (ast.IdentNode sample.id_T)] [] [] _ _ _)
                          (Some sample.doc_plain) [] [] extractor.init _)) _).
  - repeat constructor.
  - repeat constructor. eexists; reflexivity.
  - repeat constructor. eexists; reflexivity.
  - constructor.
  - reflexivity.
Defined.

(** ** Grouped declarations *)

Lemma bind_unit {S} (m : M S unit) (b : bool) st :
  (let* _ := m in let* _ := ret b in ret tt) st = m st.
Proof. unfold bind, ret. destruct (m st) as [st' [[]|e|msg]]; reflexivity. Qed.

Lemma preserves_docs_doDocs pass D names docs :
  preserves (fun st => extractor.docs st = D) (extractor.doDocs pass names docs).
Proof.
  unfold extractor.doDocs. destruct (String.eqb _ _); [apply preserves_ret|].
  apply preserves_forM, Forall_forall. intros name _.
  destruct (types.ObjectOf _ name) as [o|]; cbn [extractor.ExportObjectFact].
  - apply preserves_modify. intros st H. exact H.
  - intros st H. exact H.
Qed.

Lemma Inspect_closed pass n st :
  closed_for_extractor n ->
  fst (Inspect (extractor.fn pass) n st) = fst (extractor.fn pass (Some n) st).
Proof.
  destruct n as [k ch]. unfold closed_for_extractor. cbn [ast.kind]. intros Hc.
  rewrite Inspect_unfold. cbn [extractor.fn ast.kind].
  destruct k; try contradiction; try reflexivity;
    unfold bind, ret;
    match goal with
    | |- context [forM_ ?g ?l st] => destruct (forM_ g l st) as [st' [[]|e|msg]]
    end; reflexivity.
Qed.

Lemma preserves_docs_closed pass D n :
  closed_for_extractor n ->
  preserves (fun st => extractor.docs st = D) (Inspect (extractor.fn pass) n).
Proof.
  intros Hc st H. rewrite (Inspect_closed _ _ _ Hc). revert st H.
  change (preserves (fun st => extractor.docs st = D) (extractor.fn pass (Some n))).
  destruct n as [k ch]. unfold closed_for_extractor in Hc. cbn [ast.kind] in Hc.
  cbn [extractor.fn ast.kind].
  destruct k; try contradiction; try apply preserves_ret;
    (apply preserves_bind; [|intros _; apply preserves_ret]);
    apply preserves_forM, Forall_forall; intros ? _; apply preserves_docs_doDocs.
Qed.

Lemma Inspect_spec pass spec st :
  is_spec spec ->
  Inspect (extractor.fn pass) spec st = check_spec pass (extractor.docs st) spec st.
Proof.
  destruct spec as [k ch]. unfold is_spec, check_spec. cbn [ast.kind ast.children].
  destruct st as [names0 docs0 objs0 pkgs0].
  destruct k; try contradiction; intros Hs; rewrite Inspect_unfold;
    cbn [extractor.fn ast.kind ast.children];
    unfold extractor.finish, bind, modify, get_state, ret;
    unfold extractor.append_doc, extractor.set_names, extractor.set_docs;
    cbn [extractor.names extractor.docs extractor.objectFacts extractor.packageFacts].
  - (* TypeSpec *)
    destruct (docs0 ++ [doc]) as [|d ds] eqn:E.
    { by apply app_eq_nil in E as [_ ?]. }
    cbn [List.length Nat.eqb orb].
    match goal with
    | |- context [extractor.doDocs ?p ?n ?d ?s] =>
        destruct (extractor.doDocs p n d s) as [st1 [[]|e|msg]]
    end; try reflexivity.
    match goal with
    | |- context [forM_ ?g ch ?s] => destruct (forM_ g ch s) as [st2 [[]|e|msg]]
    end; reflexivity.
  - (* ValueSpec *)
    destruct names as [|name names]; [contradiction|].
    destruct (docs0 ++ [doc]) as [|d ds] eqn:E.
    { by apply app_eq_nil in E as [_ ?]. }
    cbn [List.length Nat.eqb orb].
    match goal with
    | |- context [extractor.doDocs ?p ?n ?d ?s] =>
        destruct (extractor.doDocs p n d s) as [st1 [[]|e|msg]]
    end; reflexivity.
Qed.

Lemma check_spec_clears pass buffer spec st st' :
  is_spec spec ->
  check_spec pass buffer spec st = (st', Ok tt) -> extractor.docs st' = [].
Proof.
  destruct spec as [k ch]. unfold is_spec, check_spec. cbn [ast.kind ast.children].
  destruct k; try contradiction; intros Hs H.
  - do 5 (apply bind_Ok_inv in H as (? & ? & ? & H)).
    assert (Hd : extractor.docs x8 = []).
    { cbv [modify] in *. repeat match goal with
                                | E : (_, _) = (_, _) |- _ => injection E as <- <-
                                end. reflexivity. }
    assert (Hp : preserves (fun s => extractor.docs s = [])
                   (forM_ (Inspect (extractor.fn pass)) ch)).
    { apply preserves_forM. eapply Forall_impl; [exact Hs|].
      intros n Hn. apply preserves_docs_closed, Hn. }
    specialize (Hp _ Hd). rewrite H in Hp. exact Hp.
  - do 4 (apply bind_Ok_inv in H as (? & ? & ? & H)).
    cbv [modify] in *. repeat match goal with
                              | E : (_, _) = (_, _) |- _ => injection E as <- <-
                              end. injection H as <-. reflexivity.
Qed.

Lemma check_spec_overwrites pass buffer gdoc spec st :
  is_spec spec ->
  check_spec pass buffer spec (extractor.append_doc gdoc st)
  = check_spec pass buffer spec st.
Proof.
  unfold is_spec, check_spec.
  destruct (ast.kind spec); try contradiction; intros _;
    unfold bind; cbv [modify]; reflexivity.
Qed.

Lemma Inspect_specs pass specs :
  Forall is_spec specs ->
  forall st, extractor.docs st = [] ->
  forM_ (Inspect (extractor.fn pass)) specs st = forM_ (check_spec pass []) specs st.
Proof.
  induction 1 as [|spec specs Hs _ IH]; intros st Hd; [reflexivity|].
  cbn [forM_]. unfold bind. rewrite (Inspect_spec _ _ _ Hs), Hd.
  destruct (check_spec pass [] spec st) as [st' [[]|e|msg]] eqn:E; try reflexivity.
  apply IH. eapply check_spec_clears; eassumption.
Qed.

Lemma check_spec_value pass buffer spec st :
  value_spec pass spec ->
  check_spec pass buffer spec st
  = (extractor.set_names []
       (extractor.set_docs [] (add_facts (spec_facts pass buffer spec) st)), Ok tt).
Proof.
  unfold value_spec, check_spec, spec_facts.
  destruct (ast.kind spec); try contradiction. intros [_ Hr].
  unfold bind at 1. cbn [modify]. unfold bind at 1. cbn [modify].
  rewrite (bind_Ok _ _ _ _ _ (doDocs_resolved _ _ _ _ Hr)). reflexivity.
Qed.

Lemma value_spec_is_spec pass spec : value_spec pass spec -> is_spec spec.
Proof.
  unfold value_spec, is_spec. destruct (ast.kind spec); try contradiction.
  intros [H _]. exact H.
Qed.

Lemma check_value_specs pass specs :
  Forall (value_spec pass) specs ->
  forall st,
    extractor.docs st = [] ->
    extractor.names st = [] ->
    forM_ (check_spec pass []) specs st
    = (add_facts (flat_map (spec_facts pass []) specs) st, Ok tt).
Proof.
  induction 1 as [|spec specs Hs _ IH]; intros st Hd Hn.
  - cbn. rewrite add_facts_nil. reflexivity.
  - rewrite (forM_cons_Ok _ _ _ _ _ (check_spec_value _ _ _ _ Hs)).
    rewrite IH by reflexivity. cbn [flat_map]. f_equal.
    destruct st; cbn in *; subst. unfold add_facts; cbn.
    rewrite <- app_assoc. reflexivity.
Qed.

(** C10: in a grouped declaration the comment of the group is read with
    the first spec only; the buffer of comment groups is emptied after each
    spec, and every later spec is checked against its own comment alone.
    In a group of value specs the facts exported are those of the first
    spec, read with the comment of the group, and those of the later specs,
    each read on its own. *)
Theorem C10_group_comment_first_spec_only pass gdoc tok first others st :
  let group := ast.mkNode (ast.GenDecl gdoc tok) (first :: others) in
  tok <> token.IMPORT ->
  (is_spec first ->
   Forall is_spec others ->
   Inspect (extractor.fn pass) group st = group_by_spec pass gdoc first others st)
  /\ (Forall (value_spec pass) (first :: others) ->
      Inspect (extractor.fn pass) group st
      = (extractor.set_names []
           (extractor.set_docs []
              (add_facts
                 (spec_facts pass (extractor.docs st ++ [gdoc]) first
                    ++ flat_map (spec_facts pass []) others) st)), Ok tt)).
Proof.
  intros group Htok.
  assert (Hgroup : is_spec first -> Forall is_spec others ->
                   Inspect (extractor.fn pass) group st
                   = group_by_spec pass gdoc first others st).
  { intros Hfirst Hothers. unfold group. rewrite Inspect_unfold.
    assert (Hfn : extractor.fn pass
                    (Some (ast.mkNode (ast.GenDecl gdoc tok) (first :: others))) st
                  = (extractor.append_doc gdoc st, Ok true)).
    { cbn [extractor.fn ast.kind]. destruct tok; try contradiction; reflexivity. }
    rewrite (bind_Ok _ _ _ _ _ Hfn). cbv beta iota. cbn [extractor.fn].
    rewrite bind_unit.
    cbn [ast.children forM_]. unfold group_by_spec, bind.
    rewrite (Inspect_spec _ _ _ Hfirst), (check_spec_overwrites _ _ _ _ _ Hfirst).
    cbn [extractor.docs extractor.append_doc extractor.set_docs].
    destruct (check_spec pass (extractor.docs st ++ [gdoc]) first st)
      as [st' [[]|e|msg]] eqn:E; try reflexivity.
    apply Inspect_specs; [exact Hothers|].
    eapply check_spec_clears; eassumption. }
  split; [exact Hgroup|].
  intros Hvalues. apply Forall_cons in Hvalues as [Hfirst Hothers].
  rewrite Hgroup.
  - unfold group_by_spec.
    rewrite (bind_Ok _ _ _ _ _ (check_spec_value _ _ _ _ Hfirst)).
    rewrite (check_value_specs _ _ Hothers) by reflexivity.
    f_equal. unfold add_facts, extractor.set_names, extractor.set_docs; cbn.
    rewrite <- app_assoc. reflexivity.
  - eapply value_spec_is_spec, Hfirst.
  - eapply Forall_impl; [exact Hothers|]. intros n. apply value_spec_is_spec.
Qed.

Lemma C10_group_comment_first_spec_only_witness :
  extractor.objectFacts
    (fst (Inspect (extractor.fn (sample.bare_pass [])) sample.var_group extractor.init))
  = [(sample.obj_A, {| facts.Msg := "use the flags." |})].
Proof.
  unfold sample.var_group.
  rewrite (proj2 (C10_group_comment_first_spec_only (sample.bare_pass [])
                    (Some sample.doc_group) token.VAR sample.spec_A [sample.spec_B]
                    extractor.init ltac:(discriminate))).
  - reflexivity.
  - repeat constructor; cbn; try discriminate; eexists; reflexivity.
Defined.

(** ** The usage analyzer, visit by visit *)

Lemma Nodes_node_unfold {S} (f : ast.Node -> bool -> M S bool) n :
  Nodes_node f n
  = (let* proceed := f n true in
     if proceed : bool
     then let* _ := forM_ (Nodes_node f) (ast.children n) in
          let* _ := f n false in ret tt
     else ret tt).
Proof. destruct n; reflexivity. Qed.

Lemma report_state node msg st :
  protomigrate.Report node msg st
  = ({| protomigrate.tfn := protomigrate.tfn st;
        protomigrate.stack := protomigrate.stack st;
        protomigrate.diagnostics :=
          protomigrate.diagnostics st
            ++ [{| analysis.Anchor := node; analysis.Message := msg |}] |}, Ok tt).
Proof. reflexivity. Qed.

(** What [fn] does on a selector expression, through [reportable]. *)
Lemma selector_reportable ext pass node X Sel st :
  ast.kind node = ast.SelectorExpr X Sel ->
  protomigrate.selector ext pass node X Sel st
  = match reportable ext pass node with
    | Ok (Some msg) =>
        if protomigrate.tfn_deprecated pass st then (st, Ok true)
        else (fst (protomigrate.Report node msg st), Ok true)
    | Ok None => (st, Ok true)
    | Err e => (st, Err e)
    | Panic msg => (st, Panic msg)
    end.
Proof.
  intros Hk. unfold reportable, protomigrate.selector. rewrite Hk.
  destruct (types.ObjectOf _ Sel) as [obj|]; [|reflexivity].
  destruct (types.Pkg obj) as [pkg|]; [|reflexivity].
  destruct (protomigrate.own_package pass pkg); [reflexivity|].
  destruct (facts.Objects _ !! _) as [depr|]; [|reflexivity].
  unfold bind, lift.
  destruct (protomigrate.SelectorName pass X Sel) as [name|e|msg]; try reflexivity.
  destruct (protomigrate.versionGate ext pass _) as [[|]|e|msg]; try reflexivity.
  cbn [negb get_state]. destruct (protomigrate.tfn_deprecated pass st); reflexivity.
Qed.


Lemma fn_push ext pass node st :
  protomigrate.fn ext pass node true st
  = match ast.kind node with
    | ast.SelectorExpr X Sel => protomigrate.selector ext pass node X Sel (entered pass node st)
    | _ => (entered pass node st, Ok true)
    end.
Proof.
  unfold protomigrate.fn, entered. cbn [negb].
  unfold bind at 1. cbn [modify]. unfold bind at 1. cbn [get_state].
  cbn [protomigrate.stack protomigrate.set_stack].
  destruct (protomigrate.stack st + 1 =? 1);
    destruct (ast.kind node); reflexivity.
Qed.

Lemma fn_pop ext pass node st :
  protomigrate.fn ext pass node false st
  = (protomigrate.set_stack (protomigrate.stack st - 1) st, Ok false).
Proof. reflexivity. Qed.

Lemma walk_order_unfold n : walk_order n = n :: flat_map walk_order (ast.children n).
Proof. destruct n; reflexivity. Qed.

Lemma Forall_flat_map_walk_order (P : ast.Node -> Prop) l :
  Forall P (flat_map walk_order l) <-> Forall (fun n => Forall P (walk_order n)) l.
Proof.
  induction l as [|n l IH]; cbn [flat_map].
  - split; constructor.
  - rewrite Forall_app, Forall_cons, IH. reflexivity.
Qed.

Lemma below_declaration_inv n :
  below_declaration n ->
  match ast.kind n with ast.FuncDecl _ _ | ast.File _ _ => False | _ => True end
  /\ Forall below_declaration (ast.children n).
Proof.
  unfold below_declaration. rewrite walk_order_unfold, Forall_cons.
  intros [H1 H2]. split; [exact H1|]. apply Forall_flat_map_walk_order, H2.
Qed.

Lemma tfn_deprecated_ext pass st st' :
  protomigrate.tfn st' = protomigrate.tfn st ->
  protomigrate.tfn_deprecated pass st' = protomigrate.tfn_deprecated pass st.
Proof. unfold protomigrate.tfn_deprecated. intros ->. reflexivity. Qed.

Lemma entered_tfn pass node st :
  match ast.kind node with ast.FuncDecl _ _ => False | _ => True end ->
  1 <= protomigrate.stack st ->
  protomigrate.tfn (entered pass node st) = protomigrate.tfn st.
Proof.
  intros Hk Hs. unfold entered. cbn [protomigrate.tfn].
  destruct (Z.eqb_spec (protomigrate.stack st + 1) 1) as [E|_]; [lia|].
  destruct (ast.kind node); try reflexivity; contradiction.
Qed.

(** Below a declaration and under a deprecated function nothing is
    reported. *)
Lemma walk_under_deprecated ext pass n :
  below_declaration n ->
  forall st st' r,
    1 <= protomigrate.stack st ->
    protomigrate.tfn_deprecated pass st = true ->
    Nodes_node (protomigrate.fn ext pass) n st = (st', r) ->
    protomigrate.tfn st' = protomigrate.tfn st
    /\ protomigrate.diagnostics st' = protomigrate.diagnostics st
    /\ (is_Ok r -> protomigrate.stack st' = protomigrate.stack st).
Proof.
  induction n as [k ch IH] using Node_tree_ind. intros Hb st st' r Hs Hd Hwalk.
  apply below_declaration_inv in Hb as [Hk Hch]. cbn [ast.kind ast.children] in Hk, Hch.
  assert (Htfn : protomigrate.tfn (entered pass (ast.mkNode k ch) st) = protomigrate.tfn st).
  { apply entered_tfn; [destruct k; try exact I; contradiction | exact Hs]. }
  assert (Hpush : exists r1,
             protomigrate.fn ext pass (ast.mkNode k ch) true st
             = (entered pass (ast.mkNode k ch) st, r1)
             /\ (r1 = Ok true \/ ~ is_Ok r1)).
  { rewrite fn_push. cbn [ast.kind].
    destruct k; try (eexists; split; [reflexivity | left; reflexivity]).
    rewrite selector_reportable by reflexivity.
    rewrite (tfn_deprecated_ext _ _ _ Htfn), Hd.
    destruct (reportable ext pass _) as [[msg|]|e|msg];
      eexists; (split; [reflexivity|]); auto. }
  destruct Hpush as (r1 & Hpush & Hr1).
  assert (Hlist : forall st1 st2 r2,
             2 <= protomigrate.stack st1 ->
             protomigrate.tfn_deprecated pass st1 = true ->
             forM_ (Nodes_node (protomigrate.fn ext pass)) ch st1 = (st2, r2) ->
             protomigrate.tfn st2 = protomigrate.tfn st1
             /\ protomigrate.diagnostics st2 = protomigrate.diagnostics st1
             /\ (is_Ok r2 -> protomigrate.stack st2 = protomigrate.stack st1)).
  { clear Hpush Htfn Hwalk. induction ch as [|c ch IHch]; intros st1 st2 r2 Hs1 Hd1 Hl.
    - cbn in Hl. injection Hl as <- <-. auto.
    - apply Forall_cons in IH as [IHc IHrest]. apply Forall_cons in Hch as [Hc Hrest].
      specialize (IHch IHrest Hrest).
      cbn [forM_] in Hl. unfold bind in Hl.
      destruct (Nodes_node _ c st1) as [st3 r3] eqn:Ec.
      destruct (IHc Hc st1 st3 r3 ltac:(lia) Hd1 Ec) as (Ht & Hg & Hk3).
      destruct r3 as [[]|e|msg];
        try (injection Hl as <- <-; split; [|split]; [exact Ht | exact Hg | intros []]).
      specialize (Hk3 I).
      destruct (IHch st3 st2 r2 ltac:(lia)
                  ltac:(rewrite (tfn_deprecated_ext _ _ _ Ht); exact Hd1) Hl)
        as (Ht' & Hg' & Hk').
      repeat split; [congruence | congruence | intros Hok; rewrite (Hk' Hok); exact Hk3]. }
  rewrite Nodes_node_unfold in Hwalk. unfold bind at 1 in Hwalk. rewrite Hpush in Hwalk.
  destruct Hr1 as [-> | Hfail].
  - cbn [ast.children] in Hwalk. unfold bind in Hwalk.
    destruct (forM_ _ ch _) as [st2 r2] eqn:El.
    assert (Hs2 : 2 <= protomigrate.stack (entered pass (ast.mkNode k ch) st)).
    { unfold entered. cbn [protomigrate.stack]. lia. }
    destruct (Hlist _ _ _ Hs2
                ltac:(rewrite (tfn_deprecated_ext _ _ _ Htfn); exact Hd) El)
      as (Ht & Hg & Hk2).
    destruct r2 as [[]|e|msg].
    + rewrite fn_pop in Hwalk. cbv [ret] in Hwalk. injection Hwalk as <- <-.
      specialize (Hk2 I). cbn [protomigrate.tfn protomigrate.stack protomigrate.diagnostics
                                 protomigrate.set_stack].
      split; [|split]; [congruence | exact Hg |].
      intros _. rewrite Hk2. unfold entered. cbn [protomigrate.stack]. lia.
    + injection Hwalk as <- <-. split; [|split]; [congruence | exact Hg | intros []].
    + injection Hwalk as <- <-. split; [|split]; [congruence | exact Hg | intros []].
  - destruct r1 as [[|]|e|msg]; try (exfalso; apply Hfail; exact I);
      injection Hwalk as <- <-;
      (split; [|split]; [exact Htfn | reflexivity | intros []]).
Qed.

Lemma expected_app ext pass l1 l2 :
  expected ext pass (l1 ++ l2) = expected ext pass l1 ++ expected ext pass l2.
Proof. unfold expected. apply flat_map_app. Qed.

Lemma state_eq t s d t' s' d' :
  t = t' -> s = s' -> d = d' ->
  {| protomigrate.tfn := t; protomigrate.stack := s; protomigrate.diagnostics := d |}
  = {| protomigrate.tfn := t'; protomigrate.stack := s'; protomigrate.diagnostics := d' |}.
Proof. intros -> -> ->. reflexivity. Qed.

(** Entering a node that is not a function declaration, under a function
    that is not deprecated: the node is reported if it is an eligible
    selector expression. *)
Lemma fn_push_reports ext pass node st :
  match ast.kind node with ast.FuncDecl _ _ => False | _ => True end ->
  is_Ok (reportable ext pass node) ->
  1 <= protomigrate.stack st ->
  protomigrate.tfn_deprecated pass st = false ->
  protomigrate.fn ext pass node true st
  = ({| protomigrate.tfn := protomigrate.tfn st;
        protomigrate.stack := protomigrate.stack st + 1;
        protomigrate.diagnostics :=
          protomigrate.diagnostics st ++ expected ext pass [node] |}, Ok true).
Proof.
  intros Hk Hok Hs Hd.
  pose proof (entered_tfn pass node st Hk Hs) as Htfn.
  assert (He : entered pass node st
               = {| protomigrate.tfn := protomigrate.tfn st;
                    protomigrate.stack := protomigrate.stack st + 1;
                    protomigrate.diagnostics := protomigrate.diagnostics st |}).
  { unfold entered in *. cbn [protomigrate.tfn] in Htfn. rewrite Htfn. reflexivity. }
  rewrite fn_push. unfold expected. cbn [flat_map]. rewrite app_nil_r.
  destruct (ast.kind node) eqn:Ek;
    try (unfold reportable; rewrite Ek, app_nil_r, He; reflexivity).
  rewrite (selector_reportable _ _ _ _ _ _ Ek).
  rewrite (tfn_deprecated_ext _ _ _ Htfn), Hd.
  destruct (reportable ext pass node) as [[msg|]|e|msg]; try contradiction.
  - rewrite He. reflexivity.
  - rewrite He, app_nil_r. reflexivity.
Qed.

(** Below a declaration and under a function that is not deprecated, the
    walk reports the eligible selector expressions, in order. *)
Lemma walk_reports ext pass n :
  below_declaration n ->
  Forall (fun m => is_Ok (reportable ext pass m)) (walk_order n) ->
  forall st,
    1 <= protomigrate.stack st ->
    protomigrate.tfn_deprecated pass st = false ->
    Nodes_node (protomigrate.fn ext pass) n st
    = ({| protomigrate.tfn := protomigrate.tfn st;
          protomigrate.stack := protomigrate.stack st;
          protomigrate.diagnostics :=
            protomigrate.diagnostics st ++ expected ext pass (walk_order n) |}, Ok tt).
Proof.
  induction n as [k ch IH] using Node_tree_ind. intros Hb Hok st Hs Hd.
  apply below_declaration_inv in Hb as [Hk Hch]. cbn [ast.kind ast.children] in Hk, Hch.
  rewrite walk_order_unfold in Hok. apply Forall_cons in Hok as [Hok Hoks].
  cbn [ast.children] in Hoks. apply Forall_flat_map_walk_order in Hoks.
  assert (Hlist : forall st1,
             1 <= protomigrate.stack st1 ->
             protomigrate.tfn_deprecated pass st1 = false ->
             forM_ (Nodes_node (protomigrate.fn ext pass)) ch st1
             = ({| protomigrate.tfn := protomigrate.tfn st1;
                   protomigrate.stack := protomigrate.stack st1;
                   protomigrate.diagnostics :=
                     protomigrate.diagnostics st1
                       ++ expected ext pass (flat_map walk_order ch) |}, Ok tt)).
  { clear Hok Hk. induction ch as [|c ch IHch]; intros st1 Hs1 Hd1.
    - cbn. destruct st1; cbn. rewrite app_nil_r. reflexivity.
    - apply Forall_cons in IH as [IHc IHrest]. apply Forall_cons in Hch as [Hc Hrest].
      apply Forall_cons in Hoks as [Hokc Hokrest].
      rewrite (forM_cons_Ok _ _ _ _ _ (IHc Hc Hokc st1 Hs1 Hd1)).
      rewrite (IHch IHrest Hrest Hokrest) by (cbn; assumption).
      cbn [flat_map protomigrate.tfn protomigrate.stack protomigrate.diagnostics].
      rewrite expected_app, app_assoc. reflexivity. }
  rewrite Nodes_node_unfold.
  rewrite (bind_Ok _ _ _ _ _ (fn_push_reports ext pass (ast.mkNode k ch) st
                                ltac:(destruct k; try exact I; contradiction) Hok Hs Hd)).
  cbn [ast.children].
  match goal with
  | |- bind _ _ ?s = _ =>
      assert (Hs1 : 1 <= protomigrate.stack s) by (cbn [protomigrate.stack]; lia);
      rewrite (bind_Ok _ _ _ _ _ (Hlist s Hs1 Hd))
  end.
  rewrite (bind_Ok _ _ _ _ _ (fn_pop _ _ _ _)).
  cbv [ret protomigrate.set_stack]. cbn [protomigrate.tfn protomigrate.stack
                                         protomigrate.diagnostics].
  f_equal. apply state_eq; [reflexivity | lia |].
  rewrite walk_order_unfold. cbn [ast.children].
  change (ast.mkNode k ch :: flat_map walk_order ch)
    with ([ast.mkNode k ch] ++ flat_map walk_order ch).
  rewrite expected_app, app_assoc. reflexivity.
Qed.

Lemma walk_reports_list ext pass l :
  Forall below_declaration l ->
  Forall (fun m => is_Ok (reportable ext pass m)) (flat_map walk_order l) ->
  forall st,
    1 <= protomigrate.stack st ->
    protomigrate.tfn_deprecated pass st = false ->
    forM_ (Nodes_node (protomigrate.fn ext pass)) l st
    = ({| protomigrate.tfn := protomigrate.tfn st;
          protomigrate.stack := protomigrate.stack st;
          protomigrate.diagnostics :=
            protomigrate.diagnostics st ++ expected ext pass (flat_map walk_order l) |},
       Ok tt).
Proof.
  intros Hb Hok. apply Forall_flat_map_walk_order in Hok.
  induction l as [|c l IH]; intros st Hs Hd.
  - cbn. destruct st; cbn. rewrite app_nil_r. reflexivity.
  - apply Forall_cons in Hb as [Hc Hrest]. apply Forall_cons in Hok as [Hokc Hokrest].
    rewrite (forM_cons_Ok _ _ _ _ _ (walk_reports ext pass c Hc Hokc st Hs Hd)).
    rewrite (IH Hrest Hokrest) by (cbn; assumption).
    cbn [flat_map protomigrate.tfn protomigrate.stack protomigrate.diagnostics].
    rewrite expected_app, app_assoc. reflexivity.
Qed.

Lemma walk_under_deprecated_list ext pass l :
  Forall below_declaration l ->
  forall st st' r,
    1 <= protomigrate.stack st ->
    protomigrate.tfn_deprecated pass st = true ->
    forM_ (Nodes_node (protomigrate.fn ext pass)) l st = (st', r) ->
    protomigrate.tfn st' = protomigrate.tfn st
    /\ protomigrate.diagnostics st' = protomigrate.diagnostics st
    /\ (is_Ok r -> protomigrate.stack st' = protomigrate.stack st).
Proof.
  induction 1 as [|c l Hc _ IH]; intros st st' r Hs Hd Hl.
  - cbn in Hl. injection Hl as <- <-. auto.
  - cbn [forM_] in Hl. unfold bind in Hl.
    destruct (Nodes_node _ c st) as [st3 r3] eqn:Ec.
    destruct (walk_under_deprecated ext pass c Hc st st3 r3 Hs Hd Ec) as (Ht & Hg & Hk3).
    destruct r3 as [[]|e|msg];
      try (injection Hl as <- <-; split; [|split]; [exact Ht | exact Hg | intros []]).
    specialize (Hk3 I).
    destruct (IH st3 st' r ltac:(lia)
                ltac:(rewrite (tfn_deprecated_ext _ _ _ Ht); exact Hd) Hl)
      as (Ht' & Hg' & Hk').
    split; [|split]; [congruence | congruence | intros Hok; rewrite (Hk' Hok); exact Hk3].
Qed.

Lemma fn_push_FuncDecl ext pass doc name body st :
  protomigrate.fn ext pass (ast.mkNode (ast.FuncDecl doc name) body) true st
  = ({| protomigrate.tfn := types.ObjectOf (analysis.TypesInfo pass) name;
        protomigrate.stack := protomigrate.stack st + 1;
        protomigrate.diagnostics := protomigrate.diagnostics st |}, Ok true).
Proof. rewrite fn_push. reflexivity. Qed.

Lemma In_expected ext pass l sel msg :
  In sel l -> reportable ext pass sel = Ok (Some msg) ->
  In {| analysis.Anchor := sel; analysis.Message := msg |} (expected ext pass l).
Proof.
  intros Hin Hr. unfold expected. apply in_flat_map. exists sel.
  split; [exact Hin|]. rewrite Hr. left. reflexivity.
Qed.

(** C3: below a function declaration whose own object carries a
    deprecation fact the walk reports nothing; below one that carries none
    it reports every eligible selector expression, among them any given
    one. *)
Theorem C3_self_use_exemption ext pass doc name body st :
  let decl := ast.mkNode (ast.FuncDecl doc name) body in
  let f := types.ObjectOf (analysis.TypesInfo pass) name in
  let deprs := facts.Objects (analysis.ResultOfDeprecated pass) in
  Forall below_declaration body ->
  0 <= protomigrate.stack st ->
  ((exists obj, f = Some obj /\ is_Some (deprs !! types.obj_ptr obj)) ->
   protomigrate.diagnostics (fst (Nodes_node (protomigrate.fn ext pass) decl st))
   = protomigrate.diagnostics st)
  /\ ((forall obj, f = Some obj -> deprs !! types.obj_ptr obj = None) ->
      Forall (fun m => is_Ok (reportable ext pass m)) (flat_map walk_order body) ->
      Nodes_node (protomigrate.fn ext pass) decl st
      = ({| protomigrate.tfn := f;
            protomigrate.stack := protomigrate.stack st;
            protomigrate.diagnostics :=
              protomigrate.diagnostics st
                ++ expected ext pass (flat_map walk_order body) |}, Ok tt)
      /\ forall sel msg,
          In sel (flat_map walk_order body) ->
          reportable ext pass sel = Ok (Some msg) ->
          In {| analysis.Anchor := sel; analysis.Message := msg |}
             (protomigrate.diagnostics
                (fst (Nodes_node (protomigrate.fn ext pass) decl st)))).
Proof.
  intros decl f deprs Hbody Hs. split.
  - intros (obj & Hf & Hfact). unfold decl.
    rewrite Nodes_node_unfold. rewrite (bind_Ok _ _ _ _ _ (fn_push_FuncDecl _ _ _ _ _ _)).
    cbn [ast.children]. unfold bind.
    match goal with
    | |- context [forM_ ?g body ?s] => destruct (forM_ g body s) as [st2 r2] eqn:El
    end.
    apply walk_under_deprecated_list in El as (_ & Hg & _);
      [| exact Hbody | cbn [protomigrate.stack]; lia |].
    + destruct r2 as [[]|e|msg]; cbn; exact Hg.
    + unfold protomigrate.tfn_deprecated. cbn [protomigrate.tfn]. fold f. rewrite Hf.
      apply bool_decide_eq_true. exact Hfact.
  - intros Hnone Hok.
    assert (Hwalk : Nodes_node (protomigrate.fn ext pass) decl st
                    = ({| protomigrate.tfn := f;
                          protomigrate.stack := protomigrate.stack st;
                          protomigrate.diagnostics :=
                            protomigrate.diagnostics st
                              ++ expected ext pass (flat_map walk_order body) |}, Ok tt)).
    { unfold decl. rewrite Nodes_node_unfold.
      rewrite (bind_Ok _ _ _ _ _ (fn_push_FuncDecl _ _ _ _ _ _)).
      cbn [ast.children].
      match goal with
      | |- bind _ _ ?s = _ =>
          assert (Hs1 : 1 <= protomigrate.stack s) by (cbn [protomigrate.stack]; lia);
          assert (Hd1 : protomigrate.tfn_deprecated pass s = false)
      end.
      { unfold protomigrate.tfn_deprecated. cbn [protomigrate.tfn]. fold f.
        destruct f as [obj|] eqn:Ef; [|reflexivity].
        apply bool_decide_eq_false. pose proof (Hnone obj eq_refl) as Hn.
        unfold deprs in Hn. rewrite Hn. intros [? ?]. discriminate. }
      rewrite (bind_Ok _ _ _ _ _ (walk_reports_list ext pass body Hbody Hok _ Hs1 Hd1)).
      rewrite (bind_Ok _ _ _ _ _ (fn_pop _ _ _ _)).
      cbv [ret protomigrate.set_stack].
      cbn [protomigrate.tfn protomigrate.stack protomigrate.diagnostics].
      f_equal. apply state_eq; [reflexivity | lia | reflexivity]. }
    split; [exact Hwalk|]. intros sel msg Hin Hr. rewrite Hwalk.
    cbn [fst protomigrate.diagnostics]. apply in_or_app. right.
    apply In_expected; assumption.
Qed.

Lemma C3_self_use_exemption_witness :
  protomigrate.diagnostics
    (fst (Nodes_node (protomigrate.fn sample.ext (sample.pass [sample.file_func_then_var]))
            sample.func_Old protomigrate.init)) = []
  /\ In {| analysis.Anchor := sample.dep_Sym;
           analysis.Message :=
             "dep.Sym is deprecated: use Other." |}
        (protomigrate.diagnostics
           (fst (Nodes_node (protomigrate.fn sample.ext (sample.pass [sample.file_func_then_var]))
                   sample.func_New protomigrate.init))).
Proof.
  split.
  - refine (proj1 (C3_self_use_exemption sample.ext (sample.pass [sample.file_func_then_var])
                     (Some sample.doc_Old) sample.id_Old _ protomigrate.init _ _) _).
    + unfold below_declaration. cbn. repeat constructor.
    + cbn. lia.
    + exists sample.obj_Old. split; [reflexivity|]. eexists. vm_compute. reflexivity.
  - refine (proj2 (proj2 (C3_self_use_exemption sample.ext
                            (sample.pass [sample.file_func_then_var])
                            None sample.id_New _ protomigrate.init _ _) _ _)
              sample.dep_Sym _ _ _).
    + unfold below_declaration. cbn. repeat constructor.
    + cbn. lia.
    + intros obj [= <-]. vm_compute. reflexivity.
    + cbn [flat_map walk_order ast.children app]. repeat constructor; vm_compute; exact I.
    + cbn. auto 10.
    + vm_compute. reflexivity.
Defined.


Lemma resolves_within_reportable ext pass m :
  resolves_within pass m -> reportable ext pass m = Ok None.
Proof.
  unfold resolves_within, reportable. destruct (ast.kind m); try reflexivity.
  intros (obj & pkg & -> & -> & Hown).
  replace (protomigrate.own_package pass pkg) with true; [reflexivity|].
  symmetry. unfold protomigrate.own_package. apply orb_true_iff.
  destruct Hown as [Hptr | Hpath]; [left | right].
  - apply Pos.eqb_eq. symmetry. exact Hptr.
  - apply String.eqb_eq. exact Hpath.
Qed.

Lemma fn_push_silent ext pass node st :
  reportable ext pass node = Ok None ->
  protomigrate.fn ext pass node true st = (entered pass node st, Ok true).
Proof.
  intros Hr. rewrite fn_push. destruct (ast.kind node) eqn:Ek; try reflexivity.
  rewrite (selector_reportable _ _ _ _ _ _ Ek), Hr. reflexivity.
Qed.

Lemma walk_silent ext pass n :
  Forall (fun m => reportable ext pass m = Ok None) (walk_order n) ->
  forall st st' r,
    Nodes_node (protomigrate.fn ext pass) n st = (st', r) ->
    protomigrate.diagnostics st' = protomigrate.diagnostics st /\ r = Ok tt.
Proof.
  induction n as [k ch IH] using Node_tree_ind. intros Hall st st' r Hwalk.
  rewrite walk_order_unfold in Hall. apply Forall_cons in Hall as [Hn Hch].
  cbn [ast.children] in Hch. apply Forall_flat_map_walk_order in Hch.
  assert (Hlist : forall st1 st2 r2,
             forM_ (Nodes_node (protomigrate.fn ext pass)) ch st1 = (st2, r2) ->
             protomigrate.diagnostics st2 = protomigrate.diagnostics st1 /\ r2 = Ok tt).
  { clear Hwalk Hn. induction ch as [|c ch IHch]; intros st1 st2 r2 Hl.
    - cbn in Hl. injection Hl as <- <-. auto.
    - apply Forall_cons in IH as [IHc IHrest]. apply Forall_cons in Hch as [Hc Hrest].
      cbn [forM_] in Hl. unfold bind in Hl.
      destruct (Nodes_node _ c st1) as [st3 r3] eqn:Ec.
      destruct (IHc Hc _ _ _ Ec) as [Hg ->].
      destruct (IHch IHrest Hrest _ _ _ Hl) as [Hg' ->]. split; congruence. }
  rewrite Nodes_node_unfold in Hwalk.
  rewrite (bind_Ok _ _ _ _ _ (fn_push_silent _ _ _ _ Hn)) in Hwalk.
  cbn [ast.children] in Hwalk. unfold bind in Hwalk.
  destruct (forM_ _ ch _) as [st2 r2] eqn:El.
  destruct (Hlist _ _ _ El) as [Hg ->].
  rewrite fn_pop in Hwalk. cbv [ret] in Hwalk. injection Hwalk as <- <-.
  split; [exact Hg | reflexivity].
Qed.

(** C4: a selector expression that resolves into the package under
    analysis, or into the package under test when the test package is
    analysed, is never reported, whatever facts its object carries; a
    package made of such selector expressions yields no diagnostic for
    them. *)
Theorem C4_no_self_flagging ext pass :
  (forall node X Sel,
      ast.kind node = ast.SelectorExpr X Sel ->
      resolves_within pass node ->
      forall st,
        snd (protomigrate.fn ext pass node true st) = Ok true
        /\ protomigrate.diagnostics (fst (protomigrate.fn ext pass node true st))
           = protomigrate.diagnostics st)
  /\ (forall files,
        Forall (fun file => Forall (resolves_within pass) (walk_order file)) files ->
        forall st,
          snd (Nodes files (protomigrate.fn ext pass) st) = Ok tt
          /\ protomigrate.diagnostics (fst (Nodes files (protomigrate.fn ext pass) st))
             = protomigrate.diagnostics st).
Proof.
  split.
  - intros node X Sel Hk Hown st.
    rewrite (fn_push_silent _ _ _ _ (resolves_within_reportable ext _ _ Hown)).
    split; reflexivity.
  - intros files Hfiles. unfold Nodes.
    induction Hfiles as [|file files Hfile _ IH]; intros st; [split; reflexivity|].
    cbn [forM_]. unfold bind.
    destruct (Nodes_node _ file st) as [st1 r1] eqn:E1.
    apply walk_silent in E1 as [Hg ->].
    + destruct (IH st1) as [Hr Hd]. split; [exact Hr | congruence].
    + eapply Forall_impl; [exact Hfile|]. intros m. apply resolves_within_reportable.
Qed.

Lemma C4_no_self_flagging_witness :
  protomigrate.diagnostics
    (fst (protomigrate.fn sample.ext sample.test_pass sample.app_Old true
            protomigrate.init)) = [].
Proof.
  refine (proj2 (proj1 (C4_no_self_flagging sample.ext sample.test_pass) sample.app_Old
                   (Some sample.id_app) sample.id_Old eq_refl _ protomigrate.init)).
  exists sample.obj_Old, sample.app. split; [reflexivity|]. split; [reflexivity|].
  right. reflexivity.
Defined.

(** ** Version gating *)

Lemma IsGoVersion_flag pass target minor :
  analysis.GoFlag pass = Some target ->
  protomigrate.IsGoVersion pass minor = Ok (minor <=? target).
Proof.
  intros H. unfold protomigrate.IsGoVersion. rewrite H, Z.geb_leb. reflexivity.
Qed.

Lemma versionGate_eligible ext pass target entry :
  sentinels ext ->
  analysis.GoFlag pass = Some target ->
  0 <= target ->
  well_formed_entry ext entry ->
  protomigrate.versionGate ext pass entry = Ok (eligible (known ext <$> entry) target).
Proof.
  intros (Hnu & Hunl) Hflag Htarget Hwf.
  destruct entry as [std|]; [|reflexivity].
  unfold protomigrate.versionGate, eligible, well_formed_entry, known in *.
  cbn [fmap option_fmap option_map policy deprecatedSinceVersion] in *.
  rewrite !(IsGoVersion_flag _ _ _ Hflag).
  destruct (Z.eqb_spec (knowledge.AlternativeAvailableSince std) (DeprecatedNeverUse ext))
    as [E1|N1].
  - rewrite E1. replace (DeprecatedNeverUse ext <=? target) with true; [reflexivity|].
    symmetry. apply Z.leb_le. lia.
  - destruct (Z.eqb_spec (knowledge.AlternativeAvailableSince std)
                (DeprecatedUseNoLonger ext)) as [E2|N2].
    + destruct (knowledge.DeprecatedSince std <=? target); [|reflexivity].
      rewrite E2. f_equal. apply Z.leb_le. lia.
    + destruct (Z.ltb_spec (knowledge.AlternativeAvailableSince std) 0) as [Hneg|_]; [lia|].
      destruct (knowledge.AlternativeAvailableSince std <=? target); reflexivity.
Qed.

(** C1: for a selector expression whose object carries a fact, the version
    gate of the code is the three-way policy: [NeverUse] is eligible at any
    target version, [UseNoLonger] from the version of the deprecation on,
    [SinceVersion v] from [v] on, and a name without entry is not gated.
    Outside a deprecated function the selector expression is reported
    exactly when it is eligible. *)
Theorem C1_three_way_policy ext pass :
  protomigrate.versionGate ext pass None = Ok true
  /\ forall target entry,
      sentinels ext ->
      analysis.GoFlag pass = Some target ->
      0 <= target ->
      well_formed_entry ext entry ->
      protomigrate.versionGate ext pass entry = Ok (eligible (known ext <$> entry) target)
      /\ (forall std,
            entry = Some std ->
            match policy (known ext std) with
            | NeverUse => protomigrate.versionGate ext pass entry = Ok true
            | UseNoLonger =>
                protomigrate.versionGate ext pass entry
                = Ok (knowledge.DeprecatedSince std <=? target)
            | SinceVersion v =>
                protomigrate.versionGate ext pass entry = Ok (v <=? target)
            end)
      /\ forall node X Sel obj pkg depr name st,
          ast.kind node = ast.SelectorExpr X Sel ->
          types.ObjectOf (analysis.TypesInfo pass) Sel = Some obj ->
          types.Pkg obj = Some pkg ->
          protomigrate.own_package pass pkg = false ->
          facts.Objects (analysis.ResultOfDeprecated pass) !! types.obj_ptr obj = Some depr ->
          protomigrate.SelectorName pass X Sel = Ok name ->
          StdlibDeprecations ext !! name = entry ->
          protomigrate.tfn_deprecated pass st = false ->
          protomigrate.selector ext pass node X Sel st
          = (if eligible (known ext <$> entry) target
             then fst (protomigrate.Report node (protomigrate.message ext node entry depr) st)
             else st, Ok true).
Proof.
  split; [reflexivity|].
  intros target entry Hsent Hflag Htarget Hwf.
  pose proof (versionGate_eligible ext pass target entry Hsent Hflag Htarget Hwf) as Hgate.
  split; [exact Hgate|]. split.
  - intros std ->. rewrite Hgate. unfold eligible. cbn [fmap option_fmap option_map].
    destruct (policy (known ext std)); reflexivity.
  - intros node X Sel obj pkg depr name st Hk Hobj Hpkg Hown Hfact Hname Hentry Hd.
    rewrite (selector_reportable _ _ _ _ _ _ Hk). unfold reportable.
    rewrite Hk, Hobj, Hpkg, Hown, Hfact, Hname, Hentry, Hgate, Hd.
    destruct (eligible _ target); reflexivity.
Qed.

Lemma C1_three_way_policy_witness :
  protomigrate.versionGate sample.ext (sample.pass []) (Some sample.entry_6_3) = Ok true
  /\ protomigrate.versionGate sample.ext (sample.older_pass []) (Some sample.entry_6_3)
     = Ok false.
Proof.
  split.
  - refine (proj1 (proj2 (C1_three_way_policy sample.ext (sample.pass [])) 4
                     (Some sample.entry_6_3) _ _ _ _)).
    + unfold sentinels. cbn. lia.
    + reflexivity.
    + lia.
    + cbn. lia.
  - refine (proj1 (proj2 (C1_three_way_policy sample.ext (sample.older_pass [])) 2
                     (Some sample.entry_6_3) _ _ _ _)).
    + unfold sentinels. cbn. lia.
    + reflexivity.
    + lia.
    + cbn. lia.
Defined.

(** ** Imports *)

Lemma slice_inner p :
  (2 <= String.length p)%nat ->
  slice p 1 (Z.of_nat (String.length p) - 1)
  = Ok (String.substring 1 (String.length p - 2) p).
Proof.
  intros H. unfold slice.
  replace (_ && _ && _) with true.
  - f_equal. f_equal. lia.
  - symmetry. rewrite !andb_true_iff. repeat split; apply Z.leb_le; lia.
Qed.

(** [fn2] on an import that resolves to a package and whose path literal
    holds its two quotes. *)
Lemma fn2_resolved pass spec node imp st :
  let p := ast.Value (ast.Path spec) in
  let path := String.substring 1 (String.length p - 2) p in
  ast.kind node = ast.ImportSpecNode spec ->
  match ast.ImportName spec with
  | Some name => types.ObjectOf (analysis.TypesInfo pass) name
  | None => types.Implicits (analysis.TypesInfo pass) spec
  end ≫= types.Imported = Some imp ->
  (2 <= String.length p)%nat ->
  protomigrate.fn2 pass node st
  = match facts.Packages (analysis.ResultOfDeprecated pass) !! types.pkg_ptr imp with
    | Some depr =>
        (if String.eqb path protomigrate.proto_path
            && match protomigrate.Generator pass (ast.ValuePos (ast.Path spec)) with
               | Some gen => facts.Generator_eqb gen facts.ProtocGenGo
               | None => false
               end
         then ret tt
         else protomigrate.Report node
                ("package " +:+ path +:+ " is deprecated: " +:+ facts.Msg depr)) st
    | None => (st, Ok tt)
    end.
Proof.
  intros p path Hk Himp Hlen. unfold protomigrate.fn2. rewrite Hk.
  assert (Hres : match ast.ImportName spec with
                 | Some name =>
                     protomigrate.imported_package
                       (types.ObjectOf (analysis.TypesInfo pass) name)
                 | None =>
                     protomigrate.imported_package
                       (types.Implicits (analysis.TypesInfo pass) spec)
                 end = Ok imp).
  { unfold protomigrate.imported_package.
    destruct (ast.ImportName spec); rewrite Himp; reflexivity. }
  rewrite Hres. unfold bind at 1. cbn [lift].
  fold p. rewrite (slice_inner p Hlen). fold path. unfold bind at 1. cbn [lift].
  destruct (facts.Packages _ !! _); [|reflexivity].
  destruct (String.eqb path protomigrate.proto_path); reflexivity.
Qed.

(** C2: an import of a package that carries a deprecation fact is reported
    once, as [package <path> is deprecated: <message>], at the import;
    nothing is reported when the path is that of the legacy
    protocol-buffer runtime and the file is classified as written by the
    protocol-buffer compiler. *)
Theorem C2_deprecated_import pass spec node imp depr st :
  let p := ast.Value (ast.Path spec) in
  let path := String.substring 1 (String.length p - 2) p in
  let file := analysis.Filename pass (ast.ValuePos (ast.Path spec)) in
  let generated :=
    path = protomigrate.proto_path
    /\ analysis.ResultOfGenerated pass !! file = Some facts.ProtocGenGo in
  ast.kind node = ast.ImportSpecNode spec ->
  match ast.ImportName spec with
  | Some name => types.ObjectOf (analysis.TypesInfo pass) name
  | None => types.Implicits (analysis.TypesInfo pass) spec
  end ≫= types.Imported = Some imp ->
  facts.Packages (analysis.ResultOfDeprecated pass) !! types.pkg_ptr imp = Some depr ->
  (2 <= String.length p)%nat ->
  (generated -> protomigrate.fn2 pass node st = (st, Ok tt))
  /\ (~ generated ->
      protomigrate.fn2 pass node st
      = ({| protomigrate.tfn := protomigrate.tfn st;
            protomigrate.stack := protomigrate.stack st;
            protomigrate.diagnostics :=
              protomigrate.diagnostics st
                ++ [{| analysis.Anchor := node;
                       analysis.Message :=
                         "package " +:+ path +:+ " is deprecated: " +:+ facts.Msg depr |}] |},
         Ok tt)).
Proof.
  intros p path file generated Hk Himp Hfact Hlen.
  rewrite (fn2_resolved pass spec node imp st Hk Himp Hlen), Hfact.
  fold p path. unfold protomigrate.Generator. fold file. split.
  - intros [Hpath Hgen]. rewrite Hpath, Hgen, String.eqb_refl. reflexivity.
  - intros Hnot.
    destruct (String.eqb_spec path protomigrate.proto_path) as [Hpath|Hpath];
      [|reflexivity].
    cbn [andb].
    destruct (analysis.ResultOfGenerated pass !! file) as [[|tag]|] eqn:Eg;
      try reflexivity.
    exfalso. apply Hnot. split; [exact Hpath | reflexivity].
Qed.

Lemma C2_deprecated_import_witness :
  protomigrate.fn2 (sample.pass []) (sample.leaf (ast.ImportSpecNode sample.import_proto_generated))
    protomigrate.init
  = (protomigrate.init, Ok tt)
  /\ protomigrate.diagnostics
       (fst (protomigrate.fn2 (sample.pass [])
               (sample.leaf (ast.ImportSpecNode sample.import_proto)) protomigrate.init))
     = [{| analysis.Anchor := sample.leaf (ast.ImportSpecNode sample.import_proto);
           analysis.Message :=
             "package github.com/golang/protobuf/proto is deprecated: use google.golang.org/protobuf." |}].
Proof.
  split.
  - refine (proj1 (C2_deprecated_import (sample.pass []) sample.import_proto_generated
                     (sample.leaf (ast.ImportSpecNode sample.import_proto_generated))
                     sample.proto {| facts.Msg := "use google.golang.org/protobuf." |}
                     protomigrate.init eq_refl eq_refl _ _) _).
    + vm_compute. reflexivity.
    + apply Nat.leb_le. vm_compute. reflexivity.
    + split; vm_compute; reflexivity.
  - rewrite (proj2 (C2_deprecated_import (sample.pass []) sample.import_proto
                      (sample.leaf (ast.ImportSpecNode sample.import_proto))
                      sample.proto {| facts.Msg := "use google.golang.org/protobuf." |}
                      protomigrate.init eq_refl eq_refl
                      ltac:(vm_compute; reflexivity)
                      ltac:(apply Nat.leb_le; vm_compute; reflexivity))).
    + reflexivity.
    + intros [_ H]. vm_compute in H. discriminate.
Defined.

(** ** Errors *)



Lemma forM_check {S A} (g : A -> M S unit) l :
  (forall x, stateless_check (g x)) -> stateless_check (forM_ g l).
Proof.
  intros Hg. induction l as [|x l IH]; [left; reflexivity|].
  cbn [forM_]. destruct (Hg x) as [Hok | [e He]].
  - destruct IH as [IHok | [e IHe]]; [left | right; exists e]; intros st;
      rewrite (bind_Ok _ _ _ _ _ (Hok st)); auto.
  - right. exists e. intros st. unfold bind. rewrite He. reflexivity.
Qed.

Lemma forM_check_fails {S A} (g : A -> M S unit) l x :
  (forall y, stateless_check (g y)) ->
  In x l ->
  (exists e, forall st, g x st = (st, Err e)) ->
  exists e, forall st, forM_ g l st = (st, Err e).
Proof.
  intros Hg Hin Hx. induction l as [|y l IH]; [destruct Hin|].
  cbn [forM_]. destruct Hin as [-> | Hin].
  - destruct Hx as [e He]. exists e. intros st. unfold bind. rewrite He. reflexivity.
  - destruct (Hg y) as [Hok | [e He]].
    + destruct (IH Hin) as [e He]. exists e. intros st.
      rewrite (bind_Ok _ _ _ _ _ (Hok st)). apply He.
    + exists e. intros st. unfold bind. rewrite He. reflexivity.
Qed.

Lemma unquote_check ext (imp : ast.ImportSpec) :
  @stateless_check protomigrate.State
    match Unquote ext (ast.Value (ast.Path imp)) with
    | inr err => lift (Err err)
    | inl _ => ret tt
    end.
Proof.
  destruct (Unquote ext _) as [path|err]; [left | right; exists err]; reflexivity.
Qed.

Lemma run_fails ext pass file imp err :
  In file (analysis.Files pass) ->
  In imp (ast.FileImports file) ->
  Unquote ext (ast.Value (ast.Path imp)) = inr err ->
  exists e, protomigrate.run ext pass = (protomigrate.init, Err e).
Proof.
  intros Hfile Himp Herr.
  unfold protomigrate.run, protomigrate.run_body.
  destruct (forM_check_fails
              (fun file : ast.Node =>
                 forM_ (fun imp : ast.ImportSpec =>
                          match Unquote ext (ast.Value (ast.Path imp)) with
                          | inr err => lift (Err err)
                          | inl _ => @ret protomigrate.State unit tt
                          end) (ast.FileImports file))
              (analysis.Files pass) file) as [e He].
  - intros f. apply forM_check. intros i. apply unquote_check.
  - exact Hfile.
  - apply (forM_check_fails _ _ imp); [intros i; apply unquote_check | exact Himp |].
    exists err. intros st. rewrite Herr. reflexivity.
  - exists e. unfold bind at 1. rewrite He. reflexivity.
Qed.

Lemma never_errs_ret {S A} (a : A) : never_errs (@ret S A a).
Proof. intros st e. discriminate. Qed.

Lemma never_errs_panic {S A} msg : never_errs (@panic S A msg).
Proof. intros st e. discriminate. Qed.

Lemma never_errs_modify {S} (f : S -> S) : never_errs (modify f).
Proof. intros st e. discriminate. Qed.

Lemma never_errs_get {S} : never_errs (@get_state S).
Proof. intros st e. discriminate. Qed.

Lemma never_errs_lift {S A} (r : result A) :
  (forall e, r <> Err e) -> never_errs (@lift S A r).
Proof. intros H st e. apply H. Qed.

Lemma never_errs_bind {S A B} (m : M S A) (f : A -> M S B) :
  never_errs m -> (forall a, never_errs (f a)) -> never_errs (bind m f).
Proof.
  intros Hm Hf st e. unfold bind. specialize (Hm st).
  destruct (m st) as [st' [a|e'|msg]]; cbn [snd] in *.
  - apply Hf.
  - exfalso. apply (Hm e'). reflexivity.
  - discriminate.
Qed.

Lemma never_errs_forM {S A} (g : A -> M S unit) l :
  (forall x, never_errs (g x)) -> never_errs (forM_ g l).
Proof.
  intros Hg. induction l as [|x l IH]; cbn [forM_].
  - apply never_errs_ret.
  - apply never_errs_bind; [apply Hg | intros _; exact IH].
Qed.

Lemma never_errs_Nodes_node {S} (f : ast.Node -> bool -> M S bool) :
  (forall n push, never_errs (f n push)) -> forall n, never_errs (Nodes_node f n).
Proof.
  intros Hf. induction n as [k ch IH] using Node_tree_ind.
  rewrite Nodes_node_unfold. apply never_errs_bind; [apply Hf|].
  intros [|]; [|apply never_errs_ret].
  apply never_errs_bind.
  - cbn [ast.children]. induction IH as [|c ch Hc _ IHch]; cbn [forM_].
    + apply never_errs_ret.
    + apply never_errs_bind; [exact Hc | intros _; exact IHch].
  - intros _. apply never_errs_bind; [apply Hf | intros _; apply never_errs_ret].
Qed.

Lemma Preorder_node_unfold {S} types (f : ast.Node -> M S unit) n :
  Preorder_node types f n
  = (let* _ := (if types (ast.kind n) then f n else ret tt) in
     forM_ (Preorder_node types f) (ast.children n)).
Proof. destruct n; reflexivity. Qed.

Lemma never_errs_Preorder_node {S} types (f : ast.Node -> M S unit) :
  (forall n, never_errs (f n)) -> forall n, never_errs (Preorder_node types f n).
Proof.
  intros Hf. induction n as [k ch IH] using Node_tree_ind.
  rewrite Preorder_node_unfold. apply never_errs_bind.
  - destruct (types _); [apply Hf | apply never_errs_ret].
  - intros _. cbn [ast.children]. induction IH as [|c ch Hc _ IHch]; cbn [forM_].
    + apply never_errs_ret.
    + apply never_errs_bind; [exact Hc | intros _; exact IHch].
Qed.

Lemma SelectorName_no_error pass X Sel e : protomigrate.SelectorName pass X Sel <> Err e.
Proof.
  unfold protomigrate.SelectorName.
  destruct (types.Selections _ _); [discriminate|].
  destruct X as [x|]; [|discriminate].
  destruct (_ ≫= _); discriminate.
Qed.

Lemma IsGoVersion_no_error pass minor e : protomigrate.IsGoVersion pass minor <> Err e.
Proof. unfold protomigrate.IsGoVersion. destruct (analysis.GoFlag pass); discriminate. Qed.

Lemma versionGate_no_error ext pass std e : protomigrate.versionGate ext pass std <> Err e.
Proof.
  unfold protomigrate.versionGate. destruct std as [std|]; [|discriminate].
  pose proof (IsGoVersion_no_error pass) as Hv.
  destruct (_ =? DeprecatedNeverUse ext); [apply Hv|].
  destruct (_ =? DeprecatedUseNoLonger ext).
  - destruct (protomigrate.IsGoVersion pass (knowledge.DeprecatedSince std))
      as [[|]|e'|msg] eqn:E; try discriminate; [apply Hv|].
    exfalso. apply (Hv _ _ E).
  - destruct (_ <? 0); [discriminate|].
    destruct (protomigrate.IsGoVersion pass (knowledge.AlternativeAvailableSince std))
      as [[|]|e'|msg] eqn:E; try discriminate.
    exfalso. apply (Hv _ _ E).
Qed.

Lemma never_errs_fn ext pass n push : never_errs (protomigrate.fn ext pass n push).
Proof.
  unfold protomigrate.fn. destruct push; cbn [negb].
  2:{ apply never_errs_bind; [apply never_errs_modify | intros _; apply never_errs_ret]. }
  apply never_errs_bind; [apply never_errs_modify|]. intros _.
  apply never_errs_bind; [apply never_errs_get|]. intros st.
  apply never_errs_bind.
  { destruct (_ =? 1); [apply never_errs_modify | apply never_errs_ret]. }
  intros _. apply never_errs_bind.
  { destruct (ast.kind n); apply never_errs_ret || apply never_errs_modify. }
  intros _. destruct (ast.kind n); try apply never_errs_ret.
  unfold protomigrate.selector.
  destruct (types.ObjectOf _ Sel) as [obj|]; [|apply never_errs_panic].
  destruct (types.Pkg obj) as [pkg|]; [|apply never_errs_ret].
  destruct (protomigrate.own_package pass pkg); [apply never_errs_ret|].
  destruct (facts.Objects _ !! _) as [depr|]; [|apply never_errs_ret].
  apply never_errs_bind; [apply never_errs_lift, SelectorName_no_error|]. intros name.
  apply never_errs_bind; [apply never_errs_lift, versionGate_no_error|]. intros [|]; cbn [negb];
    [|apply never_errs_ret].
  apply never_errs_bind; [apply never_errs_get|]. intros st'.
  destruct (protomigrate.tfn_deprecated pass st'); [apply never_errs_ret|].
  apply never_errs_bind; [apply never_errs_modify | intros _; apply never_errs_ret].
Qed.

Lemma never_errs_fn2 pass n : never_errs (protomigrate.fn2 pass n).
Proof.
  unfold protomigrate.fn2. destruct (ast.kind n); try apply never_errs_panic.
  apply never_errs_bind.
  { apply never_errs_lift. intros e. unfold protomigrate.imported_package.
    destruct (ast.ImportName spec); destruct (_ ≫= _); discriminate. }
  intros imp. apply never_errs_bind.
  { apply never_errs_lift. intros e. unfold slice. destruct (_ && _); discriminate. }
  intros path. destruct (facts.Packages _ !! _) as [depr|]; [|apply never_errs_ret].
  match goal with |- never_errs (if ?b then _ else _) => destruct b end;
    [apply never_errs_ret | apply never_errs_modify].
Qed.

Lemma checkDeprecated_no_error ext pass e :
  snd (protomigrate.checkDeprecated ext pass) <> Err e.
Proof.
  unfold protomigrate.checkDeprecated, protomigrate.checkDeprecated_body.
  apply never_errs_bind.
  - apply never_errs_forM. intros n. apply never_errs_Nodes_node. apply never_errs_fn.
  - intros _. apply never_errs_bind; [|intros _; apply never_errs_ret].
    apply never_errs_forM. intros n. apply never_errs_Preorder_node. apply never_errs_fn2.
Qed.


Lemma fn_push_Ok ext pass node st :
  is_Ok (reportable ext pass node) ->
  snd (protomigrate.fn ext pass node true st) = Ok true.
Proof.
  intros Hok. rewrite fn_push. destruct (ast.kind node) eqn:Ek; try reflexivity.
  rewrite (selector_reportable _ _ _ _ _ _ Ek).
  destruct (reportable ext pass node) as [[msg|]|e|msg]; try contradiction; [|reflexivity].
  destruct (protomigrate.tfn_deprecated pass _); reflexivity.
Qed.

(** C7: [run] answers an import whose path literal cannot be unquoted with
    an error, before anything is reported; [checkDeprecated] never returns
    an error, and a selector expression without fact or without entry in
    the table of known deprecations, in or outside a function, and an
    import without fact or without generator classification are passed
    over without failure. *)
Theorem C7_failure_semantics ext pass :
  (forall file imp err,
      In file (analysis.Files pass) ->
      In imp (ast.FileImports file) ->
      Unquote ext (ast.Value (ast.Path imp)) = inr err ->
      exists e, protomigrate.run ext pass = (protomigrate.init, Err e))
  /\ (forall e, snd (protomigrate.checkDeprecated ext pass) <> Err e)
  /\ (forall node X Sel obj st,
        ast.kind node = ast.SelectorExpr X Sel ->
        types.ObjectOf (analysis.TypesInfo pass) Sel = Some obj ->
        facts.Objects (analysis.ResultOfDeprecated pass) !! types.obj_ptr obj = None
        \/ (exists name,
              protomigrate.SelectorName pass X Sel = Ok name
              /\ StdlibDeprecations ext !! name = None) ->
        snd (protomigrate.fn ext pass node true st) = Ok true)
  /\ (forall node spec imp st,
        ast.kind node = ast.ImportSpecNode spec ->
        match ast.ImportName spec with
        | Some name => types.ObjectOf (analysis.TypesInfo pass) name
        | None => types.Implicits (analysis.TypesInfo pass) spec
        end ≫= types.Imported = Some imp ->
        (2 <= String.length (ast.Value (ast.Path spec)))%nat ->
        snd (protomigrate.fn2 pass node st) = Ok tt).
Proof.
  split; [|split; [|split]].
  - intros file imp err. apply run_fails.
  - intros e. apply checkDeprecated_no_error.
  - intros node X Sel obj st Hk Hobj Hmissing. apply fn_push_Ok.
    unfold reportable. rewrite Hk, Hobj.
    destruct (types.Pkg obj) as [pkg|]; [|exact I].
    destruct (protomigrate.own_package pass pkg); [exact I|].
    destruct Hmissing as [-> | (name & -> & ->)]; [exact I|].
    destruct (facts.Objects _ !! _); exact I.
  - intros node spec imp st Hk Himp Hlen.
    rewrite (fn2_resolved pass spec node imp st Hk Himp Hlen).
    destruct (facts.Packages _ !! _); [|reflexivity].
    match goal with |- snd ((if ?b then _ else _) _) = _ => destruct b end; reflexivity.
Qed.

Lemma C7_failure_semantics_witness :
  exists e,
    protomigrate.run sample.ext
      (sample.pass [sample.file [sample.import_malformed] [sample.func_New]])
    = (protomigrate.init, Err e).
Proof.
  refine (proj1 (C7_failure_semantics sample.ext _) _ sample.import_malformed
            "invalid syntax" _ _ _).
  - left. reflexivity.
  - left. reflexivity.
  - reflexivity.
Defined.

(** ** The enclosing function at top level *)

(** Once a walk has left a deprecated function declaration, [tfn] still
    holds it: what follows in the file is walked as if it stood inside the
    function. *)
Lemma walk_deprecated_function ext pass doc name obj body st st' r :
  types.ObjectOf (analysis.TypesInfo pass) name = Some obj ->
  is_Some (facts.Objects (analysis.ResultOfDeprecated pass) !! types.obj_ptr obj) ->
  Forall below_declaration body ->
  0 <= protomigrate.stack st ->
  Nodes_node (protomigrate.fn ext pass) (ast.mkNode (ast.FuncDecl doc name) body) st
  = (st', r) ->
  protomigrate.tfn st' = Some obj
  /\ protomigrate.diagnostics st' = protomigrate.diagnostics st
  /\ (is_Ok r -> protomigrate.stack st' = protomigrate.stack st).
Proof.
  intros Hobj Hfact Hbody Hs Hwalk.
  rewrite Nodes_node_unfold in Hwalk.
  rewrite (bind_Ok _ _ _ _ _ (fn_push_FuncDecl _ _ _ _ _ _)) in Hwalk.
  cbn [ast.children] in Hwalk. unfold bind in Hwalk.
  match type of Hwalk with
  | context [forM_ ?g body ?s] =>
      assert (Hd : protomigrate.tfn_deprecated pass s = true);
      [| destruct (forM_ g body s) as [st2 r2] eqn:El ]
  end.
  { unfold protomigrate.tfn_deprecated. cbn [protomigrate.tfn]. rewrite Hobj.
    apply bool_decide_eq_true. exact Hfact. }
  apply walk_under_deprecated_list in El as (Ht & Hg & Hk);
    [| exact Hbody | cbn [protomigrate.stack]; lia | exact Hd].
  cbn [protomigrate.tfn protomigrate.stack protomigrate.diagnostics] in Ht, Hg, Hk.
  rewrite Hobj in Ht.
  destruct r2 as [[]|e|msg].
  - specialize (Hk I). rewrite fn_pop in Hwalk. cbv [ret] in Hwalk.
    injection Hwalk as <- <-.
    cbn [protomigrate.tfn protomigrate.stack protomigrate.diagnostics
           protomigrate.set_stack].
    split; [|split]; [exact Ht | exact Hg | intros _; lia].
  - injection Hwalk as <- <-. split; [|split]; [exact Ht | exact Hg | intros []].
  - injection Hwalk as <- <-. split; [|split]; [exact Ht | exact Hg | intros []].
Qed.

Lemma declarations_after_deprecated_function ext pass doc name obj body rest st st' r :
  types.ObjectOf (analysis.TypesInfo pass) name = Some obj ->
  is_Some (facts.Objects (analysis.ResultOfDeprecated pass) !! types.obj_ptr obj) ->
  Forall below_declaration body ->
  Forall below_declaration rest ->
  1 <= protomigrate.stack st ->
  forM_ (Nodes_node (protomigrate.fn ext pass))
    (ast.mkNode (ast.FuncDecl doc name) body :: rest) st = (st', r) ->
  protomigrate.diagnostics st' = protomigrate.diagnostics st.
Proof.
  intros Hobj Hfact Hbody Hrest Hs Hwalk.
  cbn [forM_] in Hwalk. unfold bind in Hwalk.
  destruct (Nodes_node _ _ st) as [st1 r1] eqn:E1.
  apply (walk_deprecated_function _ _ _ _ obj) in E1 as (Ht & Hg & Hk);
    [| assumption | assumption | assumption | lia].
  destruct r1 as [[]|e|msg]; try (injection Hwalk as <- <-; exact Hg).
  specialize (Hk I).
  apply walk_under_deprecated_list in Hwalk as (_ & Hg' & _);
    [congruence | exact Hrest | lia |].
  unfold protomigrate.tfn_deprecated. rewrite Ht.
  apply bool_decide_eq_true. exact Hfact.
Qed.

(** C6, on the code: in a file that declares the deprecated function [Old]
    and then the package-level variable [var _ = dep.Sym], the selector
    expression is eligible, yet [checkDeprecated] ends with [tfn] still at
    [Old] and without diagnostic; with the variable declared first the
    diagnostic is reported. *)
Theorem C6_tfn_not_reset_at_top_level :
  reportable sample.ext (sample.pass [sample.file_func_then_var]) sample.dep_Sym
  = Ok (Some "dep.Sym is deprecated: use Other.")
  /\ protomigrate.checkDeprecated sample.ext (sample.pass [sample.file_func_then_var])
     = ({| protomigrate.tfn := Some sample.obj_Old;
           protomigrate.stack := 0;
           protomigrate.diagnostics := [] |}, Ok tt)
  /\ protomigrate.diagnostics
       (fst (protomigrate.checkDeprecated sample.ext
               (sample.pass [sample.file_var_then_func])))
     = [{| analysis.Anchor := sample.dep_Sym;
           analysis.Message :=
             "dep.Sym is deprecated: use Other." |}].
Proof. split; [|split]; vm_compute; reflexivity. Qed.


(** ** Further properties of the fact extractor *)

Lemma sp_not_nl : strings.sp <> strings.nl.
Proof. intros H. vm_compute in H. discriminate H. Qed.

Lemma newlines_to_spaces_single_line s : single_line (newlines_to_spaces s).
Proof.
  unfold single_line. induction s as [|c s IH]; cbn; constructor; [|exact IH].
  destruct (Ascii.eqb c strings.nl) eqn:E; [exact sp_not_nl|].
  apply Ascii.eqb_neq, E.
Qed.

Lemma newlines_to_spaces_id s : single_line s -> newlines_to_spaces s = s.
Proof.
  unfold single_line. induction s as [|c s IH]; cbn; [reflexivity|].
  intros H. inversion H as [|? ? Hc Hs]; subst.
  apply Ascii.eqb_neq in Hc. rewrite Hc, (IH Hs). reflexivity.
Qed.

Lemma first_marked_single_line ps alt :
  extractor.first_marked ps = Some alt -> single_line alt.
Proof.
  induction ps as [|p ps IH]; cbn [extractor.first_marked]; [discriminate|].
  destruct (strings.HasPrefix p extractor.marker); cbn [negb]; [|exact IH].
  rewrite ReplaceAll_newline. intros [= <-]. apply newlines_to_spaces_single_line.
Qed.

Lemma extract_single_line docs :
  single_line (extractor.extractDeprecatedMessage docs).
Proof.
  induction docs as [|[doc|] docs IH]; cbn [extractor.extractDeprecatedMessage];
    [constructor| |exact IH].
  destruct (extractor.first_marked _) eqn:E; [|exact IH].
  exact (first_marked_single_line _ _ E).
Qed.

Lemma first_marked_None_inv ps :
  extractor.first_marked ps = None -> Forall unmarked ps.
Proof.
  induction ps as [|p ps IH]; cbn [extractor.first_marked]; [constructor|].
  destruct (strings.HasPrefix p extractor.marker) eqn:E; cbn [negb]; [discriminate|].
  intros H. constructor; [exact E | exact (IH H)].
Qed.

Lemma extract_unmarked docs :
  Forall no_marker docs -> extractor.extractDeprecatedMessage docs = EmptyString.
Proof.
  induction 1 as [|[d|] docs Hd _ IH]; cbn [app extractor.extractDeprecatedMessage];
    [reflexivity| |exact IH].
  unfold no_marker in Hd. rewrite (first_marked_none _ Hd). exact IH.
Qed.

Lemma extract_app_unmarked d1 d2 :
  Forall no_marker d1 ->
  extractor.extractDeprecatedMessage (d1 ++ d2) = extractor.extractDeprecatedMessage d2.
Proof.
  induction 1 as [|[d|] docs Hd _ IH]; cbn [app extractor.extractDeprecatedMessage];
    [reflexivity| |exact IH].
  unfold no_marker in Hd. rewrite (first_marked_none _ Hd). exact IH.
Qed.

Lemma extract_app_marked d1 d2 :
  ~ Forall no_marker d1 ->
  extractor.extractDeprecatedMessage (d1 ++ d2) = extractor.extractDeprecatedMessage d1.
Proof.
  induction d1 as [|[d|] d1 IH]; cbn [app extractor.extractDeprecatedMessage]; intros H.
  - destruct H. constructor.
  - destruct (extractor.first_marked _) eqn:E; [reflexivity|].
    apply IH. intros Hd1. apply H. constructor; [|exact Hd1].
    exact (first_marked_None_inv _ E).
  - apply IH. intros Hd1. apply H. constructor; [exact I | exact Hd1].
Qed.

(** X1: the message of a declaration is decided by the first comment group
    that has a marked paragraph: groups without one are passed over, and
    whatever follows a group with one is not read. *)
Theorem extract_first_marked_group d1 d2 :
  (Forall no_marker d1 ->
   extractor.extractDeprecatedMessage (d1 ++ d2) = extractor.extractDeprecatedMessage d2)
  /\ (~ Forall no_marker d1 ->
      extractor.extractDeprecatedMessage (d1 ++ d2)
      = extractor.extractDeprecatedMessage d1).
Proof. split; [apply extract_app_unmarked | apply extract_app_marked]. Qed.

Lemma extract_first_marked_group_witness :
  extractor.extractDeprecatedMessage
    ([None; Some sample.doc_plain] ++ [Some sample.doc_Old; Some sample.doc_Foo])
  = extractor.extractDeprecatedMessage [Some sample.doc_Old; Some sample.doc_Foo]
  /\ extractor.extractDeprecatedMessage ([Some sample.doc_Old] ++ [Some sample.doc_Foo])
     = extractor.extractDeprecatedMessage [Some sample.doc_Old].
Proof.
  split.
  - apply (proj1 (extract_first_marked_group _ _)).
    repeat constructor; unfold no_marker, unmarked; vm_compute; repeat constructor.
  - apply (proj2 (extract_first_marked_group _ _)).
    intros H. inversion H as [|? ? Hd _]; subst.
    unfold no_marker in Hd. vm_compute in Hd.
    inversion Hd as [|? ? _ Hd']; subst. inversion Hd' as [|? ? Hm _]; subst.
    discriminate Hm.
Defined.

Lemma preserves_doDocs_gen (I : extractor.State -> Prop) pass names docs :
  (forall st o docs,
      extractor.extractDeprecatedMessage docs <> EmptyString -> I st ->
      I (add_facts [(o, {| facts.Msg := extractor.extractDeprecatedMessage docs |})] st)) ->
  preserves I (extractor.doDocs pass names docs).
Proof.
  intros HI. unfold extractor.doDocs.
  destruct (String.eqb _ _) eqn:E; [apply preserves_ret|].
  apply extract_nonempty_eqb in E.
  apply preserves_forM, Forall_forall. intros name _.
  destruct (types.ObjectOf _ name) as [o|]; cbn [extractor.ExportObjectFact].
  - apply preserves_modify. intros st H. exact (HI st o docs E H).
  - intros st H. exact H.
Qed.

Lemma preserves_finish_gen (I : extractor.State -> Prop) pass r :
  (forall st v, I st -> I (extractor.set_names v st)) ->
  (forall st v, I st -> I (extractor.set_docs v st)) ->
  (forall st o docs,
      extractor.extractDeprecatedMessage docs <> EmptyString -> I st ->
      I (add_facts [(o, {| facts.Msg := extractor.extractDeprecatedMessage docs |})] st)) ->
  preserves I (extractor.finish pass r).
Proof.
  intros Hn Hd HI. unfold extractor.finish. apply preserves_bind; [apply preserves_get|].
  intros st. destruct (_ || _); [apply preserves_ret|].
  apply preserves_bind; [apply preserves_doDocs_gen, HI|]. intros _.
  apply preserves_bind; [apply preserves_modify; intros ? H; apply Hd, H|]. intros _.
  apply preserves_bind; [apply preserves_modify; intros ? H; apply Hn, H|]. intros _.
  apply preserves_ret.
Qed.

Lemma preserves_fn_gen (I : extractor.State -> Prop) pass node :
  (forall st v, I st -> I (extractor.set_names v st)) ->
  (forall st v, I st -> I (extractor.set_docs v st)) ->
  (forall st o docs,
      extractor.extractDeprecatedMessage docs <> EmptyString -> I st ->
      I (add_facts [(o, {| facts.Msg := extractor.extractDeprecatedMessage docs |})] st)) ->
  preserves I (extractor.fn pass node).
Proof.
  intros Hn Hd HI.
  assert (Ha : forall d, preserves I (modify (extractor.append_doc d))).
  { intros d. apply preserves_modify. intros st H. apply Hd, H. }
  assert (Hs : forall v, preserves I (modify (extractor.set_names v))).
  { intros v. apply preserves_modify. intros st H. apply Hn, H. }
  destruct node as [[k ch]|]; [|apply preserves_ret].
  unfold extractor.fn. cbn [ast.kind].
  destruct k; try apply preserves_ret.
  - destruct tok; try apply preserves_ret;
      (apply preserves_bind; [apply Ha|]; intros _; apply preserves_ret).
  - apply preserves_bind; [apply Ha|]. intros _.
    apply preserves_bind; [apply Hs|]. intros _.
    apply preserves_finish_gen; assumption.
  - apply preserves_bind; [apply Ha|]. intros _.
    apply preserves_bind; [apply Hs|]. intros _.
    apply preserves_finish_gen; assumption.
  - apply preserves_bind; [apply Ha|]. intros _.
    apply preserves_bind; [apply Hs|]. intros _.
    apply preserves_finish_gen; assumption.
  - apply preserves_bind; [|intros _; apply preserves_ret].
    apply preserves_forM, Forall_forall. intros ? _. apply preserves_doDocs_gen, HI.
  - apply preserves_bind; [|intros _; apply preserves_ret].
    apply preserves_forM, Forall_forall. intros ? _. apply preserves_doDocs_gen, HI.
Qed.

Lemma preserves_walk_gen (I : extractor.State -> Prop) pass files :
  (forall st v, I st -> I (extractor.set_names v st)) ->
  (forall st v, I st -> I (extractor.set_docs v st)) ->
  (forall st o docs,
      extractor.extractDeprecatedMessage docs <> EmptyString -> I st ->
      I (add_facts [(o, {| facts.Msg := extractor.extractDeprecatedMessage docs |})] st)) ->
  preserves I (forM_ (Inspect (extractor.fn pass)) files).
Proof.
  intros Hn Hd HI. apply preserves_forM, Forall_forall. intros ? _.
  apply preserves_Inspect. intros ?. apply preserves_fn_gen; assumption.
Qed.

Lemma facts_satisfy_deprecated_body (P : string -> Prop) pass :
  (forall docs, extractor.extractDeprecatedMessage docs <> EmptyString ->
                P (extractor.extractDeprecatedMessage docs)) ->
  preserves (facts_satisfy P) (extractor.deprecated_body pass).
Proof.
  intros HP. unfold extractor.deprecated_body.
  apply preserves_bind.
  { apply preserves_forM, Forall_forall. intros ? _.
    apply preserves_modify. intros ? H; exact H. }
  intros _. apply preserves_bind; [apply preserves_get|]. intros st.
  apply preserves_bind.
  { destruct (String.eqb _ _) eqn:E; cbn [negb]; [apply preserves_ret|].
    apply extract_nonempty_eqb, HP in E.
    apply preserves_modify. intros st' [Ho Hp]. split; cbn; [exact Ho|].
    apply Forall_app. split; [exact Hp|]. constructor; [exact E|constructor]. }
  intros _. apply preserves_bind; [apply preserves_modify; intros ? H; exact H|].
  intros _. apply preserves_bind.
  { apply preserves_walk_gen.
    - intros ? ? H. exact H.
    - intros ? ? H. exact H.
    - intros st' o docs E [Ho Hp]. split; cbn; [|exact Hp].
      apply Forall_app. split; [exact Ho|]. constructor; [apply HP, E|constructor]. }
  intros _. apply preserves_bind; [apply preserves_get|]. intros; apply preserves_ret.
Qed.

(** X2: a message is a single line: the newlines of the marked paragraph
    are turned into spaces, so that no message the extractor returns and no
    fact it exports, for an object or for the package, holds a newline. *)
Theorem messages_are_single_line :
  (forall docs, single_line (extractor.extractDeprecatedMessage docs))
  /\ (forall pass, facts_satisfy single_line (fst (extractor.deprecated pass))).
Proof.
  split; [exact extract_single_line|].
  intros pass. apply facts_satisfy_deprecated_body.
  - intros docs _. apply extract_single_line.
  - split; constructor.
Qed.

Lemma HasPrefix_app p s : strings.HasPrefix (p +:+ s) p = true.
Proof.
  induction p as [|c p IH]; [destruct s; reflexivity|].
  simpl. rewrite Ascii.eqb_refl. exact IH.
Qed.

Lemma drop_app p s : strings.drop (String.length p) (p +:+ s) = s.
Proof. induction p as [|c p IH]; [reflexivity | exact IH]. Qed.

Lemma single_line_HasPrefix s : single_line s -> strings.HasPrefix s extractor.blank_line = false.
Proof.
  unfold single_line. destruct s as [|c s]; cbn; [reflexivity|].
  intros H. inversion H as [|? ? Hc _]; subst.
  apply Ascii.eqb_neq in Hc. rewrite Hc. reflexivity.
Qed.

Lemma append_empty s : s +:+ EmptyString = s.
Proof.
  induction s as [|c s IH]; [reflexivity|].
  change (String c (s +:+ EmptyString) = String c s). f_equal. exact IH.
Qed.

Lemma string_of_list_snoc l c s :
  string_of_list_ascii (l ++ [c]) +:+ s = string_of_list_ascii l +:+ String c s.
Proof.
  induction l as [|a l IH]; [reflexivity|].
  change (String a (string_of_list_ascii (l ++ [c]) +:+ s)
          = String a (string_of_list_ascii l +:+ String c s)).
  f_equal. exact IH.
Qed.

Lemma split_single_line cur s :
  single_line s ->
  strings.split_from extractor.blank_line 0 cur s
  = [string_of_list_ascii (rev cur) +:+ s].
Proof.
  revert cur. induction s as [|c s IH]; intros cur H.
  - cbn [strings.split_from]. rewrite append_empty. reflexivity.
  - cbn [strings.split_from]. rewrite (single_line_HasPrefix _ H).
    unfold single_line in H. cbn in H. inversion H as [|? ? _ Hs]; subst.
    rewrite (IH (c :: cur) Hs). cbn [rev]. rewrite string_of_list_snoc. reflexivity.
Qed.

Lemma Split_single_line s :
  single_line s -> strings.Split s extractor.blank_line = [s].
Proof. intros H. exact (split_single_line [] s H). Qed.

Lemma single_line_app s t : single_line s -> single_line t -> single_line (s +:+ t).
Proof.
  unfold single_line. induction s as [|c s IH]; cbn; intros Hs Ht; [exact Ht|].
  inversion Hs; subst. constructor; [assumption | apply IH; assumption].
Qed.

Lemma extract_String d :
  single_line (facts.Msg d) ->
  extractor.extractDeprecatedMessage [Some {| ast.Text := facts.String d |}]
  = facts.Msg d.
Proof.
  intros H. cbn [extractor.extractDeprecatedMessage ast.Text].
  rewrite Split_single_line.
  - unfold facts.String. cbn [extractor.first_marked].
    change "Deprecated: " with extractor.marker.
    rewrite HasPrefix_app. cbn [negb]. rewrite drop_app, ReplaceAll_newline.
    rewrite (newlines_to_spaces_id _ H). reflexivity.
  - unfold facts.String. apply single_line_app; [|exact H].
    unfold single_line. vm_compute. repeat constructor; discriminate.
Qed.

(** X3: the extractor reads back what [String] prints: a comment whose
    text is the [String] form of a fact yields the message of the fact,
    if the message is a single line; so it does for every message the
    extractor has itself returned. *)
Theorem String_is_read_back :
  (forall d,
      single_line (facts.Msg d) ->
      extractor.extractDeprecatedMessage [Some {| ast.Text := facts.String d |}]
      = facts.Msg d)
  /\ (forall docs,
        let d := {| facts.Msg := extractor.extractDeprecatedMessage docs |} in
        extractor.extractDeprecatedMessage [Some {| ast.Text := facts.String d |}]
        = extractor.extractDeprecatedMessage docs).
Proof.
  split; [exact extract_String|].
  intros docs d. apply (extract_String d). apply extract_single_line.
Qed.

Lemma String_is_read_back_witness :
  extractor.extractDeprecatedMessage
    [Some {| ast.Text := facts.String {| facts.Msg := "use New." |} |}]
  = "use New.".
Proof.
  apply (proj1 String_is_read_back {| facts.Msg := "use New." |}).
  unfold single_line. vm_compute. repeat constructor; discriminate.
Defined.

Lemma bind_ext_on {S A B} (m : M S A) (f g : A -> M S B) st :
  (forall a st', m st = (st', Ok a) -> f a st' = g a st') ->
  bind m f st = bind m g st.
Proof.
  intros H. unfold bind. destruct (m st) as [st' [a|e|msg]]; try reflexivity.
  apply H. reflexivity.
Qed.

Lemma finish_false pass st st' b :
  extractor.finish pass false st = (st', Ok b) -> b = false.
Proof.
  unfold extractor.finish. intros H.
  apply bind_Ok_inv in H as (s0 & st0 & Hg & H).
  destruct (_ || _).
  - cbv [ret] in H. congruence.
  - do 3 (apply bind_Ok_inv in H as (? & ? & _ & H)). cbv [ret] in H. congruence.
Qed.

Lemma fn_opaque pass k ch st st' b :
  opaque_for_extractor k ->
  extractor.fn pass (Some (ast.mkNode k ch)) st = (st', Ok b) -> b = false.
Proof.
  unfold extractor.fn. cbn [ast.kind].
  destruct k; cbn [opaque_for_extractor]; intros Hk H; try contradiction;
    try (cbv [ret] in H; congruence).
  - subst tok. cbv [ret] in H. congruence.
  - do 2 (apply bind_Ok_inv in H as (? & ? & _ & H)). exact (finish_false _ _ _ _ H).
  - do 2 (apply bind_Ok_inv in H as (? & ? & _ & H)). exact (finish_false _ _ _ _ H).
  - apply bind_Ok_inv in H as (? & ? & _ & H). cbv [ret] in H. congruence.
  - apply bind_Ok_inv in H as (? & ? & _ & H). cbv [ret] in H. congruence.
Qed.

(** X4: the extractor looks below files, type specs and the general
    declarations of types, constants and variables only.  Below any other
    node, a function declaration or an import declaration among them,
    nothing is read: the walk ends as it does on the node without children. *)
Theorem extractor_reads_declarations_only pass k ch st :
  opaque_for_extractor k ->
  Inspect (extractor.fn pass) (ast.mkNode k ch) st
  = Inspect (extractor.fn pass) (ast.mkNode k []) st.
Proof.
  intros Hk. rewrite !Inspect_unfold.
  change (extractor.fn pass (Some (ast.mkNode k []))) with
    (extractor.fn pass (Some (ast.mkNode k ch))).
  apply bind_ext_on. intros b st' E.
  rewrite (fn_opaque _ _ _ _ _ _ Hk E). reflexivity.
Qed.

Lemma extractor_reads_declarations_only_witness :
  Inspect (extractor.fn (sample.bare_pass [])) sample.func_Old extractor.init
  = Inspect (extractor.fn (sample.bare_pass []))
      (ast.mkNode (ast.FuncDecl (Some sample.doc_Old) sample.id_Old) []) extractor.init.
Proof.
  apply (extractor_reads_declarations_only (sample.bare_pass [])
           (ast.FuncDecl (Some sample.doc_Old) sample.id_Old)).
  exact I.
Defined.

Lemma Inspect_empty_group pass gdoc tok st :
  tok <> token.IMPORT ->
  Inspect (extractor.fn pass) (ast.mkNode (ast.GenDecl gdoc tok) []) st
  = (extractor.append_doc gdoc st, Ok tt).
Proof.
  intros Htok.
  apply Inspect_proceed with (st1 := extractor.append_doc gdoc st); try reflexivity.
  unfold extractor.fn. cbn [ast.kind]. destruct tok; try reflexivity. contradiction.
Qed.

(** X5: a grouped declaration without a spec, as [var ()], leaves its
    comment behind: the comment is read as part of the documentation of
    the declaration that follows, here a function, which is marked if the
    comment of the empty group holds the marker. *)
Theorem empty_group_comment_is_carried_over pass gdoc tok doc name ch st :
  tok <> token.IMPORT ->
  resolved pass [name] ->
  forM_ (Inspect (extractor.fn pass))
    [ast.mkNode (ast.GenDecl gdoc tok) []; ast.mkNode (ast.FuncDecl doc name) ch] st
  = (extractor.set_names []
       (extractor.set_docs []
          (add_facts (facts_of pass [name] (extractor.docs st ++ [gdoc; doc])) st)),
     Ok tt).
Proof.
  intros Htok Hname.
  rewrite (forM_cons_Ok _ _ _ _ _ (Inspect_empty_group pass gdoc tok st Htok)).
  cbn [forM_]. unfold bind. rewrite (Inspect_FuncDecl _ _ _ _ _ Hname).
  cbv [ret]. f_equal.
  destruct st as [n d o p]. unfold extractor.append_doc, extractor.set_docs,
    extractor.set_names, add_facts.
  cbn [extractor.names extractor.docs extractor.objectFacts extractor.packageFacts].
  rewrite <- app_assoc. reflexivity.
Qed.

Lemma empty_group_comment_is_carried_over_witness :
  forM_ (Inspect (extractor.fn (sample.bare_pass [])))
    [ast.mkNode (ast.GenDecl (Some sample.doc_group) token.VAR) []; sample.func_New]
    extractor.init
  = (add_facts [(sample.obj_New, {| facts.Msg := "use the flags." |})] extractor.init,
     Ok tt).
Proof.
  refine (eq_trans
            (empty_group_comment_is_carried_over (sample.bare_pass [])
               (Some sample.doc_group) token.VAR None sample.id_New _ extractor.init _ _) _).
  - discriminate.
  - repeat constructor. eexists. reflexivity.
  - vm_compute. reflexivity.
Defined.

Lemma file_docs_gathered l st :
  forM_ (fun f => modify (extractor.append_doc (ast.FileDoc f))) l st
  = (extractor.set_docs (extractor.docs st ++ (ast.FileDoc <$> l)) st, Ok tt).
Proof.
  revert st. induction l as [|f l IH]; intros st; cbn [forM_ fmap list_fmap].
  - rewrite app_nil_r. destruct st; reflexivity.
  - unfold bind, modify at 1. rewrite IH. f_equal.
    destruct st as [n d o p]. unfold extractor.append_doc, extractor.set_docs.
    cbn [extractor.names extractor.docs extractor.objectFacts extractor.packageFacts].
    rewrite <- app_assoc. reflexivity.
Qed.

Lemma fst_bind_Ok {S A B} (m : M S A) (f : A -> M S B) st st' a :
  m st = (st', Ok a) -> fst (bind m f st) = fst (f a st').
Proof. intros H. rewrite (bind_Ok _ _ _ _ _ H). reflexivity. Qed.

Lemma packageFacts_after_walk pass files L :
  preserves (fun st => extractor.packageFacts st = L)
    (forM_ (Inspect (extractor.fn pass)) files).
Proof.
  apply preserves_walk_gen.
  - intros ? ? H. exact H.
  - intros ? ? H. exact H.
  - intros ? ? ? _ H. exact H.
Qed.

(** X6: the fact of the package is read from the doc comments of the
    files, taken together and in order, before the declarations are
    walked; the walk exports no fact for the package.  So at most one
    such fact is exported, and the result maps the package to it, over
    whatever the dependencies said of the same address. *)
Theorem package_fact_from_file_docs pass :
  let st := fst (extractor.deprecated pass) in
  let alt := package_message pass in
  extractor.packageFacts st
  = (if String.eqb alt EmptyString then [] else [{| facts.Msg := alt |}])
  /\ extractor.AllPackageFacts pass st
     = (if String.eqb alt EmptyString then analysis.ImportedPackageFacts pass
        else <[types.pkg_ptr (analysis.Pkg pass) := {| facts.Msg := alt |}]>
               (analysis.ImportedPackageFacts pass)).
Proof.
  intros st alt.
  assert (H : extractor.packageFacts st
              = (if String.eqb alt EmptyString then [] else [{| facts.Msg := alt |}])).
  { subst st. unfold extractor.deprecated, extractor.deprecated_body.
    rewrite (fst_bind_Ok _ _ _ _ _ (file_docs_gathered _ _)).
    unfold bind at 1, get_state at 1.
    cbn [extractor.docs extractor.set_docs extractor.init app].
    fold (package_message pass). fold alt.
    destruct (String.eqb alt EmptyString) eqn:E; cbn [negb].
    - unfold bind at 1, ret at 1. unfold bind at 1, modify at 1.
      apply (preserves_bind (fun st => extractor.packageFacts st = [])).
      + apply packageFacts_after_walk.
      + intros _. apply preserves_bind; [apply preserves_get | intros; apply preserves_ret].
      + reflexivity.
    - unfold bind at 1, extractor.ExportPackageFact, modify at 1.
      unfold bind at 1, modify at 1.
      apply (preserves_bind (fun st => extractor.packageFacts st = [{| facts.Msg := alt |}])).
      + apply packageFacts_after_walk.
      + intros _. apply preserves_bind; [apply preserves_get | intros; apply preserves_ret].
      + reflexivity. }
  split; [exact H|].
  unfold extractor.AllPackageFacts. rewrite H.
  destruct (String.eqb alt EmptyString); reflexivity.
Qed.

Lemma AllObjectFacts_exported pass st o f :
  (o, f) ∈ extractor.objectFacts st ->
  exists o' f',
    extractor.AllObjectFacts pass st !! types.obj_ptr o = Some f'
    /\ (o', f') ∈ extractor.objectFacts st
    /\ types.obj_ptr o' = types.obj_ptr o.
Proof.
  unfold extractor.AllObjectFacts.
  induction (extractor.objectFacts st) as [|[o1 f1] l IH] using rev_ind.
  - intros H. inversion H.
  - intros H. rewrite foldl_app. cbn [foldl]. rewrite lookup_insert.
    case_decide as E.
    + exists o1, f1. split; [reflexivity|]. split; [|exact E].
      apply elem_of_app. right. apply list_elem_of_singleton. reflexivity.
    + apply elem_of_app in H as [H|H].
      * destruct (IH H) as (o' & f' & Hl & Hin & Hp).
        exists o', f'. split; [exact Hl|]. split; [|exact Hp].
        apply elem_of_app. left. exact Hin.
      * apply list_elem_of_singleton in H. injection H as -> ->. contradiction.
Qed.

Lemma AllObjectFacts_others pass st key :
  (forall o f, (o, f) ∈ extractor.objectFacts st -> types.obj_ptr o <> key) ->
  extractor.AllObjectFacts pass st !! key = analysis.ImportedObjectFacts pass !! key.
Proof.
  unfold extractor.AllObjectFacts.
  induction (extractor.objectFacts st) as [|[o1 f1] l IH] using rev_ind; intros H.
  - reflexivity.
  - rewrite foldl_app. cbn [foldl]. rewrite lookup_insert_ne.
    + apply IH. intros o f Hin. apply (H o f). apply elem_of_app. left. exact Hin.
    + apply (H o1 f1). apply elem_of_app. right. apply list_elem_of_singleton. reflexivity.
Qed.

(** X7: the result of the pass holds, at the address of every object the
    pass has exported a fact for, a fact exported for that address; at any
    other address it holds what the dependencies of the package said. *)
Theorem result_holds_exported_facts pass st out :
  extractor.deprecated pass = (st, Ok out) ->
  (forall o f,
      (o, f) ∈ extractor.objectFacts st ->
      exists o' f',
        facts.Objects out !! types.obj_ptr o = Some f'
        /\ (o', f') ∈ extractor.objectFacts st
        /\ types.obj_ptr o' = types.obj_ptr o)
  /\ (forall key,
        (forall o f, (o, f) ∈ extractor.objectFacts st -> types.obj_ptr o <> key) ->
        facts.Objects out !! key = analysis.ImportedObjectFacts pass !! key).
Proof.
  intros H. rewrite (deprecated_result _ _ _ H). cbn [facts.Objects].
  split; [apply AllObjectFacts_exported | apply AllObjectFacts_others].
Qed.

Lemma result_holds_exported_facts_witness :
  let pass := sample.bare_pass [sample.file_func_then_var] in
  exists out,
    snd (extractor.deprecated pass) = Ok out
    /\ facts.Objects out !! 100%positive = Some {| facts.Msg := "use New." |}
    /\ facts.Objects out !! 200%positive = Some {| facts.Msg := "use Other." |}.
Proof.
  intros pass.
  destruct (extractor.deprecated pass) as [st [out| |]] eqn:E; try (vm_compute in E; discriminate E).
  exists out. split; [reflexivity|].
  pose proof (result_holds_exported_facts pass st out E) as [H1 H2].
  assert (Est : st = fst (extractor.deprecated pass)) by (rewrite E; reflexivity).
  split.
  - destruct (H1 sample.obj_Old {| facts.Msg := "use New." |}) as (o' & f' & Hl & Hin & _).
    { rewrite Est. vm_compute. constructor. }
    rewrite Est in Hin. vm_compute in Hin. apply list_elem_of_singleton in Hin.
    injection Hin as -> ->. exact Hl.
  - rewrite (H2 200%positive); [reflexivity|].
    intros o f Hin. rewrite Est in Hin. vm_compute in Hin.
    apply list_elem_of_singleton in Hin. injection Hin as -> ->. discriminate.
Defined.

Lemma doDocs_unmarked pass names docs st :
  Forall no_marker docs -> extractor.doDocs pass names docs st = (st, Ok tt).
Proof.
  intros H. unfold extractor.doDocs. rewrite (extract_unmarked _ H). reflexivity.
Qed.

Lemma finish_unmarked pass r st :
  extractor.docs st <> [] ->
  Forall no_marker (extractor.docs st) ->
  extractor.objectFacts st = [] ->
  extractor.packageFacts st = [] ->
  exists st', extractor.finish pass r st = (st', Ok r) /\ nothing_exported st'.
Proof.
  intros Hne Hd Ho Hp. unfold extractor.finish, bind at 1, get_state at 1.
  destruct st as [n d o p].
  cbn [extractor.names extractor.docs extractor.objectFacts extractor.packageFacts] in *.
  destruct n as [|n0 n]; cbn [List.length Nat.eqb orb].
  - eexists. split; [reflexivity|]. repeat split; assumption.
  - destruct d as [|d0 d]; [contradiction|]. cbn [List.length Nat.eqb orb].
    unfold bind at 1. rewrite (doDocs_unmarked _ _ _ _ Hd).
    eexists. split; [reflexivity|]. repeat split; try assumption. constructor.
Qed.

Lemma fn_unmarked pass n st :
  Forall no_marker (docs_at n) ->
  nothing_exported st ->
  exists st' b, extractor.fn pass (Some n) st = (st', Ok b) /\ nothing_exported st'.
Proof.
  destruct n as [k ch]. unfold docs_at. cbn [ast.kind].
  intros Hdocs (Hn & Hd & Ho & Hp).
  assert (Hfin : forall doc nms r,
             no_marker doc ->
             exists st',
               (let* _ := modify (extractor.append_doc doc) in
                let* _ := modify (extractor.set_names nms) in
                extractor.finish pass r) st = (st', Ok r) /\ nothing_exported st').
  { intros doc nms r Hdoc. unfold bind at 1, modify at 1. unfold bind at 1, modify at 1.
    apply finish_unmarked.
    - cbn. destruct (extractor.docs st); discriminate.
    - cbn. apply Forall_app. split; [exact Hd|]. constructor; [exact Hdoc|constructor].
    - exact Ho.
    - exact Hp. }
  assert (Hfields : forall fields,
             Forall no_marker (ast.Doc <$> fields) ->
             (let* _ := forM_ (fun field =>
                                 extractor.doDocs pass (ast.Names field) [ast.Doc field])
                          fields in ret false) st = (st, Ok false)).
  { intros fields Hf. unfold bind. rewrite forM_identity; [reflexivity|].
    pose proof (proj1 (Forall_fmap _ _ _) Hf) as Hf'.
    eapply Forall_impl; [exact Hf'|].
    intros field Hfield st0. cbn in Hfield. apply doDocs_unmarked. constructor; [exact Hfield|constructor]. }
  unfold extractor.fn. cbn [ast.kind].
  destruct k;
    try (exists st; eexists; split; [reflexivity|]; repeat split; assumption).
  - destruct tok;
      try (exists st; eexists; split; [reflexivity|]; repeat split; assumption);
      (eexists; eexists; split; [reflexivity|]; repeat split; cbn; try assumption;
       apply Forall_app; split; [exact Hd|];
       inversion Hdocs; subst; constructor; [assumption|constructor]).
  - inversion Hdocs; subst. destruct (Hfin doc [name] false) as (st' & E & H); [assumption|].
    exists st', false. split; assumption.
  - inversion Hdocs; subst. destruct (Hfin doc [name] true) as (st' & E & H); [assumption|].
    exists st', true. split; assumption.
  - inversion Hdocs; subst. destruct (Hfin doc names false) as (st' & E & H); [assumption|].
    exists st', false. split; assumption.
  - exists st, false. split; [apply Hfields, Hdocs|]. repeat split; assumption.
  - exists st, false. split; [apply Hfields, Hdocs|]. repeat split; assumption.
Qed.

Lemma forM_Ok_inv {S A} (I : S -> Prop) (g : A -> M S unit) l :
  Forall (fun x => forall st, I st -> exists st', g x st = (st', Ok tt) /\ I st') l ->
  forall st, I st -> exists st', forM_ g l st = (st', Ok tt) /\ I st'.
Proof.
  induction 1 as [|x l Hx _ IH]; intros st H; cbn [forM_].
  - exists st. split; [reflexivity | exact H].
  - destruct (Hx st H) as (st1 & E1 & H1). unfold bind. rewrite E1.
    apply IH, H1.
Qed.

Lemma Inspect_unmarked pass n :
  unmarked_tree n ->
  forall st, nothing_exported st ->
  exists st', Inspect (extractor.fn pass) n st = (st', Ok tt) /\ nothing_exported st'.
Proof.
  induction n as [k ch IH] using Node_tree_ind. intros Htree st Hst.
  unfold unmarked_tree in Htree. rewrite walk_order_unfold in Htree.
  inversion Htree as [|? ? Hroot Hch]; subst.
  cbn [ast.children] in Hch. apply Forall_flat_map_walk_order in Hch.
  destruct (fn_unmarked pass (ast.mkNode k ch) st Hroot Hst) as (st1 & b & E1 & H1).
  rewrite Inspect_unfold. unfold bind at 1. rewrite E1.
  destruct b; [|exists st1; split; [reflexivity | exact H1]].
  assert (Hwalk : exists st2,
             forM_ (Inspect (extractor.fn pass)) ch st1 = (st2, Ok tt)
             /\ nothing_exported st2).
  { apply (forM_Ok_inv nothing_exported); [|exact H1].
    clear -IH Hch. induction IH as [|c ch Hc _ IHch]; [constructor|].
    inversion Hch; subst. constructor; [|apply IHch; assumption].
    intros st Hst. apply Hc; assumption. }
  destruct Hwalk as (st2 & E2 & H2).
  cbn [ast.children]. unfold bind at 1. rewrite E2.
  exists st2. split; [reflexivity | exact H2].
Qed.

(** X8: a package none of whose doc comments has a paragraph that begins
    with the marker is given no fact at all: the pass ends well, even
    where a name does not resolve, it exports nothing, and its result is
    what the dependencies of the package said. *)
Theorem unmarked_package_exports_nothing pass :
  Forall unmarked_tree (analysis.Files pass) ->
  exists st,
    extractor.deprecated pass
    = (st, Ok {| facts.Objects := analysis.ImportedObjectFacts pass;
                 facts.Packages := analysis.ImportedPackageFacts pass |})
    /\ extractor.objectFacts st = []
    /\ extractor.packageFacts st = [].
Proof.
  intros Hfiles. unfold extractor.deprecated, extractor.deprecated_body.
  rewrite (bind_Ok _ _ _ _ _ (file_docs_gathered _ _)).
  unfold bind at 1, get_state at 1.
  cbn [extractor.docs extractor.set_docs extractor.init app].
  rewrite extract_unmarked.
  2:{ apply (proj2 (Forall_fmap _ _ _)). eapply Forall_impl; [exact Hfiles|].
      intros [k ch] H. unfold compose. unfold unmarked_tree in H. rewrite walk_order_unfold in H.
      inversion H as [|? ? Hroot _]; subst.
      unfold ast.FileDoc, docs_at in *. cbn [ast.kind] in *.
      destruct k; try exact I. inversion Hroot; subst. assumption. }
  cbn [String.eqb negb]. unfold bind at 1, ret at 1. unfold bind at 1, modify at 1.
  destruct (forM_Ok_inv nothing_exported (Inspect (extractor.fn pass)) (analysis.Files pass))
    with (st := extractor.init) as (st & E & Hn & Hd & Ho & Hp).
  - eapply Forall_impl; [exact Hfiles|]. intros n Hn st Hst.
    apply Inspect_unmarked; assumption.
  - repeat split; constructor.
  - exists st. unfold bind at 1.
    change (extractor.set_docs [] _) with extractor.init. rewrite E.
    unfold bind, get_state, ret, extractor.AllObjectFacts, extractor.AllPackageFacts.
    rewrite Ho, Hp. repeat split.
Qed.

Lemma unmarked_package_exports_nothing_witness :
  snd (extractor.deprecated
         (sample.bare_pass [sample.file [sample.import_dep] [sample.func_New; sample.var_Sym]]))
  = Ok {| facts.Objects := {[ 200%positive := {| facts.Msg := "use Other." |} ]};
          facts.Packages :=
            {[ 3%positive := {| facts.Msg := "use google.golang.org/protobuf." |} ]} |}.
Proof.
  destruct (unmarked_package_exports_nothing
              (sample.bare_pass
                 [sample.file [sample.import_dep] [sample.func_New; sample.var_Sym]]))
    as (st & E & _).
  - unfold unmarked_tree, no_marker, unmarked.
    vm_compute. repeat constructor.
  - rewrite E. reflexivity.
Defined.


Lemma never_errs_Inspect {S} (f : option ast.Node -> M S bool) :
  (forall n, never_errs (f n)) -> forall n, never_errs (Inspect f n).
Proof.
  intros Hf. induction n as [k ch IH] using Node_tree_ind.
  rewrite Inspect_unfold. apply never_errs_bind; [apply Hf|].
  intros [|]; [|apply never_errs_ret].
  apply never_errs_bind.
  - cbn [ast.children]. induction IH as [|c ch Hc _ IHch]; cbn [forM_].
    + apply never_errs_ret.
    + apply never_errs_bind; [exact Hc | intros _; exact IHch].
  - intros _. apply never_errs_bind; [apply Hf | intros _; apply never_errs_ret].
Qed.

Lemma never_errs_doDocs pass names docs : never_errs (extractor.doDocs pass names docs).
Proof.
  unfold extractor.doDocs. destruct (String.eqb _ _); [apply never_errs_ret|].
  apply never_errs_forM. intros name. unfold extractor.ExportObjectFact.
  destruct (types.ObjectOf _ name); [apply never_errs_modify | apply never_errs_panic].
Qed.

Lemma never_errs_finish pass r : never_errs (extractor.finish pass r).
Proof.
  unfold extractor.finish. apply never_errs_bind; [apply never_errs_get|]. intros st.
  destruct (_ || _); [apply never_errs_ret|].
  apply never_errs_bind; [apply never_errs_doDocs|]. intros _.
  apply never_errs_bind; [apply never_errs_modify|]. intros _.
  apply never_errs_bind; [apply never_errs_modify|]. intros _. apply never_errs_ret.
Qed.

Lemma never_errs_extractor_fn pass node : never_errs (extractor.fn pass node).
Proof.
  destruct node as [[k ch]|]; [|apply never_errs_ret].
  unfold extractor.fn. cbn [ast.kind].
  destruct k; try apply never_errs_ret.
  - destruct tok; try apply never_errs_ret;
      (apply never_errs_bind; [apply never_errs_modify | intros _; apply never_errs_ret]).
  - apply never_errs_bind; [apply never_errs_modify|]. intros _.
    apply never_errs_bind; [apply never_errs_modify|]. intros _. apply never_errs_finish.
  - apply never_errs_bind; [apply never_errs_modify|]. intros _.
    apply never_errs_bind; [apply never_errs_modify|]. intros _. apply never_errs_finish.
  - apply never_errs_bind; [apply never_errs_modify|]. intros _.
    apply never_errs_bind; [apply never_errs_modify|]. intros _. apply never_errs_finish.
  - apply never_errs_bind; [|intros _; apply never_errs_ret].
    apply never_errs_forM. intros ?. apply never_errs_doDocs.
  - apply never_errs_bind; [|intros _; apply never_errs_ret].
    apply never_errs_forM. intros ?. apply never_errs_doDocs.
Qed.

Lemma never_errs_deprecated_body pass : never_errs (extractor.deprecated_body pass).
Proof.
  unfold extractor.deprecated_body.
  apply never_errs_bind; [apply never_errs_forM; intros ?; apply never_errs_modify|].
  intros _. apply never_errs_bind; [apply never_errs_get|]. intros st.
  apply never_errs_bind.
  { destruct (negb _); [apply never_errs_modify | apply never_errs_ret]. }
  intros _. apply never_errs_bind; [apply never_errs_modify|]. intros _.
  apply never_errs_bind.
  { apply never_errs_forM. intros n. apply never_errs_Inspect.
    apply never_errs_extractor_fn. }
  intros _. apply never_errs_bind; [apply never_errs_get|]. intros ?. apply never_errs_ret.
Qed.

Lemma finish_Ok pass r st :
  resolved pass (extractor.names st) ->
  exists st', extractor.finish pass r st = (st', Ok r).
Proof.
  intros H. unfold extractor.finish, bind at 1, get_state at 1.
  destruct (_ || _); [eexists; reflexivity|].
  unfold bind at 1. rewrite (doDocs_resolved _ _ _ _ H). eexists. reflexivity.
Qed.

Lemma fn_Ok pass n st :
  resolved pass (declared_names n) ->
  exists st' b, extractor.fn pass (Some n) st = (st', Ok b).
Proof.
  destruct n as [k ch]. unfold declared_names, extractor.fn. cbn [ast.kind]. intros H.
  assert (Hfin : forall doc nms r,
             resolved pass nms ->
             exists st',
               (let* _ := modify (extractor.append_doc doc) in
                let* _ := modify (extractor.set_names nms) in
                extractor.finish pass r) st = (st', Ok r)).
  { intros doc nms r Hn. unfold bind at 1, modify at 1. unfold bind at 1, modify at 1.
    apply finish_Ok. exact Hn. }
  assert (Hfields : forall fields,
             resolved pass (flat_map ast.Names fields) ->
             exists st',
               (let* _ := forM_ (fun field =>
                                   extractor.doDocs pass (ast.Names field) [ast.Doc field])
                            fields in ret false) st = (st', Ok false)).
  { intros fields Hf. unfold bind. rewrite fields_resolved; [eexists; reflexivity|].
    unfold resolved in Hf. apply Forall_flat_map in Hf. exact Hf. }
  destruct k; try (eexists; eexists; reflexivity).
  - destruct tok; eexists; eexists; reflexivity.
  - destruct (Hfin doc [name] false H) as [st' E]. exists st', false. exact E.
  - destruct (Hfin doc [name] true H) as [st' E]. exists st', true. exact E.
  - destruct (Hfin doc names false H) as [st' E]. exists st', false. exact E.
  - destruct (Hfields fields H) as [st' E]. exists st', false. exact E.
  - destruct (Hfields methods H) as [st' E]. exists st', false. exact E.
Qed.

Lemma Inspect_Ok pass n :
  resolved_tree pass n ->
  forall st, exists st', Inspect (extractor.fn pass) n st = (st', Ok tt).
Proof.
  induction n as [k ch IH] using Node_tree_ind. intros Htree st.
  unfold resolved_tree in Htree. rewrite walk_order_unfold in Htree.
  inversion Htree as [|? ? Hroot Hch]; subst.
  cbn [ast.children] in Hch. apply Forall_flat_map_walk_order in Hch.
  destruct (fn_Ok pass (ast.mkNode k ch) st Hroot) as (st1 & b & E1).
  rewrite Inspect_unfold. unfold bind at 1. rewrite E1.
  destruct b; [|exists st1; reflexivity].
  destruct (forM_Ok_inv (fun _ => True) (Inspect (extractor.fn pass)) ch) with (st := st1)
    as (st2 & E2 & _).
  - clear -IH Hch. induction IH as [|c ch Hc _ IHch]; [constructor|].
    inversion Hch; subst. constructor; [|apply IHch; assumption].
    intros st _. destruct (Hc ltac:(assumption) st) as [st' E]. exists st'. split; [exact E | exact I].
  - exact I.
  - cbn [ast.children]. unfold bind at 1. rewrite E2. exists st2. reflexivity.
Qed.

(** X9: the fact extractor never returns an error, as its last line
    says; it can only be stopped by the driver refusing an object.  When
    every name it may export a fact for has an object, it ends well. *)
Theorem deprecated_ends_well pass :
  (forall e, snd (extractor.deprecated pass) <> Err e)
  /\ (Forall (resolved_tree pass) (analysis.Files pass) ->
      exists st out, extractor.deprecated pass = (st, Ok out)).
Proof.
  split; [intros e; apply never_errs_deprecated_body|].
  intros Hfiles. unfold extractor.deprecated, extractor.deprecated_body.
  rewrite (bind_Ok _ _ _ _ _ (file_docs_gathered _ _)).
  unfold bind at 1, get_state at 1.
  match goal with
  | |- context [bind (if ?b then _ else _) _ ?s] =>
      assert (Hexp : exists s1, (if b then extractor.ExportPackageFact
                                             {| facts.Msg := extractor.extractDeprecatedMessage
                                                               (extractor.docs s) |}
                                 else ret tt) s = (s1, Ok tt))
  end.
  { destruct (negb _); eexists; reflexivity. }
  destruct Hexp as [s1 Hexp]. rewrite (bind_Ok _ _ _ _ _ Hexp).
  unfold bind at 1, modify at 1.
  destruct (forM_Ok_inv (fun _ => True) (Inspect (extractor.fn pass)) (analysis.Files pass))
    with (st := extractor.set_docs [] s1) as (st2 & E2 & _).
  - eapply Forall_impl; [exact Hfiles|]. intros n Hn st _.
    destruct (Inspect_Ok pass n Hn st) as [st' E]. exists st'. split; [exact E | exact I].
  - exact I.
  - unfold bind at 1. rewrite E2. eexists. eexists. reflexivity.
Qed.

Lemma deprecated_ends_well_witness :
  exists st out,
    extractor.deprecated (sample.bare_pass [sample.file_func_then_var]) = (st, Ok out).
Proof.
  apply (proj2 (deprecated_ends_well (sample.bare_pass [sample.file_func_then_var]))).
  unfold resolved_tree, resolved. cbn.
  repeat (constructor || (eexists; reflexivity)).
Defined.


(** ** Further properties of the analyzer *)

Lemma reportable_Some_inv ext pass node msg :
  reportable ext pass node = Ok (Some msg) ->
  selector_report ext pass {| analysis.Anchor := node; analysis.Message := msg |}.
Proof.
  unfold reportable, selector_report. cbn [analysis.Anchor analysis.Message].
  destruct (ast.kind node) eqn:Ek; try discriminate.
  destruct (types.ObjectOf _ Sel) as [obj|] eqn:Eo; [|discriminate].
  destruct (types.Pkg obj) as [pkg|] eqn:Ep; [|discriminate].
  destruct (protomigrate.own_package pass pkg) eqn:Eown; [discriminate|].
  destruct (facts.Objects _ !! _) as [depr|] eqn:Ef; [|discriminate].
  destruct (protomigrate.SelectorName pass X Sel) as [name|e|m] eqn:En; try discriminate.
  destruct (protomigrate.versionGate ext pass _) as [[|]|e|m] eqn:Eg; try discriminate.
  intros [= <-]. exists X, Sel, obj, pkg, depr, name. repeat split; assumption.
Qed.

Lemma fn_visit ext pass node push st :
  exists extra,
    protomigrate.diagnostics (fst (protomigrate.fn ext pass node push st))
    = protomigrate.diagnostics st ++ extra
    /\ Forall (fun d => analysis.Anchor d = node /\ selector_report ext pass d) extra.
Proof.
  destruct push.
  - rewrite fn_push.
    destruct (ast.kind node) eqn:Ek;
      try (exists []; split; [cbn; rewrite app_nil_r; reflexivity | constructor]).
    rewrite (selector_reportable _ _ _ _ _ _ Ek).
    destruct (reportable ext pass node) as [[msg|]|e|m] eqn:Er;
      try (exists []; split; [cbn; rewrite app_nil_r; reflexivity | constructor]).
    destruct (protomigrate.tfn_deprecated pass _);
      [exists []; split; [cbn; rewrite app_nil_r; reflexivity | constructor]|].
    exists [{| analysis.Anchor := node; analysis.Message := msg |}].
    split; [reflexivity|]. constructor; [|constructor].
    split; [reflexivity | exact (reportable_Some_inv _ _ _ _ Er)].
  - rewrite fn_pop. exists []. split; [cbn; rewrite app_nil_r; reflexivity | constructor].
Qed.

Lemma grows_ret {A} (R : analysis.Diagnostic -> Prop) (a : A) : grows R (ret a).
Proof. intros st. exists []. split; [cbn; rewrite app_nil_r; reflexivity | constructor]. Qed.

Lemma grows_bind {A B} (R : analysis.Diagnostic -> Prop)
  (m : M protomigrate.State A) (f : A -> M protomigrate.State B) :
  grows R m -> (forall a, grows R (f a)) -> grows R (bind m f).
Proof.
  intros Hm Hf st. destruct (Hm st) as (l1 & E1 & H1). unfold bind.
  destruct (m st) as [st1 [a|e|msg]]; cbn [fst] in *;
    try (exists l1; split; assumption).
  destruct (Hf a st1) as (l2 & E2 & H2).
  exists (l1 ++ l2). split.
  - rewrite E2, E1, app_assoc. reflexivity.
  - apply Forall_app. split; assumption.
Qed.

Lemma grows_weaken {A} (R R' : analysis.Diagnostic -> Prop) (m : M protomigrate.State A) :
  (forall d, R d -> R' d) -> grows R m -> grows R' m.
Proof.
  intros HR Hm st. destruct (Hm st) as (l & E & H). exists l. split; [exact E|].
  eapply Forall_impl; [exact H | exact HR].
Qed.

Lemma grows_forM {A} (R : analysis.Diagnostic -> Prop)
  (g : A -> M protomigrate.State unit) l :
  Forall (fun x => grows R (g x)) l -> grows R (forM_ g l).
Proof.
  induction 1 as [|x l Hx _ IH]; cbn [forM_].
  - apply grows_ret.
  - apply grows_bind; [exact Hx | intros _; exact IH].
Qed.

Lemma Nodes_node_grows ext pass n :
  grows (fun d => In (analysis.Anchor d) (walk_order n) /\ selector_report ext pass d)
    (Nodes_node (protomigrate.fn ext pass) n).
Proof.
  induction n as [k ch IH] using Node_tree_ind.
  assert (Hvisit : forall push,
             grows (fun d => In (analysis.Anchor d) (walk_order (ast.mkNode k ch))
                             /\ selector_report ext pass d)
               (protomigrate.fn ext pass (ast.mkNode k ch) push)).
  { intros push st. destruct (fn_visit ext pass (ast.mkNode k ch) push st) as (l & E & H).
    exists l. split; [exact E|]. eapply Forall_impl; [exact H|].
    intros d [Ha Hd]. split; [|exact Hd]. rewrite Ha, walk_order_unfold. left. reflexivity. }
  rewrite Nodes_node_unfold. apply grows_bind; [apply Hvisit|].
  intros [|]; [|apply grows_ret].
  apply grows_bind.
  - cbn [ast.children]. apply grows_forM. apply Forall_forall. intros c Hc.
    rewrite Forall_forall in IH. specialize (IH c Hc).
    eapply grows_weaken; [|exact IH].
    intros d [Hin Hd]. split; [|exact Hd].
    rewrite walk_order_unfold. right. cbn [ast.children].
    apply in_flat_map. exists c. split; [apply list_elem_of_In; exact Hc | exact Hin].
  - intros _. apply grows_bind; [apply Hvisit | intros _; apply grows_ret].
Qed.

Lemma walks_grow {A} (R : analysis.Diagnostic -> Prop)
  (walk : ast.Node -> M protomigrate.State A) files :
  (forall n, grows (fun d => In (analysis.Anchor d) (walk_order n) /\ R d) (walk n)) ->
  Forall (fun n => grows (fun d => In (analysis.Anchor d) (flat_map walk_order files) /\ R d)
                     (walk n)) files.
Proof.
  intros Hwalk. apply Forall_forall. intros n Hn.
  eapply grows_weaken; [|apply Hwalk].
  intros d [Hin Hd]. split; [|exact Hd].
  apply in_flat_map. exists n. split; [apply list_elem_of_In; exact Hn | exact Hin].
Qed.

Lemma imported_package_Ok o imp :
  protomigrate.imported_package o = Ok imp -> o ≫= types.Imported = Some imp.
Proof.
  unfold protomigrate.imported_package.
  destruct (o ≫= types.Imported); [intros [= ->]; reflexivity | discriminate].
Qed.

Lemma fn2_unfold pass node spec st :
  ast.kind node = ast.ImportSpecNode spec ->
  protomigrate.fn2 pass node st
  = match protomigrate.imported_package (import_object pass spec) with
    | Ok imp =>
        match slice (ast.Value (ast.Path spec)) 1
                (Z.of_nat (String.length (ast.Value (ast.Path spec))) - 1) with
        | Ok path =>
            match facts.Packages (analysis.ResultOfDeprecated pass) !! types.pkg_ptr imp with
            | Some depr =>
                if String.eqb path protomigrate.proto_path
                   && match protomigrate.Generator pass (ast.ValuePos (ast.Path spec)) with
                      | Some gen => facts.Generator_eqb gen facts.ProtocGenGo
                      | None => false
                      end
                then (st, Ok tt)
                else (reported
                        [{| analysis.Anchor := node;
                            analysis.Message :=
                              "package " +:+ path +:+ " is deprecated: "
                                +:+ facts.Msg depr |}] st, Ok tt)
            | None => (st, Ok tt)
            end
        | Err e => (st, Err e)
        | Panic msg => (st, Panic msg)
        end
    | Err e => (st, Err e)
    | Panic msg => (st, Panic msg)
    end.
Proof.
  intros Ek. unfold protomigrate.fn2. rewrite Ek.
  assert (Hobj : match ast.ImportName spec with
                 | Some name =>
                     protomigrate.imported_package
                       (types.ObjectOf (analysis.TypesInfo pass) name)
                 | None =>
                     protomigrate.imported_package
                       (types.Implicits (analysis.TypesInfo pass) spec)
                 end = protomigrate.imported_package (import_object pass spec)).
  { unfold import_object. destruct (ast.ImportName spec); reflexivity. }
  rewrite Hobj. clear Hobj. unfold bind, lift.
  destruct (protomigrate.imported_package _) as [imp|e|m]; try reflexivity.
  destruct (slice _ 1 _) as [path|e|m]; try reflexivity.
  destruct (facts.Packages (analysis.ResultOfDeprecated pass) !! types.pkg_ptr imp);
    [|reflexivity].
  destruct (String.eqb path protomigrate.proto_path); cbn [andb]; [|reflexivity].
  destruct (protomigrate.Generator pass _) as [gen|]; [|reflexivity].
  destruct (facts.Generator_eqb gen facts.ProtocGenGo); reflexivity.
Qed.

Lemma fn2_cases pass node st :
  protomigrate.fn2 pass node st = (st, snd (protomigrate.fn2 pass node st))
  \/ exists d,
      analysis.Anchor d = node /\ import_report pass d
      /\ protomigrate.fn2 pass node st = (reported [d] st, Ok tt).
Proof.
  destruct (ast.kind node) eqn:Ek;
    try (left; unfold protomigrate.fn2; rewrite Ek; reflexivity).
  rewrite (fn2_unfold _ _ _ _ Ek).
  destruct (protomigrate.imported_package _) as [imp|e|m] eqn:Ei; try (left; reflexivity).
  destruct (slice _ 1 _) as [path|e|m] eqn:Es; try (left; reflexivity).
  destruct (facts.Packages (analysis.ResultOfDeprecated pass) !! types.pkg_ptr imp)
    as [depr|] eqn:Ef; [|left; reflexivity].
  destruct (_ && _); [left; reflexivity|].
  right. eexists. split; [|split; [|reflexivity]]; [reflexivity|].
  exists spec, imp, depr, path. cbn [analysis.Anchor analysis.Message].
  repeat split; try assumption. apply imported_package_Ok, Ei.
Qed.

(** X10: a visit of [fn2] touches neither [tfn] nor [stack], and it
    reports at most one diagnostic: none, or one anchored at the import it
    visits, whose package carries a fact. *)
Theorem import_visit_reports_at_most_once pass node st :
  let st' := fst (protomigrate.fn2 pass node st) in
  protomigrate.tfn st' = protomigrate.tfn st
  /\ protomigrate.stack st' = protomigrate.stack st
  /\ (protomigrate.diagnostics st' = protomigrate.diagnostics st
      \/ exists d,
          analysis.Anchor d = node /\ import_report pass d
          /\ protomigrate.diagnostics st' = protomigrate.diagnostics st ++ [d]).
Proof.
  intros st'. subst st'.
  destruct (fn2_cases pass node st) as [E | (d & Ha & Hd & E)]; rewrite E; cbn [fst].
  - repeat split. left. reflexivity.
  - repeat split. right. exists d. repeat split; assumption.
Qed.

Lemma fn2_grows pass node :
  grows (fun d => In (analysis.Anchor d) (walk_order node) /\ import_report pass d)
    (protomigrate.fn2 pass node).
Proof.
  intros st.
  destruct (fn2_cases pass node st) as [E | (d & Ha & Hd & E)]; rewrite E; cbn [fst].
  - exists []. split; [rewrite app_nil_r; reflexivity | constructor].
  - exists [d]. split; [reflexivity|]. constructor; [|constructor].
    split; [|exact Hd]. rewrite Ha, walk_order_unfold. left. reflexivity.
Qed.

Lemma Preorder_node_grows pass n :
  grows (fun d => In (analysis.Anchor d) (walk_order n) /\ import_report pass d)
    (Preorder_node protomigrate.isImportSpec (protomigrate.fn2 pass) n).
Proof.
  induction n as [k ch IH] using Node_tree_ind.
  rewrite Preorder_node_unfold. apply grows_bind.
  - destruct (protomigrate.isImportSpec _); [apply fn2_grows | apply grows_ret].
  - intros _. cbn [ast.children]. apply grows_forM. apply Forall_forall. intros c Hc.
    rewrite Forall_forall in IH. specialize (IH c Hc).
    eapply grows_weaken; [|exact IH].
    intros d [Hin Hd]. split; [|exact Hd].
    rewrite walk_order_unfold. right. cbn [ast.children].
    apply in_flat_map. exists c. split; [apply list_elem_of_In; exact Hc | exact Hin].
Qed.

Lemma checkDeprecated_founded ext pass :
  exists uses imports,
    protomigrate.diagnostics (fst (protomigrate.checkDeprecated ext pass))
    = uses ++ imports
    /\ Forall (fun d => In (analysis.Anchor d) (flat_map walk_order (analysis.Files pass))
                        /\ selector_report ext pass d) uses
    /\ Forall (fun d => In (analysis.Anchor d) (flat_map walk_order (analysis.Files pass))
                        /\ import_report pass d) imports.
Proof.
  unfold protomigrate.checkDeprecated, protomigrate.checkDeprecated_body, Nodes, Preorder.
  pose proof (grows_forM _ _ _
                (walks_grow (selector_report ext pass)
                   (Nodes_node (protomigrate.fn ext pass)) (analysis.Files pass)
                   (Nodes_node_grows ext pass)) protomigrate.init) as (uses & E1 & H1).
  unfold bind at 1.
  destruct (forM_ (Nodes_node _) _ protomigrate.init) as [st1 [[]|e|m]]; cbn [fst] in *;
    try (exists uses, []; rewrite app_nil_r; repeat split;
         [exact E1 | exact H1 | constructor]).
  pose proof (grows_forM _ _ _
                (walks_grow (import_report pass)
                   (Preorder_node protomigrate.isImportSpec (protomigrate.fn2 pass))
                   (analysis.Files pass) (Preorder_node_grows pass)) st1)
    as (imports & E2 & H2).
  exists uses, imports. split; [|split; assumption].
  unfold bind at 1.
  destruct (forM_ (Preorder_node _ _) _ st1) as [st2 [[]|e|m]]; cbv [ret]; cbn [fst] in *;
    rewrite E2, E1; reflexivity.
Qed.

(** X11: whatever [checkDeprecated] reports is well-founded, and in two
    parts.  First come the diagnostics of the selector expressions, each
    anchored at a selector expression of the files whose object belongs to
    another package, carries a fact and passes the version gate; then come
    those of the imports, each anchored at an import of the files whose
    package carries a fact. *)
Theorem checkDeprecated_reports_are_founded ext pass :
  exists uses imports,
    protomigrate.diagnostics (fst (protomigrate.checkDeprecated ext pass))
    = uses ++ imports
    /\ Forall (fun d => In (analysis.Anchor d) (flat_map walk_order (analysis.Files pass))
                        /\ selector_report ext pass d) uses
    /\ Forall (fun d => In (analysis.Anchor d) (flat_map walk_order (analysis.Files pass))
                        /\ import_report pass d) imports.
Proof. exact (checkDeprecated_founded ext pass). Qed.

(** X12: without facts there is nothing to report: if the result of the
    fact extractor is empty, for objects and for packages,
    [checkDeprecated] reports no diagnostic, however the walk ends. *)
Theorem no_facts_no_diagnostics ext pass :
  facts.Objects (analysis.ResultOfDeprecated pass) = ∅ ->
  facts.Packages (analysis.ResultOfDeprecated pass) = ∅ ->
  protomigrate.diagnostics (fst (protomigrate.checkDeprecated ext pass)) = [].
Proof.
  intros Ho Hp.
  destruct (checkDeprecated_founded ext pass) as (uses & imports & E & H1 & H2).
  rewrite E.
  destruct uses as [|d uses].
  - destruct imports as [|d imports]; [reflexivity|].
    inversion H2 as [|? ? [_ (spec & imp & depr & path & _ & _ & _ & Hf & _)] _]; subst.
    rewrite Hp, lookup_empty in Hf. discriminate.
  - inversion H1 as [|? ? [_ (X & Sel & obj & pkg & depr & name & _ & _ & _ & _ & Hf & _)] _];
      subst.
    rewrite Ho, lookup_empty in Hf. discriminate.
Qed.

Lemma no_facts_no_diagnostics_witness :
  protomigrate.diagnostics
    (fst (protomigrate.checkDeprecated sample.ext
            (sample.bare_pass [sample.file_var_then_func])))
  = [].
Proof.
  apply (no_facts_no_diagnostics sample.ext (sample.bare_pass [sample.file_var_then_func]));
    reflexivity.
Defined.

(** ** Further properties of the walks and of [run] *)


Lemma fn_push_result ext pass node st st' r :
  protomigrate.fn ext pass node true st = (st', r) ->
  protomigrate.stack st' = protomigrate.stack st + 1 /\ r <> Ok false.
Proof.
  rewrite fn_push.
  destruct (ast.kind node) eqn:Ek;
    try (intros [= <- <-]; split; [reflexivity | discriminate]).
  rewrite (selector_reportable _ _ _ _ _ _ Ek).
  destruct (reportable ext pass node) as [[msg|]|e|m];
    try (intros [= <- <-]; split; [reflexivity | discriminate]).
  destruct (protomigrate.tfn_deprecated pass _);
    intros [= <- <-]; split; (reflexivity || discriminate).
Qed.

Lemma forM_balanced {A} (walk : A -> M protomigrate.State unit) l :
  Forall (fun c => forall st st',
              walk c st = (st', Ok tt) -> protomigrate.stack st' = protomigrate.stack st) l ->
  forall st st',
    forM_ walk l st = (st', Ok tt) -> protomigrate.stack st' = protomigrate.stack st.
Proof.
  induction 1 as [|c l Hc _ IH]; intros st st' H; cbn [forM_] in H.
  - cbv [ret] in H. congruence.
  - apply bind_Ok_inv in H as ([] & s1 & E1 & H).
    rewrite (IH _ _ H). exact (Hc _ _ E1).
Qed.

Lemma Nodes_node_balanced ext pass n st st' :
  Nodes_node (protomigrate.fn ext pass) n st = (st', Ok tt) ->
  protomigrate.stack st' = protomigrate.stack st.
Proof.
  revert st st'. induction n as [k ch IH] using Node_tree_ind. intros st st' H.
  rewrite Nodes_node_unfold in H.
  apply bind_Ok_inv in H as (b & s1 & E1 & H).
  apply fn_push_result in E1 as [Hs1 Hb].
  destruct b; [|contradiction].
  apply bind_Ok_inv in H as ([] & s2 & E2 & H).
  apply (forM_balanced _ _ IH) in E2.
  apply bind_Ok_inv in H as (b & s3 & E3 & H).
  rewrite fn_pop in E3. cbv [ret] in H.
  injection E3 as <- <-. injection H as <-.
  cbn [protomigrate.stack protomigrate.set_stack]. lia.
Qed.

Lemma preserves_Preorder_node {S} (I : S -> Prop) (types : ast.Kind -> bool)
  (f : ast.Node -> M S unit) :
  (forall n, preserves I (f n)) -> forall n, preserves I (Preorder_node types f n).
Proof.
  intros Hf. induction n as [k ch IH] using Node_tree_ind.
  rewrite Preorder_node_unfold. apply preserves_bind.
  - destruct (types _); [apply Hf | apply preserves_ret].
  - intros _. apply preserves_forM. exact IH.
Qed.

Lemma fn2_keeps_stack pass k node :
  preserves (fun st => protomigrate.stack st = k) (protomigrate.fn2 pass node).
Proof.
  intros st H.
  destruct (fn2_cases pass node st) as [E | (d & _ & _ & E)]; rewrite E; exact H.
Qed.

(** X13: the depth counter of [checkDeprecated] is balanced: a walk that
    ends well leaves [stack] as it found it, whatever the tree, and at the
    end of the pass the counter is back at zero. *)
Theorem stack_is_balanced ext pass :
  (forall n st st',
      Nodes_node (protomigrate.fn ext pass) n st = (st', Ok tt) ->
      protomigrate.stack st' = protomigrate.stack st)
  /\ (forall st',
        protomigrate.checkDeprecated ext pass = (st', Ok tt) ->
        protomigrate.stack st' = 0).
Proof.
  split; [intros n st st'; apply Nodes_node_balanced|].
  intros st' H.
  unfold protomigrate.checkDeprecated, protomigrate.checkDeprecated_body, Nodes, Preorder in H.
  apply bind_Ok_inv in H as ([] & s1 & E1 & H).
  apply bind_Ok_inv in H as ([] & s2 & E2 & H).
  cbv [ret] in H. injection H as <-.
  apply forM_balanced in E1.
  - cbn [protomigrate.stack protomigrate.init] in E1.
    pose proof (preserves_forM (fun st => protomigrate.stack st = 0)
                  (Preorder_node protomigrate.isImportSpec (protomigrate.fn2 pass))
                  (analysis.Files pass)) as Hp.
    specialize (Hp ltac:(apply Forall_forall; intros ? _;
                         apply preserves_Preorder_node; intros ?; apply fn2_keeps_stack)
                  s1 E1).
    rewrite E2 in Hp. exact Hp.
  - apply Forall_forall. intros n _ st st'. apply Nodes_node_balanced.
Qed.

Lemma stack_is_balanced_witness :
  protomigrate.stack
    (fst (protomigrate.checkDeprecated sample.ext (sample.pass [sample.file_var_then_func])))
  = 0.
Proof.
  apply (proj2 (stack_is_balanced sample.ext (sample.pass [sample.file_var_then_func]))).
  vm_compute. reflexivity.
Defined.

Lemma bind_cong {S A B} (m1 m2 : M S A) (f : A -> M S B) st1 st2 :
  m1 st1 = m2 st2 -> bind m1 f st1 = bind m2 f st2.
Proof. intros H. unfold bind. rewrite H. reflexivity. Qed.

(** X14: a walk that starts at depth zero forgets the function the last
    walk ended in: the first node it enters resets [tfn], so that the
    exemption of a deprecated function never reaches into the next file. *)
Theorem walk_from_top_forgets_function ext pass n t st :
  protomigrate.stack st = 0 ->
  Nodes_node (protomigrate.fn ext pass) n (protomigrate.set_tfn t st)
  = Nodes_node (protomigrate.fn ext pass) n st.
Proof.
  intros Hs. rewrite !Nodes_node_unfold. apply bind_cong.
  rewrite !fn_push.
  assert (He : entered pass n (protomigrate.set_tfn t st) = entered pass n st).
  { unfold entered, protomigrate.set_tfn.
    cbn [protomigrate.tfn protomigrate.stack protomigrate.diagnostics].
    rewrite Hs. destruct (ast.kind n); reflexivity. }
  rewrite He. reflexivity.
Qed.

Lemma walk_from_top_forgets_function_witness :
  Nodes_node (protomigrate.fn sample.ext (sample.pass [sample.file_var_then_func]))
    sample.file_var_then_func
    (protomigrate.set_tfn (Some sample.obj_Old) protomigrate.init)
  = Nodes_node (protomigrate.fn sample.ext (sample.pass [sample.file_var_then_func]))
      sample.file_var_then_func protomigrate.init.
Proof.
  apply (walk_from_top_forgets_function sample.ext
           (sample.pass [sample.file_var_then_func]) sample.file_var_then_func
           (Some sample.obj_Old) protomigrate.init).
  reflexivity.
Defined.

Lemma reported_nil st : reported [] st = st.
Proof. destruct st. unfold reported. cbn. rewrite app_nil_r. reflexivity. Qed.

Lemma reported_app l1 l2 st : reported l2 (reported l1 st) = reported (l1 ++ l2) st.
Proof. unfold reported. cbn. rewrite app_assoc. reflexivity. Qed.

Lemma gophers_app l1 l2 : gophers (l1 ++ l2) = gophers l1 ++ gophers l2.
Proof. unfold gophers. apply flat_map_app. Qed.

Lemma gophers_flat_map {A} (f : A -> list ast.Node) l :
  flat_map (fun c => gophers (f c)) l = gophers (flat_map f l).
Proof.
  induction l as [|c l IH]; cbn [flat_map]; [reflexivity|].
  rewrite gophers_app, IH. reflexivity.
Qed.

Lemma forM_reported {A} (walk : A -> M protomigrate.State unit)
  (out : A -> list analysis.Diagnostic) l :
  Forall (fun c => forall st, walk c st = (reported (out c) st, Ok tt)) l ->
  forall st, forM_ walk l st = (reported (flat_map out l) st, Ok tt).
Proof.
  induction 1 as [|c l Hc _ IH]; intros st; cbn [forM_ flat_map].
  - rewrite reported_nil. reflexivity.
  - rewrite (bind_Ok _ _ _ _ _ (Hc st)), IH, reported_app. reflexivity.
Qed.

Lemma Preorder_gophers n st :
  Preorder_node protomigrate.nodeFilter
    (fun n =>
       match ast.kind n with
       | ast.IdentNode id =>
           if String.eqb (ast.Name id) "gopher"
           then protomigrate.Report n "identifier is gopher"
           else ret tt
       | _ => ret tt
       end) n st
  = (reported (gophers (walk_order n)) st, Ok tt).
Proof.
  revert st. induction n as [k ch IH] using Node_tree_ind. intros st.
  rewrite Preorder_node_unfold, walk_order_unfold.
  change (ast.mkNode k ch :: flat_map walk_order (ast.children (ast.mkNode k ch)))
    with ([ast.mkNode k ch] ++ flat_map walk_order ch).
  rewrite gophers_app, <- reported_app.
  rewrite (bind_Ok _ _ st (reported (gophers [ast.mkNode k ch]) st) tt).
  - cbn [ast.children]. rewrite (forM_reported _ (fun c => gophers (walk_order c)) _ IH).
    rewrite gophers_flat_map. reflexivity.
  - unfold gophers. cbn [flat_map ast.kind].
    destruct k; cbn [protomigrate.nodeFilter]; cbv [ret];
      try (rewrite reported_nil; reflexivity).
    destruct (String.eqb (ast.Name id) "gopher"); cbn [app];
      [reflexivity | rewrite reported_nil; reflexivity].
Qed.

Lemma unquotes_pass ext imps (st : protomigrate.State) :
  unquotes ext imps ->
  forM_ (fun imp : ast.ImportSpec =>
           match Unquote ext (ast.Value (ast.Path imp)) with
           | inr err => lift (Err err)
           | inl _ => ret tt
           end) imps st = (st, Ok tt).
Proof.
  intros H. revert st. apply forM_identity.
  eapply Forall_impl; [exact H|]. intros imp [s E] st. rewrite E. reflexivity.
Qed.

(** X15: when every import literal of every file unquotes, [run] ends well
    and reports the identifiers named [gopher], one diagnostic each, in
    the order of the walk, and nothing else. *)
Theorem run_reports_gophers ext pass :
  Forall (fun file => unquotes ext (ast.FileImports file)) (analysis.Files pass) ->
  protomigrate.run ext pass
  = (reported (gophers (flat_map walk_order (analysis.Files pass))) protomigrate.init,
     Ok tt).
Proof.
  intros H. unfold protomigrate.run, protomigrate.run_body, Preorder.
  rewrite (bind_Ok _ _ protomigrate.init protomigrate.init tt).
  - rewrite (bind_Ok _ _ protomigrate.init
               (reported (gophers (flat_map walk_order (analysis.Files pass)))
                  protomigrate.init) tt); [reflexivity|].
    rewrite (forM_reported _ (fun c => gophers (walk_order c))).
    + rewrite gophers_flat_map. reflexivity.
    + apply Forall_forall. intros n _ st. apply Preorder_gophers.
  - apply forM_identity. eapply Forall_impl; [exact H|].
    intros file Hfile st. apply unquotes_pass, Hfile.
Qed.

Lemma run_reports_gophers_witness :
  protomigrate.diagnostics
    (fst (protomigrate.run sample.ext
            (sample.pass [sample.file [sample.import_dep] [sample.func_a]])))
  = [{| analysis.Anchor := sample.leaf (ast.IdentNode sample.id_gopher);
        analysis.Message := "identifier is gopher" |};
     {| analysis.Anchor := sample.leaf (ast.IdentNode sample.use_gopher);
        analysis.Message := "identifier is gopher" |}].
Proof.
  rewrite (run_reports_gophers sample.ext
             (sample.pass [sample.file [sample.import_dep] [sample.func_a]])).
  - vm_compute. reflexivity.
  - repeat constructor. eexists. vm_compute. reflexivity.
Defined.

(** X16: [run] returns the error of the first import literal, in the
    order of the files and of their imports, that does not unquote; it
    reports nothing then. *)
Theorem run_returns_first_error ext pass fpre file fpost ipre imp ipost err :
  analysis.Files pass = fpre ++ file :: fpost ->
  Forall (fun f => unquotes ext (ast.FileImports f)) fpre ->
  ast.FileImports file = ipre ++ imp :: ipost ->
  unquotes ext ipre ->
  Unquote ext (ast.Value (ast.Path imp)) = inr err ->
  protomigrate.run ext pass = (protomigrate.init, Err err).
Proof.
  intros Hfiles Hfpre Himps Hipre Herr.
  unfold protomigrate.run, protomigrate.run_body. rewrite Hfiles.
  unfold bind at 1.
  rewrite (forM_app_Ok _ fpre (file :: fpost) protomigrate.init protomigrate.init).
  - cbn [forM_]. unfold bind at 1. rewrite Himps.
    rewrite (forM_app_Ok _ ipre (imp :: ipost) protomigrate.init protomigrate.init).
    + cbn [forM_]. unfold bind at 1. rewrite Herr. reflexivity.
    + apply unquotes_pass, Hipre.
  - apply forM_identity. eapply Forall_impl; [exact Hfpre|].
    intros f Hf st. apply unquotes_pass, Hf.
Qed.

Lemma run_returns_first_error_witness :
  protomigrate.run sample.ext
    (sample.pass [sample.file [sample.import_dep; sample.import_malformed] [sample.func_a]])
  = (protomigrate.init, Err "invalid syntax").
Proof.
  apply (run_returns_first_error sample.ext _ []
           (sample.file [sample.import_dep; sample.import_malformed] [sample.func_a]) []
           [sample.import_dep] sample.import_malformed [] "invalid syntax").
  - reflexivity.
  - constructor.
  - reflexivity.
  - repeat constructor. eexists. vm_compute. reflexivity.
  - vm_compute. reflexivity.
Defined.

(** X17: the version gate is monotone in the target version: an entry of
    the table that lets a use be reported for one target version lets it
    be reported for every later one. *)
Theorem version_gate_is_monotone ext pass pass' target target' entry :
  analysis.GoFlag pass = Some target ->
  analysis.GoFlag pass' = Some target' ->
  target <= target' ->
  protomigrate.versionGate ext pass entry = Ok true ->
  protomigrate.versionGate ext pass' entry = Ok true.
Proof.
  intros Hf Hf' Hle. destruct entry as [std|]; [|reflexivity].
  unfold protomigrate.versionGate.
  rewrite !(IsGoVersion_flag _ _ _ Hf), !(IsGoVersion_flag _ _ _ Hf').
  destruct (_ =? DeprecatedNeverUse ext).
  - intros [= H]. apply Z.leb_le in H. f_equal. apply Z.leb_le. lia.
  - destruct (_ =? DeprecatedUseNoLonger ext).
    + destruct (Z.leb_spec (knowledge.DeprecatedSince std) target) as [H1|H1];
        [|discriminate].
      intros [= H]. apply Z.leb_le in H.
      replace (knowledge.DeprecatedSince std <=? target') with true
        by (symmetry; apply Z.leb_le; lia).
      f_equal. apply Z.leb_le. lia.
    + destruct (_ <? 0); [discriminate|].
      destruct (Z.leb_spec (knowledge.AlternativeAvailableSince std) target) as [H1|H1];
        [|discriminate].
      intros _.
      replace (knowledge.AlternativeAvailableSince std <=? target') with true
        by (symmetry; apply Z.leb_le; lia).
      reflexivity.
Qed.

Lemma version_gate_is_monotone_witness :
  protomigrate.versionGate sample.ext (sample.pass [])
    (Some {| knowledge.DeprecatedSince := 6; knowledge.AlternativeAvailableSince := 1 |})
  = Ok true.
Proof.
  apply (version_gate_is_monotone sample.ext (sample.older_pass []) (sample.pass []) 2 4).
  - reflexivity.
  - reflexivity.
  - lia.
  - vm_compute. reflexivity.
Defined.

Lemma versionGate_flagless ext pass std :
  analysis.GoFlag pass = None ->
  exists msg, protomigrate.versionGate ext pass (Some std) = Panic msg.
Proof.
  intros H. unfold protomigrate.versionGate, protomigrate.IsGoVersion. rewrite H.
  destruct (_ =? DeprecatedNeverUse ext); [eexists; reflexivity|].
  destruct (_ =? DeprecatedUseNoLonger ext); [eexists; reflexivity|].
  destruct (_ <? 0); eexists; reflexivity.
Qed.

(** X18: a pass whose analyzer has no flag for the version cannot look at
    a use the table has an entry for: the visit of a selector expression
    whose object carries a fact and whose name is listed panics, whatever
    the entry says, an entry that is never to be used included, and
    nothing is reported. *)
Theorem table_entry_needs_version_flag ext pass node X Sel obj pkg depr name std st :
  analysis.GoFlag pass = None ->
  ast.kind node = ast.SelectorExpr X Sel ->
  types.ObjectOf (analysis.TypesInfo pass) Sel = Some obj ->
  types.Pkg obj = Some pkg ->
  protomigrate.own_package pass pkg = false ->
  facts.Objects (analysis.ResultOfDeprecated pass) !! types.obj_ptr obj = Some depr ->
  protomigrate.SelectorName pass X Sel = Ok name ->
  StdlibDeprecations ext !! name = Some std ->
  exists msg,
    snd (protomigrate.fn ext pass node true st) = Panic msg
    /\ protomigrate.diagnostics (fst (protomigrate.fn ext pass node true st))
       = protomigrate.diagnostics st.
Proof.
  intros Hflag Hk Hobj Hpkg Hown Hfact Hname Hstd.
  destruct (versionGate_flagless ext pass std Hflag) as [msg Hgate].
  exists msg. rewrite fn_push, Hk, (selector_reportable _ _ _ _ _ _ Hk).
  unfold reportable. rewrite Hk, Hobj, Hpkg, Hown, Hfact, Hname, Hstd, Hgate.
  split; reflexivity.
Qed.

Lemma table_entry_needs_version_flag_witness :
  exists msg,
    snd (protomigrate.fn sample.ext_never sample.flagless_pass sample.dep_Sym true
           protomigrate.init) = Panic msg.
Proof.
  destruct (table_entry_needs_version_flag sample.ext_never sample.flagless_pass
              sample.dep_Sym (Some sample.id_dep) sample.id_Sym sample.obj_Sym sample.dep
              {| facts.Msg := "use Other." |} "example.com/dep.Sym"
              {| knowledge.DeprecatedSince := 6; knowledge.AlternativeAvailableSince := -1 |}
              protomigrate.init) as (msg & H & _);
    try (vm_compute; reflexivity).
  exists msg. exact H.
Defined.

Lemma length_snoc s b : String.length (s +:+ String b EmptyString) = S (String.length s).
Proof.
  induction s as [|c s IH]; [reflexivity|].
  change (S (String.length (s +:+ String b EmptyString)) = S (S (String.length s))).
  f_equal. exact IH.
Qed.

Lemma substring_prefix s t : String.substring 0 (String.length s) (s +:+ t) = s.
Proof.
  induction s as [|c s IH]; [destruct t; reflexivity|].
  change (String c (String.substring 0 (String.length s) (s +:+ t)) = String c s).
  f_equal. exact IH.
Qed.

Lemma slice_delimited a b s :
  let p := String a (s +:+ String b EmptyString) in
  slice p 1 (Z.of_nat (String.length p) - 1) = Ok s.
Proof.
  intros p. rewrite slice_inner.
  - subst p. cbn [String.length]. rewrite length_snoc.
    replace (S (S (String.length s)) - 2)%nat with (String.length s) by lia.
    cbn [String.substring]. rewrite substring_prefix. reflexivity.
  - subst p. cbn [String.length]. rewrite length_snoc. lia.
Qed.

(** X19: the path [fn2] names is what stands between the first and the
    last byte of the literal, whatever these two bytes are: the literal is
    not unquoted.  An import of a deprecated package is reported under
    that path, unless the path is the one of the legacy runtime. *)
Theorem import_path_is_read_between_delimiters pass spec node imp depr a b s st :
  ast.kind node = ast.ImportSpecNode spec ->
  import_object pass spec ≫= types.Imported = Some imp ->
  ast.Value (ast.Path spec) = String a (s +:+ String b EmptyString) ->
  facts.Packages (analysis.ResultOfDeprecated pass) !! types.pkg_ptr imp = Some depr ->
  s <> protomigrate.proto_path ->
  protomigrate.fn2 pass node st
  = (reported [{| analysis.Anchor := node;
                  analysis.Message :=
                    "package " +:+ s +:+ " is deprecated: " +:+ facts.Msg depr |}] st,
     Ok tt).
Proof.
  intros Hk Himp Hval Hfact Hpath.
  rewrite (fn2_unfold _ _ _ _ Hk). unfold protomigrate.imported_package.
  rewrite Himp, Hval, slice_delimited, Hfact.
  apply String.eqb_neq in Hpath. rewrite Hpath. reflexivity.
Qed.

Lemma import_path_is_read_between_delimiters_witness :
  protomigrate.fn2 (sample.pass []) (sample.leaf (ast.ImportSpecNode sample.import_raw))
    protomigrate.init
  = (reported
       [{| analysis.Anchor := sample.leaf (ast.ImportSpecNode sample.import_raw);
           analysis.Message :=
             "package example.com/legacy is deprecated: use google.golang.org/protobuf." |}]
       protomigrate.init, Ok tt).
Proof.
  apply (import_path_is_read_between_delimiters (sample.pass [])
           sample.import_raw (sample.leaf (ast.ImportSpecNode sample.import_raw))
           sample.proto {| facts.Msg := "use google.golang.org/protobuf." |}
           "`"%char "`"%char "example.com/legacy" protomigrate.init).
  - reflexivity.
  - reflexivity.
  - reflexivity.
  - vm_compute. reflexivity.
  - discriminate.
Defined.
